(** * team-todo: authorization, invites and context restoration

    A shallow embedding of the Go backend (handlers over an ent client)
    and of its JWT service.  The relational store is a record of tables,
    each table a list of rows in insertion order; the ent query builders
    are small functions over those lists.  Handlers are functions from a
    store to a store and a response, so every early [return] of the Go
    code is a leaf of the corresponding [match].

    What lies outside the handlers is passed in explicitly:
    - [Env]: per-request non-determinism (store faults, the clock, fresh
      identifiers, random bytes);
    - [Deps]: pure functions of external libraries (uuid parsing, the
      validator's email rule, bcrypt, HMAC).

    Columns no handler reads ([updated_at], [project_permission]) and the
    detached e-mail goroutines are left out. *)

From Stdlib Require Import List String Ascii ZArith NArith Bool Lia Permutation.
From Stdlib Require Import Sorted.
Import ListNotations.

Local Open Scope string_scope.
Local Open Scope list_scope.

(** ** Identifiers and time *)

(** [uuid.UUID]: a 128-bit value. *)
Definition UUID := N.
Bind Scope N_scope with UUID.

(** [time.Time]: nanoseconds since the Unix epoch. *)
Definition Time := Z.
Bind Scope Z_scope with Time.

Definition Second : Z := 1000000000.
Definition Minute : Z := 60 * Second.
Definition Hour : Z := 60 * Minute.

Definition hexdigit (n : N) : ascii :=
  match n with
  | 0 => "0" | 1 => "1" | 2 => "2" | 3 => "3" | 4 => "4" | 5 => "5"
  | 6 => "6" | 7 => "7" | 8 => "8" | 9 => "9" | 10 => "a" | 11 => "b"
  | 12 => "c" | 13 => "d" | 14 => "e" | _ => "f"
  end%N%char.

(** The [k] low nibbles of [n], most significant first. *)
Fixpoint hex_digits (k : nat) (n : N) : string :=
  match k with
  | O => ""
  | S k' => hex_digits k' (N.shiftr n 4) ++ String (hexdigit (N.land n 15)) ""
  end.

(** [UUID.String]: the 8-4-4-4-12 lowercase form. *)
Definition UUID_String (u : UUID) : string :=
  hex_digits 8 (N.shiftr u 96) ++ "-" ++ hex_digits 4 (N.shiftr u 80) ++ "-"
  ++ hex_digits 4 (N.shiftr u 64) ++ "-" ++ hex_digits 4 (N.shiftr u 48) ++ "-"
  ++ hex_digits 12 u.

(** ** The ent client, over lists of rows *)

Module ent.

Inductive Error :=
| NotFoundError
| NotSingularError
| ConstraintError
| ValidationError
| DriverError.

Definition IsNotFound (e : Error) : bool :=
  match e with NotFoundError => true | _ => false end.

Inductive result (A : Type) : Type :=
| Ok (a : A)
| Err (e : Error).
Arguments Ok {A} a.
Arguments Err {A} e.

Section Queries.
Context {A : Type}.

(** [Query().Where(...).Only(ctx)] on the rows selected by [Where]. *)
Definition Only (fault : bool) (rows : list A) : result A :=
  if fault then Err DriverError
  else match rows with
       | [] => Err NotFoundError
       | [a] => Ok a
       | _ :: _ :: _ => Err NotSingularError
       end.

(** [Query().Where(...).Exist(ctx)]. *)
Definition Exist (fault : bool) (rows : list A) : result bool :=
  if fault then Err DriverError
  else Ok (match rows with [] => false | _ :: _ => true end).

(** [Query().Where(...).All(ctx)]. *)
Definition All (fault : bool) (rows : list A) : result (list A) :=
  if fault then Err DriverError else Ok rows.

(** [Create()....Save(ctx)]: field validators run first, then the
    insert, which the unique indexes of the table may refuse. *)
Definition Create (fault : bool) (valid : A -> bool)
           (conflict : A -> A -> bool) (row : A) (rows : list A)
  : result (list A) :=
  if negb (valid row) then Err ValidationError
  else if fault then Err DriverError
  else if existsb (conflict row) rows then Err ConstraintError
  else Ok (rows ++ [row]).

(** [UpdateOneID(id)....Save(ctx)]: the updated row and the table. *)
Definition UpdateOneID (fault : bool) (key : A -> UUID) (id : UUID)
           (set : A -> A) (rows : list A) : result (A * list A) :=
  if fault then Err DriverError
  else match find (fun r => N.eqb (key r) id) rows with
       | None => Err NotFoundError
       | Some r =>
           Ok (set r,
               map (fun r => if N.eqb (key r) id then set r else r) rows)
       end.
End Queries.

End ent.
Import ent.

(** ** Schema *)

(** [organizationmember.Role]. *)
Inductive Role := RoleOwner | RoleAdmin | RoleMember.

Definition Role_string (r : Role) : string :=
  match r with
  | RoleOwner => "owner" | RoleAdmin => "admin" | RoleMember => "member"
  end.

(** [invite.Role]: the same three values, a type of its own in ent. *)
Inductive InviteRole := InviteRoleOwner | InviteRoleAdmin | InviteRoleMember.

Definition InviteRole_string (r : InviteRole) : string :=
  match r with
  | InviteRoleOwner => "owner"
  | InviteRoleAdmin => "admin"
  | InviteRoleMember => "member"
  end.

(** [projectmember.Permission]. *)
Inductive Permission := PermissionEdit | PermissionView.

Definition Permission_string (p : Permission) : string :=
  match p with PermissionEdit => "edit" | PermissionView => "view" end.

Record User := {
  user_id : UUID;
  user_email : string;
  user_password_hash : string;
  user_display_name : string;
  user_last_org_id : option UUID;
  user_last_project_id : option UUID;
  user_created_at : Time
}.

Record Organization := {
  org_id : UUID;
  org_name : string;
  org_slug : string;
  org_created_at : Time
}.

Record OrganizationMember := {
  om_user_id : UUID;
  om_organization_id : UUID;
  om_role : Role;
  om_created_at : Time
}.

Record Project := {
  proj_id : UUID;
  proj_organization_id : UUID;
  proj_name : string;
  proj_is_private : bool;
  proj_created_at : Time
}.

Record ProjectMember := {
  pm_user_id : UUID;
  pm_project_id : UUID;
  pm_permission : Permission;
  pm_created_at : Time
}.

Record Invite := {
  inv_id : UUID;
  inv_token : string;
  inv_email : string;
  inv_organization_id : UUID;
  inv_project_id : option UUID;
  inv_role : InviteRole;
  inv_invited_by_id : UUID;
  inv_expires_at : Time;
  inv_used_at : option Time;
  inv_created_at : Time
}.

(** The store: one list of rows per table. *)
Record DB := {
  users : list User;
  organizations : list Organization;
  organization_members : list OrganizationMember;
  projects : list Project;
  project_members : list ProjectMember;
  invites : list Invite
}.

Definition set_users (db : DB) (us : list User) : DB :=
  {| users := us; organizations := organizations db;
     organization_members := organization_members db;
     projects := projects db; project_members := project_members db;
     invites := invites db |}.

Definition set_organizations (db : DB) (os : list Organization) : DB :=
  {| users := users db; organizations := os;
     organization_members := organization_members db;
     projects := projects db; project_members := project_members db;
     invites := invites db |}.

Definition set_organization_members (db : DB) (ms : list OrganizationMember)
  : DB :=
  {| users := users db; organizations := organizations db;
     organization_members := ms;
     projects := projects db; project_members := project_members db;
     invites := invites db |}.

Definition set_projects (db : DB) (ps : list Project) : DB :=
  {| users := users db; organizations := organizations db;
     organization_members := organization_members db;
     projects := ps; project_members := project_members db;
     invites := invites db |}.

Definition set_project_members (db : DB) (ms : list ProjectMember) : DB :=
  {| users := users db; organizations := organizations db;
     organization_members := organization_members db;
     projects := projects db; project_members := ms;
     invites := invites db |}.

Definition set_invites (db : DB) (rows : list Invite) : DB :=
  {| users := users db; organizations := organizations db;
     organization_members := organization_members db;
     projects := projects db; project_members := project_members db;
     invites := rows |}.

(** *** Field validators and unique indexes of the schema *)

Definition NotEmpty (s : string) : bool :=
  match s with "" => false | String _ _ => true end.

Definition is_lower_or_digit (c : ascii) : bool :=
  let n := nat_of_ascii c in
  ((97 <=? n) && (n <=? 122) || (48 <=? n) && (n <=? 57))%nat.

(** [after_alnum] tells whether the previous character closed a
    non-empty run of [a-z0-9]. *)
Fixpoint slug_runs (after_alnum : bool) (s : string) : bool :=
  match s with
  | "" => after_alnum
  | String c s' =>
      if is_lower_or_digit c then slug_runs true s'
      else if Ascii.eqb c "-" then after_alnum && slug_runs false s'
      else false
  end.

(** [slugRegex.MatchString]: [^[a-z0-9]+(?:-[a-z0-9]+)*$]. *)
Definition slugRegex_Match (s : string) : bool := slug_runs false s.

Definition User_valid (u : User) : bool :=
  NotEmpty (user_email u) && NotEmpty (user_password_hash u)
  && NotEmpty (user_display_name u).

Definition User_conflict (a b : User) : bool :=
  N.eqb (user_id a) (user_id b) || String.eqb (user_email a) (user_email b).

Definition Organization_valid (o : Organization) : bool :=
  NotEmpty (org_name o) && NotEmpty (org_slug o) && slugRegex_Match (org_slug o).

Definition Organization_conflict (a b : Organization) : bool :=
  N.eqb (org_id a) (org_id b) || String.eqb (org_slug a) (org_slug b).

Definition OrganizationMember_conflict (a b : OrganizationMember) : bool :=
  N.eqb (om_user_id a) (om_user_id b)
  && N.eqb (om_organization_id a) (om_organization_id b).

Definition Project_valid (p : Project) : bool := NotEmpty (proj_name p).

Definition Project_conflict (a b : Project) : bool :=
  N.eqb (proj_id a) (proj_id b).

Definition ProjectMember_conflict (a b : ProjectMember) : bool :=
  N.eqb (pm_user_id a) (pm_user_id b)
  && N.eqb (pm_project_id a) (pm_project_id b).

Definition Invite_valid (i : Invite) : bool :=
  NotEmpty (inv_token i) && NotEmpty (inv_email i).

Definition Invite_conflict (a b : Invite) : bool :=
  N.eqb (inv_id a) (inv_id b) || String.eqb (inv_token a) (inv_token b).

(** ** External libraries

    Pure functions of the libraries the backend links against.  The
    development is parametric in those gathered in [Deps].  Module [jwt]
    follows golang-jwt/jwt v5 on the calls the JWT service makes:
    numeric dates are truncated to [TimePrecision], a token is valid
    strictly before its [exp] and from its [nbf] on, the signature is
    checked before the claims. *)

Module jwt.

(** Registered signing methods; only the HS family is a
    [*SigningMethodHMAC]. *)
Inductive SigningMethod := HS256 | HS384 | HS512 | NotHMAC (alg : string).

Definition is_HMAC (m : SigningMethod) : bool :=
  match m with NotHMAC _ => false | _ => true end.

Definition TimePrecision : Z := Second.

(** [NewNumericDate]: [t.Truncate(TimePrecision)]. *)
Definition NewNumericDate (t : Time) : Time := (t - t mod TimePrecision)%Z.

Record RegisteredClaims := {
  Issuer : string;
  Subject : string;
  ExpiresAt : option Time;
  NotBefore : option Time;
  IssuedAt : option Time
}.

(** The claims object carried by a token.  The three private claims
    are absent from refresh tokens. *)
Record Payload := {
  p_user_id : option UUID;
  p_email : option string;
  p_display_name : option string;
  p_registered : RegisteredClaims
}.

(** A token string, by its parse: either not three well-formed
    segments, or header algorithm, claims and signature. *)
Inductive Token :=
| Malformed (raw : string)
| Compact (alg : SigningMethod) (payload : Payload) (signature : string).

Inductive Error :=
| ErrTokenMalformed
| ErrTokenUnverifiable
| ErrTokenSignatureInvalid
| ErrTokenInvalidClaims
| ErrTokenExpired
| ErrTokenNotValidYet.

Definition Error_eqb (a b : Error) : bool :=
  match a, b with
  | ErrTokenMalformed, ErrTokenMalformed
  | ErrTokenUnverifiable, ErrTokenUnverifiable
  | ErrTokenSignatureInvalid, ErrTokenSignatureInvalid
  | ErrTokenInvalidClaims, ErrTokenInvalidClaims
  | ErrTokenExpired, ErrTokenExpired
  | ErrTokenNotValidYet, ErrTokenNotValidYet => true
  | _, _ => false
  end.

(** [errors.Is] on a wrapped and joined error, kept as the list of the
    sentinels it contains. *)
Definition Is (err : list Error) (target : Error) : bool :=
  existsb (Error_eqb target) err.

(** [Validator.Validate] with the default options: [exp] and [nbf] are
    checked when present, [iat] is not. *)
Definition Validate (c : RegisteredClaims) (now : Time) : list Error :=
  (match ExpiresAt c with
   | Some exp => if (now <? exp)%Z then [] else [ErrTokenExpired]
   | None => []
   end)
  ++
  (match NotBefore c with
   | Some nbf => if (now <? nbf)%Z then [ErrTokenNotValidYet] else []
   | None => []
   end).

Section Signing.
(** The MAC of the encoded header and claims under a key. *)
Variable hmac : SigningMethod -> string -> Payload -> string.

(** [NewWithClaims(method, claims).SignedString(key)]. *)
Definition SignedString (m : SigningMethod) (p : Payload) (key : string)
  : Token :=
  Compact m p (hmac m key p).

Definition Verify (m : SigningMethod) (p : Payload) (sig key : string)
  : bool :=
  is_HMAC m && String.eqb sig (hmac m key p).

(** [ParseWithClaims]: parse, ask [keyFunc] for the key, verify the
    signature, then validate the claims at time [now]. *)
Definition ParseWithClaims (tok : Token)
           (keyFunc : SigningMethod -> option string) (now : Time)
  : list Error + Payload :=
  match tok with
  | Malformed _ => inl [ErrTokenMalformed]
  | Compact m p sig =>
      match keyFunc m with
      | None => inl [ErrTokenUnverifiable]
      | Some key =>
          if negb (Verify m p sig key) then inl [ErrTokenSignatureInvalid]
          else match Validate (p_registered p) now with
               | [] => inr p
               | e :: errs => inl (ErrTokenInvalidClaims :: e :: errs)
               end
      end
  end.
End Signing.

End jwt.

Class Deps := {
  (** [uuid.Parse]. *)
  uuid_Parse : string -> option UUID;
  (** The [email] rule of go-playground/validator. *)
  validate_email : string -> bool;
  (** [bcrypt.GenerateFromPassword(password, cost)] with the given salt. *)
  bcrypt_GenerateFromPassword : string -> nat -> string -> option string;
  (** [bcrypt.CompareHashAndPassword(hash, password) == nil]. *)
  bcrypt_CompareHashAndPassword : string -> string -> bool;
  hmac : jwt.SigningMethod -> string -> jwt.Payload -> string
}.

(** What a single request draws from outside the program. *)
Record Env := {
  (** [fault k]: the [k]-th store call of the handler, in source order,
      fails in the driver. *)
  fault : nat -> bool;
  (** [now k]: the [k]-th reading of [time.Now()] among those that reach
      a column or a comparison of the model. *)
  now : nat -> Time;
  (** [uuid_New k]: the [k]-th [uuid.New] default. *)
  uuid_New : nat -> UUID;
  (** [rand_Read n]: [n] bytes from [crypto/rand], or an error. *)
  rand_Read : nat -> option (list N);
  bcrypt_salt : string
}.

(** The clock as seen after [k] readings. *)
Definition later (k : nat) (clock : nat -> Time) : nat -> Time :=
  fun i => clock (k + i)%nat.

(** [hex.EncodeToString]. *)
Definition hex_EncodeToString (bytes : list N) : string :=
  fold_right (fun b s => (hex_digits 2 b ++ s)%string) "" bytes.

(** ** Package auth: the JWT service and password hashing *)

Module auth.
Import jwt.

Inductive Error := ErrInvalidToken | ErrExpiredToken.

Record Claims := {
  UserID : UUID;
  Email : string;
  DisplayName : string;
  Registered : RegisteredClaims
}.

Record JWTService := {
  secretKey : string;
  accessExpiry : Z;
  refreshExpiry : Z
}.

(** [NewJWTService], given the value of [JWT_SECRET]. *)
Definition NewJWTService (JWT_SECRET : string) : JWTService :=
  let secret :=
    if String.eqb JWT_SECRET "" then "your-secret-key-change-in-production"
    else JWT_SECRET in
  {| secretKey := secret;
     accessExpiry := 15 * Minute;
     refreshExpiry := 7 * 24 * Hour |}.

Record TokenPair := {
  AccessToken : Token;
  RefreshToken : Token;
  ExpiresIn : Z
}.

Definition DefaultCost : nat := 12.

Section Service.
Context {deps : Deps}.
Variable s : JWTService.

Definition GenerateAccessToken (clock : nat -> Time) (userID : UUID)
           (email displayName : string) : Token :=
  let claims :=
    {| p_user_id := Some userID;
       p_email := Some email;
       p_display_name := Some displayName;
       p_registered :=
         {| ExpiresAt := Some (NewNumericDate (clock 0%nat + accessExpiry s)%Z);
            IssuedAt := Some (NewNumericDate (clock 1%nat));
            NotBefore := Some (NewNumericDate (clock 2%nat));
            Issuer := "team-todo";
            Subject := UUID_String userID |} |} in
  SignedString hmac HS256 claims (secretKey s).

Definition GenerateRefreshToken (clock : nat -> Time) (userID : UUID)
  : Token :=
  let claims :=
    {| p_user_id := None; p_email := None; p_display_name := None;
       p_registered :=
         {| ExpiresAt := Some (NewNumericDate (clock 0%nat + refreshExpiry s)%Z);
            IssuedAt := Some (NewNumericDate (clock 1%nat));
            NotBefore := Some (NewNumericDate (clock 2%nat));
            Issuer := "team-todo";
            Subject := UUID_String userID |} |} in
  SignedString hmac HS256 claims (secretKey s).

(** The key function both validators pass to the parser. *)
Definition keyFunc (m : SigningMethod) : option string :=
  if is_HMAC m then Some (secretKey s) else None.

(** Decoding the claims object into [*Claims]: an absent member
    leaves the zero value. *)
Definition decode_Claims (p : Payload) : Claims :=
  {| UserID := match p_user_id p with Some u => u | None => 0%N end;
     Email := match p_email p with Some e => e | None => "" end;
     DisplayName := match p_display_name p with Some d => d | None => "" end;
     Registered := p_registered p |}.

Definition ValidateAccessToken (tokenString : Token) (now : Time)
  : Error + Claims :=
  match ParseWithClaims hmac tokenString keyFunc now with
  | inl err =>
      if Is err ErrTokenExpired then inl ErrExpiredToken
      else inl ErrInvalidToken
  | inr p => inr (decode_Claims p)
  end.

Definition ValidateRefreshToken (tokenString : Token) (now : Time)
  : Error + UUID :=
  match ParseWithClaims hmac tokenString keyFunc now with
  | inl err =>
      if Is err ErrTokenExpired then inl ErrExpiredToken
      else inl ErrInvalidToken
  | inr p =>
      match uuid_Parse (Subject (p_registered p)) with
      | None => inl ErrInvalidToken
      | Some userID => inr userID
      end
  end.

Definition GenerateTokenPair (clock : nat -> Time) (userID : UUID)
           (email displayName : string) : TokenPair :=
  let accessToken := GenerateAccessToken clock userID email displayName in
  let refreshToken := GenerateRefreshToken (later 3 clock) userID in
  {| AccessToken := accessToken;
     RefreshToken := refreshToken;
     ExpiresIn := (accessExpiry s / Second)%Z |}.
End Service.

Definition HashPassword {deps : Deps} (salt password : string)
  : option string :=
  bcrypt_GenerateFromPassword password DefaultCost salt.

Definition CheckPassword {deps : Deps} (password hash : string) : bool :=
  bcrypt_CompareHashAndPassword hash password.

End auth.

(** ** Package handler *)

Definition StatusOK : nat := 200.
Definition StatusCreated : nat := 201.
Definition StatusNoContent : nat := 204.
Definition StatusBadRequest : nat := 400.
Definition StatusUnauthorized : nat := 401.
Definition StatusForbidden : nat := 403.
Definition StatusNotFound : nat := 404.
Definition StatusConflict : nat := 409.
Definition StatusInternalServerError : nat := 500.

(** What a handler hands back to echo.  [Panic] is a nil dereference,
    which the Recover middleware turns into a 500. *)
Inductive Response (A : Type) : Type :=
| JSON (code : nat) (body : A)
| NoContent (code : nat)
| HTTPError (code : nat) (message : string)
| Panic.
Arguments JSON {A} code body.
Arguments NoContent {A} code.
Arguments HTTPError {A} code message.
Arguments Panic {A}.

(** The status echo answers with. *)
Definition status {A} (r : Response A) : nat :=
  match r with
  | JSON c _ | NoContent c | HTTPError c _ => c
  | Panic => StatusInternalServerError
  end.

Definition succeeded {A} (r : Response A) : bool :=
  match r with
  | JSON _ _ | NoContent _ => true
  | HTTPError _ _ | Panic => false
  end.

(** *** permission.go *)

Definition HasAdminPermission (role : Role) : bool :=
  match role with RoleOwner | RoleAdmin => true | RoleMember => false end.

Definition IsOwner (role : Role) : bool :=
  match role with RoleOwner => true | _ => false end.

(** *** Response bodies *)

Record OrganizationResponse := {
  OrganizationResponse_ID : UUID;
  OrganizationResponse_Name : string;
  OrganizationResponse_Slug : string;
  OrganizationResponse_Role : string;
  OrganizationResponse_CreatedAt : Time
}.

Record InviteResponse := {
  InviteResponse_ID : UUID;
  InviteResponse_Email : string;
  InviteResponse_Role : string;
  InviteResponse_ExpiresAt : Time;
  InviteResponse_CreatedAt : Time
}.

Record InviteInfo := {
  organization_name : string;
  organization_slug : string;
  email : string;
  expires_at : Time
}.

Record ProjectResponse := {
  ProjectResponse_ID : UUID;
  ProjectResponse_Name : string;
  ProjectResponse_IsPrivate : bool;
  ProjectResponse_OrganizationID : UUID;
  ProjectResponse_Permission : string;
  ProjectResponse_CreatedAt : Time
}.

Record ProjectMemberResponse := {
  ProjectMemberResponse_UserID : UUID;
  ProjectMemberResponse_Email : string;
  ProjectMemberResponse_DisplayName : string;
  ProjectMemberResponse_Permission : string;
  ProjectMemberResponse_JoinedAt : Time
}.

Record ContextResponse := {
  HasContext : bool;
  ContextResponse_Organization : option OrganizationResponse;
  ContextResponse_Project : option ProjectResponse;
  RedirectURL : string
}.

Record UserResponse := {
  UserResponse_ID : UUID;
  UserResponse_Email : string;
  UserResponse_DisplayName : string;
  UserResponse_LastOrgID : option UUID;
  UserResponse_LastProjectID : option UUID;
  UserResponse_CreatedAt : Time
}.

Record AuthResponse := {
  AuthResponse_User : UserResponse;
  AuthResponse_AccessToken : jwt.Token;
  AuthResponse_RefreshToken : jwt.Token;
  AuthResponse_ExpiresIn : Z
}.

(** *** Request bodies; [None] at a handler stands for a body that
    [c.Bind] rejects. *)

Record RegisterRequest := {
  RegisterRequest_Email : string;
  RegisterRequest_Password : string;
  RegisterRequest_DisplayName : string
}.

Record LoginRequest := {
  LoginRequest_Email : string;
  LoginRequest_Password : string
}.

Record CreateOrganizationRequest := {
  CreateOrganizationRequest_Name : string;
  CreateOrganizationRequest_Slug : string
}.

Record InviteRequest := {
  InviteRequest_Email : string;
  InviteRequest_Role : string;
  InviteRequest_ProjectID : option string
}.

Record CreateProjectRequest := {
  CreateProjectRequest_Name : string;
  CreateProjectRequest_IsPrivate : bool
}.

Record AddProjectMemberRequest := {
  AddProjectMemberRequest_UserID : string;
  AddProjectMemberRequest_Permission : string
}.

Record UpdateContextRequest := {
  OrgID : option string;
  ProjectID : option string
}.

(** *** Setters of the user update builder *)

Definition SetLastOrgID (id : UUID) (u : User) : User :=
  {| user_id := user_id u; user_email := user_email u;
     user_password_hash := user_password_hash u;
     user_display_name := user_display_name u;
     user_last_org_id := Some id;
     user_last_project_id := user_last_project_id u;
     user_created_at := user_created_at u |}.

Definition SetLastProjectID (id : UUID) (u : User) : User :=
  {| user_id := user_id u; user_email := user_email u;
     user_password_hash := user_password_hash u;
     user_display_name := user_display_name u;
     user_last_org_id := user_last_org_id u;
     user_last_project_id := Some id;
     user_created_at := user_created_at u |}.

Definition ClearLastOrgID (u : User) : User :=
  {| user_id := user_id u; user_email := user_email u;
     user_password_hash := user_password_hash u;
     user_display_name := user_display_name u;
     user_last_org_id := None;
     user_last_project_id := user_last_project_id u;
     user_created_at := user_created_at u |}.

Definition ClearLastProjectID (u : User) : User :=
  {| user_id := user_id u; user_email := user_email u;
     user_password_hash := user_password_hash u;
     user_display_name := user_display_name u;
     user_last_org_id := user_last_org_id u;
     user_last_project_id := None;
     user_created_at := user_created_at u |}.

Definition SetDisplayName (name : string) (u : User) : User :=
  {| user_id := user_id u; user_email := user_email u;
     user_password_hash := user_password_hash u;
     user_display_name := name;
     user_last_org_id := user_last_org_id u;
     user_last_project_id := user_last_project_id u;
     user_created_at := user_created_at u |}.

Definition SetUsedAt (t : Time) (i : Invite) : Invite :=
  {| inv_id := inv_id i; inv_token := inv_token i; inv_email := inv_email i;
     inv_organization_id := inv_organization_id i;
     inv_project_id := inv_project_id i; inv_role := inv_role i;
     inv_invited_by_id := inv_invited_by_id i;
     inv_expires_at := inv_expires_at i;
     inv_used_at := Some t;
     inv_created_at := inv_created_at i |}.

(** *** Predicates of the [Where] clauses *)

Definition user_IDEQ (id : UUID) (u : User) : bool := N.eqb (user_id u) id.

Definition user_EmailEQ (e : string) (u : User) : bool :=
  String.eqb (user_email u) e.

Definition organization_IDEQ (id : UUID) (o : Organization) : bool :=
  N.eqb (org_id o) id.

Definition organization_SlugEQ (s : string) (o : Organization) : bool :=
  String.eqb (org_slug o) s.

(** [organizationmember.UserIDEQ(u), organizationmember.OrganizationIDEQ(o)]. *)
Definition organizationmember_EQ (u o : UUID) (m : OrganizationMember) : bool :=
  N.eqb (om_user_id m) u && N.eqb (om_organization_id m) o.

Definition organizationmember_UserIDEQ (u : UUID) (m : OrganizationMember)
  : bool :=
  N.eqb (om_user_id m) u.

Definition project_IDEQ (id : UUID) (p : Project) : bool := N.eqb (proj_id p) id.

Definition project_OrganizationIDEQ (o : UUID) (p : Project) : bool :=
  N.eqb (proj_organization_id p) o.

(** [projectmember.UserIDEQ(u), projectmember.ProjectIDEQ(p)]. *)
Definition projectmember_EQ (u p : UUID) (m : ProjectMember) : bool :=
  N.eqb (pm_user_id m) u && N.eqb (pm_project_id m) p.

Definition projectmember_UserIDEQ (u : UUID) (m : ProjectMember) : bool :=
  N.eqb (pm_user_id m) u.

(** [invite.TokenEQ(token), invite.UsedAtIsNil(), invite.ExpiresAtGT(t)]. *)
Definition invite_redeemable (token : string) (t : Time) (i : Invite) : bool :=
  String.eqb (inv_token i) token
  && match inv_used_at i with None => true | Some _ => false end
  && (t <? inv_expires_at i)%Z.

(** The organization an eager [WithOrganization()] load attaches to a
    row; [None] is a nil edge. *)
Definition Edges_Organization (db : DB) (id : UUID) : option Organization :=
  find (organization_IDEQ id) (organizations db).

(** An update whose error the handler drops ([_, _ = ...Save(ctx)]). *)
Definition save_users_ignoring_error (db : DB)
           (r : result (User * list User)) : DB :=
  match r with
  | Ok (_, us) => set_users db us
  | Err _ => db
  end.

Section Handlers.
Context {deps : Deps}.

Definition unauthorized {A} : Response A :=
  HTTPError StatusUnauthorized "unauthorized".

(** The prefix the slug-addressed handlers share: the organization by
    slug (store call 0), then the caller's membership (store call 1). *)
Definition org_and_membership {A} (e : Env) (userID : UUID) (slug : string)
           (db : DB) : Response A + Organization * OrganizationMember :=
  match Only (fault e 0)
             (filter (organization_SlugEQ slug) (organizations db)) with
  | Err err =>
      inl (if IsNotFound err
           then HTTPError StatusNotFound "organization not found"
           else HTTPError StatusInternalServerError
                          "failed to get organization")
  | Ok org =>
      match Only (fault e 1)
                 (filter (organizationmember_EQ userID (org_id org))
                         (organization_members db)) with
      | Err err =>
          inl (if IsNotFound err
               then HTTPError StatusForbidden
                              "you are not a member of this organization"
               else HTTPError StatusInternalServerError
                              "failed to check membership")
      | Ok membership => inr (org, membership)
      end
  end.

(** *** organization.go *)

(** [orgValidate.Struct(req)] with [formatValidationError]. *)
Definition validate_CreateOrganizationRequest
           (req : CreateOrganizationRequest) : option string :=
  if String.eqb (CreateOrganizationRequest_Name req) ""
  then Some "Name is required"
  else if String.eqb (CreateOrganizationRequest_Slug req) ""
  then Some "Slug is required"
  else None.

(** The name [CreateOrganization] gives the default project: six bytes
    of UTF-8. *)
Definition default_project_name : string := "全般".

Definition CreateOrganization (e : Env) (userID : option UUID)
           (req : option CreateOrganizationRequest) (db : DB)
  : DB * Response OrganizationResponse :=
  match userID with
  | None => (db, unauthorized)
  | Some userID =>
  match req with
  | None => (db, HTTPError StatusBadRequest "invalid request body")
  | Some req =>
  match validate_CreateOrganizationRequest req with
  | Some msg => (db, HTTPError StatusBadRequest msg)
  | None =>
  match Exist (fault e 0)
              (filter (organization_SlugEQ (CreateOrganizationRequest_Slug req))
                      (organizations db)) with
  | Err _ => (db, HTTPError StatusInternalServerError
                            "failed to check slug availability")
  | Ok true => (db, HTTPError StatusConflict "slug is already taken")
  | Ok false =>
  if fault e 1
  then (db, HTTPError StatusInternalServerError "failed to start transaction")
  else
  let org := {| org_id := uuid_New e 0;
                org_name := CreateOrganizationRequest_Name req;
                org_slug := CreateOrganizationRequest_Slug req;
                org_created_at := now e 0 |} in
  match Create (fault e 2) Organization_valid Organization_conflict org
               (organizations db) with
  | Err _ => (db, HTTPError StatusInternalServerError
                            "failed to create organization")
  | Ok orgs =>
  let tx := set_organizations db orgs in
  match Create (fault e 3) (fun _ => true) OrganizationMember_conflict
               {| om_user_id := userID;
                  om_organization_id := org_id org;
                  om_role := RoleOwner;
                  om_created_at := now e 1 |}
               (organization_members tx) with
  | Err _ => (db, HTTPError StatusInternalServerError
                            "failed to add owner to organization")
  | Ok members =>
  let tx := set_organization_members tx members in
  match Create (fault e 4) Project_valid Project_conflict
               {| proj_id := uuid_New e 1;
                  proj_organization_id := org_id org;
                  proj_name := default_project_name;
                  proj_is_private := false;
                  proj_created_at := now e 2 |}
               (projects tx) with
  | Err _ => (db, HTTPError StatusInternalServerError
                            "failed to create default project")
  | Ok projs =>
  let tx := set_projects tx projs in
  match UpdateOneID (fault e 5) user_id userID (SetLastOrgID (org_id org))
                    (users tx) with
  | Err _ => (db, HTTPError StatusInternalServerError
                            "failed to update user context")
  | Ok (_, us) =>
  let tx := set_users tx us in
  if fault e 6
  then (db, HTTPError StatusInternalServerError "failed to commit transaction")
  else
    (tx, JSON StatusCreated
              {| OrganizationResponse_ID := org_id org;
                 OrganizationResponse_Name := org_name org;
                 OrganizationResponse_Slug := org_slug org;
                 OrganizationResponse_Role := "owner";
                 OrganizationResponse_CreatedAt := org_created_at org |})
  end end end end end end end end.

(** The loop of [ListOrganizations]; a nil organization edge panics. *)
Fixpoint organization_responses (db : DB) (ms : list OrganizationMember)
  : option (list OrganizationResponse) :=
  match ms with
  | [] => Some []
  | m :: ms' =>
      match Edges_Organization db (om_organization_id m) with
      | None => None
      | Some o =>
          match organization_responses db ms' with
          | None => None
          | Some rs =>
              Some ({| OrganizationResponse_ID := org_id o;
                       OrganizationResponse_Name := org_name o;
                       OrganizationResponse_Slug := org_slug o;
                       OrganizationResponse_Role := Role_string (om_role m);
                       OrganizationResponse_CreatedAt := org_created_at o |}
                      :: rs)
          end
      end
  end.

Definition ListOrganizations (e : Env) (userID : option UUID) (db : DB)
  : DB * Response (list OrganizationResponse) :=
  match userID with
  | None => (db, unauthorized)
  | Some userID =>
  match All (fault e 0)
            (filter (organizationmember_UserIDEQ userID)
                    (organization_members db)) with
  | Err _ => (db, HTTPError StatusInternalServerError
                            "failed to list organizations")
  | Ok memberships =>
      match organization_responses db memberships with
      | None => (db, Panic)
      | Some orgs => (db, JSON StatusOK orgs)
      end
  end end.

Definition GetOrganization (e : Env) (userID : option UUID) (slug : string)
           (db : DB) : DB * Response OrganizationResponse :=
  match userID with
  | None => (db, unauthorized)
  | Some userID =>
  if String.eqb slug ""
  then (db, HTTPError StatusBadRequest "slug is required")
  else
  match org_and_membership e userID slug db with
  | inl resp => (db, resp)
  | inr (org, membership) =>
      (save_users_ignoring_error db
         (UpdateOneID (fault e 2) user_id userID (SetLastOrgID (org_id org))
                      (users db)),
       JSON StatusOK
            {| OrganizationResponse_ID := org_id org;
               OrganizationResponse_Name := org_name org;
               OrganizationResponse_Slug := org_slug org;
               OrganizationResponse_Role := Role_string (om_role membership);
               OrganizationResponse_CreatedAt := org_created_at org |})
  end end.

Definition validate_InviteRequest (req : InviteRequest) : option string :=
  if String.eqb (InviteRequest_Email req) "" then Some "Email is required"
  else if negb (validate_email (InviteRequest_Email req))
  then Some "Email must be a valid email address"
  else if String.eqb (InviteRequest_Role req) "" then Some "Role is required"
  else if negb (String.eqb (InviteRequest_Role req) "admin"
                || String.eqb (InviteRequest_Role req) "member")
  then Some "Role is invalid"
  else None.

(** The inviter's name, fetched after the insert for the e-mail only,
    does not reach the response. *)
Definition InviteMember (e : Env) (userID : option UUID) (slug : string)
           (req : option InviteRequest) (db : DB)
  : DB * Response InviteResponse :=
  match userID with
  | None => (db, unauthorized)
  | Some userID =>
  if String.eqb slug ""
  then (db, HTTPError StatusBadRequest "slug is required")
  else
  match req with
  | None => (db, HTTPError StatusBadRequest "invalid request body")
  | Some req =>
  match validate_InviteRequest req with
  | Some msg => (db, HTTPError StatusBadRequest msg)
  | None =>
  match org_and_membership e userID slug db with
  | inl resp => (db, resp)
  | inr (org, membership) =>
  if negb (HasAdminPermission (om_role membership))
  then (db, HTTPError StatusForbidden
                      "only owners and admins can invite members")
  else
  match rand_Read e 32 with
  | None => (db, HTTPError StatusInternalServerError
                           "failed to generate invite token")
  | Some tokenBytes =>
  let token := hex_EncodeToString tokenBytes in
  let role := if String.eqb (InviteRequest_Role req) "admin"
              then InviteRoleAdmin else InviteRoleMember in
  let inv := {| inv_id := uuid_New e 0;
                inv_token := token;
                inv_email := InviteRequest_Email req;
                inv_organization_id := org_id org;
                inv_project_id := None;
                inv_role := role;
                inv_invited_by_id := userID;
                inv_expires_at := (now e 0 + 7 * 24 * Hour)%Z;
                inv_used_at := None;
                inv_created_at := now e 1 |} in
  match Create (fault e 2) Invite_valid Invite_conflict inv (invites db) with
  | Err _ => (db, HTTPError StatusInternalServerError
                            "failed to create invite")
  | Ok invs =>
      (set_invites db invs,
       JSON StatusCreated
            {| InviteResponse_ID := inv_id inv;
               InviteResponse_Email := inv_email inv;
               InviteResponse_Role := InviteRole_string (inv_role inv);
               InviteResponse_ExpiresAt := inv_expires_at inv;
               InviteResponse_CreatedAt := inv_created_at inv |})
  end end end end end end.

Definition AcceptInvite (e : Env) (userID : option UUID) (token : string)
           (db : DB) : DB * Response OrganizationResponse :=
  match userID with
  | None => (db, unauthorized)
  | Some userID =>
  if String.eqb token ""
  then (db, HTTPError StatusBadRequest "token is required")
  else
  match Only (fault e 0)
             (filter (invite_redeemable token (now e 0)) (invites db)) with
  | Err err =>
      (db, if IsNotFound err
           then HTTPError StatusNotFound "invite not found or expired"
           else HTTPError StatusInternalServerError "failed to get invite")
  | Ok inv =>
  match Exist (fault e 1)
              (filter (organizationmember_EQ userID (inv_organization_id inv))
                      (organization_members db)) with
  | Err _ => (db, HTTPError StatusInternalServerError
                            "failed to check membership")
  | Ok true => (db, HTTPError StatusConflict
                              "you are already a member of this organization")
  | Ok false =>
  if fault e 2
  then (db, HTTPError StatusInternalServerError "failed to start transaction")
  else
  let role := match inv_role inv with
              | InviteRoleAdmin => RoleAdmin
              | _ => RoleMember
              end in
  match Create (fault e 3) (fun _ => true) OrganizationMember_conflict
               {| om_user_id := userID;
                  om_organization_id := inv_organization_id inv;
                  om_role := role;
                  om_created_at := now e 1 |}
               (organization_members db) with
  | Err _ => (db, HTTPError StatusInternalServerError "failed to add member")
  | Ok members =>
  let tx := set_organization_members db members in
  match UpdateOneID (fault e 4) inv_id (inv_id inv) (SetUsedAt (now e 2))
                    (invites tx) with
  | Err _ => (db, HTTPError StatusInternalServerError
                            "failed to update invite")
  | Ok (_, invs) =>
  let tx := set_invites tx invs in
  match UpdateOneID (fault e 5) user_id userID
                    (SetLastOrgID (inv_organization_id inv)) (users tx) with
  | Err _ => (db, HTTPError StatusInternalServerError
                            "failed to update user context")
  | Ok (_, us) =>
  let tx := set_users tx us in
  if fault e 6
  then (db, HTTPError StatusInternalServerError "failed to commit transaction")
  else
    match Edges_Organization db (inv_organization_id inv) with
    | None => (tx, Panic)
    | Some o =>
        (tx, JSON StatusOK
                  {| OrganizationResponse_ID := org_id o;
                     OrganizationResponse_Name := org_name o;
                     OrganizationResponse_Slug := org_slug o;
                     OrganizationResponse_Role := Role_string role;
                     OrganizationResponse_CreatedAt := org_created_at o |})
    end
  end end end end end end.

(** [AcceptInvite] in the two phases of its source: the reads, made on
    the client before the transaction is opened, and the transaction,
    which runs on the store as it is by then.  The sequential handler
    above is the second phase run on the store the first one read. *)
Definition AcceptInvite_reads (e : Env) (userID : UUID) (token : string)
           (db : DB) : Response OrganizationResponse + Invite :=
  if String.eqb token ""
  then inl (HTTPError StatusBadRequest "token is required")
  else
  match Only (fault e 0)
             (filter (invite_redeemable token (now e 0)) (invites db)) with
  | Err err =>
      inl (if IsNotFound err
           then HTTPError StatusNotFound "invite not found or expired"
           else HTTPError StatusInternalServerError "failed to get invite")
  | Ok inv =>
  match Exist (fault e 1)
              (filter (organizationmember_EQ userID (inv_organization_id inv))
                      (organization_members db)) with
  | Err _ => inl (HTTPError StatusInternalServerError
                            "failed to check membership")
  | Ok true => inl (HTTPError StatusConflict
                              "you are already a member of this organization")
  | Ok false => inr inv
  end end.

Definition AcceptInvite_transaction (e : Env) (userID : UUID) (inv : Invite)
           (edge : option Organization) (db : DB)
  : DB * Response OrganizationResponse :=
  if fault e 2
  then (db, HTTPError StatusInternalServerError "failed to start transaction")
  else
  let role := match inv_role inv with
              | InviteRoleAdmin => RoleAdmin
              | _ => RoleMember
              end in
  match Create (fault e 3) (fun _ => true) OrganizationMember_conflict
               {| om_user_id := userID;
                  om_organization_id := inv_organization_id inv;
                  om_role := role;
                  om_created_at := now e 1 |}
               (organization_members db) with
  | Err _ => (db, HTTPError StatusInternalServerError "failed to add member")
  | Ok members =>
  let tx := set_organization_members db members in
  match UpdateOneID (fault e 4) inv_id (inv_id inv) (SetUsedAt (now e 2))
                    (invites tx) with
  | Err _ => (db, HTTPError StatusInternalServerError
                            "failed to update invite")
  | Ok (_, invs) =>
  let tx := set_invites tx invs in
  match UpdateOneID (fault e 5) user_id userID
                    (SetLastOrgID (inv_organization_id inv)) (users tx) with
  | Err _ => (db, HTTPError StatusInternalServerError
                            "failed to update user context")
  | Ok (_, us) =>
  let tx := set_users tx us in
  if fault e 6
  then (db, HTTPError StatusInternalServerError "failed to commit transaction")
  else
    match edge with
    | None => (tx, Panic)
    | Some o =>
        (tx, JSON StatusOK
                  {| OrganizationResponse_ID := org_id o;
                     OrganizationResponse_Name := org_name o;
                     OrganizationResponse_Slug := org_slug o;
                     OrganizationResponse_Role := Role_string role;
                     OrganizationResponse_CreatedAt := org_created_at o |})
    end
  end end end.

Definition GetInviteInfo (e : Env) (token : string) (db : DB)
  : DB * Response InviteInfo :=
  if String.eqb token ""
  then (db, HTTPError StatusBadRequest "token is required")
  else
  match Only (fault e 0)
             (filter (invite_redeemable token (now e 0)) (invites db)) with
  | Err err =>
      (db, if IsNotFound err
           then HTTPError StatusNotFound "invite not found or expired"
           else HTTPError StatusInternalServerError "failed to get invite")
  | Ok inv =>
      match Edges_Organization db (inv_organization_id inv) with
      | None => (db, Panic)
      | Some o =>
          (db, JSON StatusOK
                    {| organization_name := org_name o;
                       organization_slug := org_slug o;
                       email := inv_email inv;
                       expires_at := inv_expires_at inv |})
      end
  end.

(** *** project.go *)

Definition CreateProject (e : Env) (userID : option UUID) (slug : string)
           (req : option CreateProjectRequest) (db : DB)
  : DB * Response ProjectResponse :=
  match userID with
  | None => (db, unauthorized)
  | Some userID =>
  if String.eqb slug ""
  then (db, HTTPError StatusBadRequest "organization slug is required")
  else
  match req with
  | None => (db, HTTPError StatusBadRequest "invalid request body")
  | Some req =>
  if String.eqb (CreateProjectRequest_Name req) ""
  then (db, HTTPError StatusBadRequest "name is required")
  else
  match org_and_membership e userID slug db with
  | inl resp => (db, resp)
  | inr (org, membership) =>
  if negb (HasAdminPermission (om_role membership))
  then (db, HTTPError StatusForbidden
                      "only owners and admins can create projects")
  else
  if fault e 2
  then (db, HTTPError StatusInternalServerError "failed to start transaction")
  else
  let proj := {| proj_id := uuid_New e 0;
                 proj_organization_id := org_id org;
                 proj_name := CreateProjectRequest_Name req;
                 proj_is_private := CreateProjectRequest_IsPrivate req;
                 proj_created_at := now e 0 |} in
  match Create (fault e 3) Project_valid Project_conflict proj (projects db)
  with
  | Err _ => (db, HTTPError StatusInternalServerError
                            "failed to create project")
  | Ok projs =>
  let tx := set_projects db projs in
  match (if CreateProjectRequest_IsPrivate req
         then Create (fault e 4) (fun _ => true) ProjectMember_conflict
                     {| pm_user_id := userID;
                        pm_project_id := proj_id proj;
                        pm_permission := PermissionEdit;
                        pm_created_at := now e 1 |}
                     (project_members tx)
         else Ok (project_members tx)) with
  | Err _ => (db, HTTPError StatusInternalServerError
                            "failed to add project member")
  | Ok pms =>
  let tx := set_project_members tx pms in
  match UpdateOneID (fault e 5) user_id userID
                    (SetLastProjectID (proj_id proj)) (users tx) with
  | Err _ => (db, HTTPError StatusInternalServerError
                            "failed to update user context")
  | Ok (_, us) =>
  let tx := set_users tx us in
  if fault e 6
  then (db, HTTPError StatusInternalServerError "failed to commit transaction")
  else
    (tx, JSON StatusCreated
              {| ProjectResponse_ID := proj_id proj;
                 ProjectResponse_Name := proj_name proj;
                 ProjectResponse_IsPrivate := proj_is_private proj;
                 ProjectResponse_OrganizationID := proj_organization_id proj;
                 ProjectResponse_Permission := "edit";
                 ProjectResponse_CreatedAt := proj_created_at proj |})
  end end end end end end.

(** [Order(ent.Asc(project.FieldCreatedAt))]: a stable insertion sort. *)
Fixpoint insert_by_created_at (p : Project) (l : list Project)
  : list Project :=
  match l with
  | [] => [p]
  | q :: l' =>
      if (proj_created_at p <? proj_created_at q)%Z then p :: q :: l'
      else q :: insert_by_created_at p l'
  end.

Definition Order_Asc_created_at (l : list Project) : list Project :=
  fold_left (fun acc p => insert_by_created_at p acc) l [].

(** The Go map [membershipMap], filled row by row. *)
Definition membershipMap (pms : list ProjectMember) : UUID -> option string :=
  fold_left
    (fun m pm k =>
       if N.eqb k (pm_project_id pm)
       then Some (Permission_string (pm_permission pm))
       else m k)
    pms (fun _ => None).

Definition project_response (p : Project) (permission : string)
  : ProjectResponse :=
  {| ProjectResponse_ID := proj_id p;
     ProjectResponse_Name := proj_name p;
     ProjectResponse_IsPrivate := proj_is_private p;
     ProjectResponse_OrganizationID := proj_organization_id p;
     ProjectResponse_Permission := permission;
     ProjectResponse_CreatedAt := proj_created_at p |}.

(** One turn of the filtering loop of [ListProjects]: what it appends. *)
Definition list_entry (m : UUID -> option string) (p : Project)
  : list ProjectResponse :=
  if proj_is_private p
  then match m (proj_id p) with
       | Some perm => [project_response p perm]
       | None => []
       end
  else
    let perm := match m (proj_id p) with Some mp => mp | None => "view" end in
    [project_response p perm].

Definition ListProjects (e : Env) (userID : option UUID) (slug : string)
           (db : DB) : DB * Response (list ProjectResponse) :=
  match userID with
  | None => (db, unauthorized)
  | Some userID =>
  if String.eqb slug ""
  then (db, HTTPError StatusBadRequest "organization slug is required")
  else
  match org_and_membership e userID slug db with
  | inl resp => (db, resp)
  | inr (org, _) =>
  match All (fault e 2)
            (Order_Asc_created_at
               (filter (project_OrganizationIDEQ (org_id org)) (projects db)))
  with
  | Err _ => (db, HTTPError StatusInternalServerError "failed to list projects")
  | Ok projs =>
  match All (fault e 3)
            (filter (projectmember_UserIDEQ userID) (project_members db)) with
  | Err _ => (db, HTTPError StatusInternalServerError
                            "failed to get project memberships")
  | Ok projectMemberships =>
      (db, JSON StatusOK
                (flat_map (list_entry (membershipMap projectMemberships))
                          projs))
  end end end end.

Definition GetProject (e : Env) (userID : option UUID)
           (slug projectIDStr : string) (db : DB)
  : DB * Response ProjectResponse :=
  match userID with
  | None => (db, unauthorized)
  | Some userID =>
  if String.eqb slug "" || String.eqb projectIDStr ""
  then (db, HTTPError StatusBadRequest
                      "organization slug and project_id are required")
  else
  match uuid_Parse projectIDStr with
  | None => (db, HTTPError StatusBadRequest "invalid project_id format")
  | Some projectID =>
  match org_and_membership e userID slug db with
  | inl resp => (db, resp)
  | inr (org, _) =>
  match Only (fault e 2)
             (filter (fun p => project_IDEQ projectID p
                               && project_OrganizationIDEQ (org_id org) p)
                     (projects db)) with
  | Err err =>
      (db, if IsNotFound err
           then HTTPError StatusNotFound "project not found"
           else HTTPError StatusInternalServerError "failed to get project")
  | Ok proj =>
  let explicit k :=
    Only (fault e k)
         (filter (projectmember_EQ userID (proj_id proj))
                 (project_members db)) in
  match (if proj_is_private proj
         then match explicit 3%nat with
              | Err err =>
                  inl (if IsNotFound err
                       then HTTPError StatusForbidden
                                      "you do not have access to this project"
                       else HTTPError StatusInternalServerError
                                      "failed to check project membership")
              | Ok pm => inr (Permission_string (pm_permission pm))
              end
         else match explicit 4%nat with
              | Ok pm => inr (Permission_string (pm_permission pm))
              | Err _ => inr "view"
              end) with
  | inl resp => (db, resp)
  | inr permission =>
      (save_users_ignoring_error db
         (UpdateOneID (fault e 5) user_id userID
                      (fun u => SetLastOrgID (org_id org)
                                  (SetLastProjectID (proj_id proj) u))
                      (users db)),
       JSON StatusOK (project_response proj permission))
  end end end end end.

Definition AddProjectMember (e : Env) (userID : option UUID)
           (slug projectIDStr : string)
           (req : option AddProjectMemberRequest) (db : DB)
  : DB * Response ProjectMemberResponse :=
  match userID with
  | None => (db, unauthorized)
  | Some userID =>
  if String.eqb slug "" || String.eqb projectIDStr ""
  then (db, HTTPError StatusBadRequest
                      "organization slug and project_id are required")
  else
  match uuid_Parse projectIDStr with
  | None => (db, HTTPError StatusBadRequest "invalid project_id format")
  | Some projectID =>
  match req with
  | None => (db, HTTPError StatusBadRequest "invalid request body")
  | Some req =>
  match uuid_Parse (AddProjectMemberRequest_UserID req) with
  | None => (db, HTTPError StatusBadRequest "invalid user_id format")
  | Some targetUserID =>
  match org_and_membership e userID slug db with
  | inl resp => (db, resp)
  | inr (org, membership) =>
  if negb (HasAdminPermission (om_role membership))
  then (db, HTTPError StatusForbidden
                      "only owners and admins can manage project members")
  else
  match Only (fault e 2)
             (filter (organizationmember_EQ targetUserID (org_id org))
                     (organization_members db)) with
  | Err err =>
      (db, if IsNotFound err
           then HTTPError StatusBadRequest
                          "target user is not a member of this organization"
           else HTTPError StatusInternalServerError
                          "failed to check target user membership")
  | Ok _ =>
  match Only (fault e 3)
             (filter (fun p => project_IDEQ projectID p
                               && project_OrganizationIDEQ (org_id org) p)
                     (projects db)) with
  | Err err =>
      (db, if IsNotFound err
           then HTTPError StatusNotFound "project not found"
           else HTTPError StatusInternalServerError "failed to get project")
  | Ok proj =>
  match Exist (fault e 4)
              (filter (projectmember_EQ targetUserID (proj_id proj))
                      (project_members db)) with
  | Err _ => (db, HTTPError StatusInternalServerError
                            "failed to check existing membership")
  | Ok true => (db, HTTPError StatusConflict
                              "user is already a member of this project")
  | Ok false =>
  let permission :=
    if String.eqb (AddProjectMemberRequest_Permission req) "edit"
    then PermissionEdit else PermissionView in
  let pm := {| pm_user_id := targetUserID;
               pm_project_id := proj_id proj;
               pm_permission := permission;
               pm_created_at := now e 0 |} in
  match Create (fault e 5) (fun _ => true) ProjectMember_conflict pm
               (project_members db) with
  | Err _ => (db, HTTPError StatusInternalServerError
                            "failed to add project member")
  | Ok pms =>
  let db' := set_project_members db pms in
  match Only (fault e 6) (filter (user_IDEQ targetUserID) (users db')) with
  | Err _ => (db', Panic)
  | Ok targetUser =>
      (db', JSON StatusCreated
                 {| ProjectMemberResponse_UserID := targetUserID;
                    ProjectMemberResponse_Email := user_email targetUser;
                    ProjectMemberResponse_DisplayName :=
                      user_display_name targetUser;
                    ProjectMemberResponse_Permission :=
                      Permission_string (pm_permission pm);
                    ProjectMemberResponse_JoinedAt := pm_created_at pm |})
  end end end end end end end end end end.

(** *** context.go *)

Definition no_context (redirect : string) : ContextResponse :=
  {| HasContext := false;
     ContextResponse_Organization := None;
     ContextResponse_Project := None;
     RedirectURL := redirect |}.

Definition clear_context (fault : bool) (userID : UUID) (db : DB) : DB :=
  save_users_ignoring_error db
    (UpdateOneID fault user_id userID
                 (fun u => ClearLastProjectID (ClearLastOrgID u)) (users db)).

Definition GetCurrentContext (e : Env) (userID : option UUID) (db : DB)
  : DB * Response ContextResponse :=
  match userID with
  | None => (db, unauthorized)
  | Some userID =>
  match Only (fault e 0) (filter (user_IDEQ userID) (users db)) with
  | Err err =>
      (db, if IsNotFound err
           then HTTPError StatusNotFound "user not found"
           else HTTPError StatusInternalServerError "failed to get user")
  | Ok user =>
  match user_last_org_id user with
  | None =>
      match All (fault e 1)
                (filter (organizationmember_UserIDEQ userID)
                        (organization_members db)) with
      | Err _ => (db, HTTPError StatusInternalServerError
                                "failed to get memberships")
      | Ok [] => (db, JSON StatusOK (no_context "/org/new"))
      | Ok (m :: _) =>
          match Edges_Organization db (om_organization_id m) with
          | None => (db, Panic)
          | Some org =>
              (db, JSON StatusOK (no_context ("/org/" ++ org_slug org)))
          end
      end
  | Some lastOrgID =>
  match Only (fault e 2) (filter (organization_IDEQ lastOrgID)
                                 (organizations db)) with
  | Err err =>
      if IsNotFound err
      then (clear_context (fault e 3) userID db,
            JSON StatusOK (no_context "/org/new"))
      else (db, HTTPError StatusInternalServerError
                          "failed to get organization")
  | Ok org =>
  match Only (fault e 4)
             (filter (organizationmember_EQ userID (org_id org))
                     (organization_members db)) with
  | Err err =>
      if IsNotFound err
      then (clear_context (fault e 5) userID db,
            JSON StatusOK (no_context "/org/new"))
      else (db, HTTPError StatusInternalServerError
                          "failed to check membership")
  | Ok membership =>
  let organization :=
    {| OrganizationResponse_ID := org_id org;
       OrganizationResponse_Name := org_name org;
       OrganizationResponse_Slug := org_slug org;
       OrganizationResponse_Role := Role_string (om_role membership);
       OrganizationResponse_CreatedAt := org_created_at org |} in
  let response :=
    {| HasContext := true;
       ContextResponse_Organization := Some organization;
       ContextResponse_Project := None;
       RedirectURL := "/org/" ++ org_slug org |} in
  match user_last_project_id user with
  | None => (db, JSON StatusOK response)
  | Some lastProjectID =>
  match Only (fault e 6)
             (filter (fun p => project_IDEQ lastProjectID p
                               && project_OrganizationIDEQ (org_id org) p)
                     (projects db)) with
  | Err _ => (db, JSON StatusOK response)
  | Ok proj =>
  let explicit k :=
    Only (fault e k)
         (filter (projectmember_EQ userID (proj_id proj))
                 (project_members db)) in
  let '(hasAccess, permission) :=
    if proj_is_private proj
    then match explicit 7%nat with
         | Ok pm => (true, Permission_string (pm_permission pm))
         | Err _ => (false, "view")
         end
    else match explicit 8%nat with
         | Ok pm => (true, Permission_string (pm_permission pm))
         | Err _ => (true, "view")
         end in
  if hasAccess
  then (db, JSON StatusOK
                 {| HasContext := true;
                    ContextResponse_Organization := Some organization;
                    ContextResponse_Project :=
                      Some (project_response proj permission);
                    RedirectURL :=
                      "/org/" ++ org_slug org ++ "/projects/"
                      ++ UUID_String (proj_id proj) |})
  else (db, JSON StatusOK response)
  end end end end end end end.

(** The [if req.OrgID != nil] block of [UpdateContext]: an early
    response, or the builder with the organization recorded. *)
Definition UpdateContext_org (e : Env) (userID : UUID) (orgID : option string)
           (db : DB) (update : User -> User)
  : Response unit + (User -> User) :=
  match orgID with
  | None => inr update
  | Some s =>
      match uuid_Parse s with
      | None => inl (HTTPError StatusBadRequest "invalid org_id format")
      | Some orgID =>
          match Exist (fault e 0)
                      (filter (organizationmember_EQ userID orgID)
                              (organization_members db)) with
          | Err _ => inl (HTTPError StatusInternalServerError
                                    "failed to verify membership")
          | Ok false =>
              inl (HTTPError StatusForbidden
                             "you are not a member of this organization")
          | Ok true => inr (fun u => SetLastOrgID orgID (update u))
          end
      end
  end.

(** The [if req.ProjectID != nil] block. *)
Definition UpdateContext_project (e : Env) (userID : UUID)
           (projectID : option string) (db : DB) (update : User -> User)
  : Response unit + (User -> User) :=
  match projectID with
  | None => inr update
  | Some s =>
  match uuid_Parse s with
  | None => inl (HTTPError StatusBadRequest "invalid project_id format")
  | Some projectID =>
  match Only (fault e 1) (filter (project_IDEQ projectID) (projects db)) with
  | Err err =>
      inl (if IsNotFound err
           then HTTPError StatusNotFound "project not found"
           else HTTPError StatusInternalServerError "failed to get project")
  | Ok proj =>
  match Exist (fault e 2)
              (filter (organizationmember_EQ userID (proj_organization_id proj))
                      (organization_members db)) with
  | Err _ => inl (HTTPError StatusInternalServerError
                            "failed to verify membership")
  | Ok false => inl (HTTPError StatusForbidden
                               "you are not a member of this organization")
  | Ok true =>
  match (if proj_is_private proj
         then Exist (fault e 3)
                    (filter (projectmember_EQ userID projectID)
                            (project_members db))
         else Ok true) with
  | Err _ => inl (HTTPError StatusInternalServerError
                            "failed to verify project access")
  | Ok false => inl (HTTPError StatusForbidden
                               "you do not have access to this project")
  | Ok true =>
      inr (fun u => SetLastOrgID (proj_organization_id proj)
                      (SetLastProjectID projectID (update u)))
  end end end end end.

Definition UpdateContext (e : Env) (userID : option UUID)
           (req : option UpdateContextRequest) (db : DB)
  : DB * Response unit :=
  match userID with
  | None => (db, unauthorized)
  | Some userID =>
  match req with
  | None => (db, HTTPError StatusBadRequest "invalid request body")
  | Some req =>
  match UpdateContext_org e userID (OrgID req) db (fun u => u) with
  | inl resp => (db, resp)
  | inr update =>
  match UpdateContext_project e userID (ProjectID req) db update with
  | inl resp => (db, resp)
  | inr update =>
  match UpdateOneID (fault e 4) user_id userID update (users db) with
  | Err _ => (db, HTTPError StatusInternalServerError
                            "failed to update context")
  | Ok (_, us) => (set_users db us, NoContent StatusNoContent)
  end end end end end.

(** *** auth.go *)

Variable jwtService : auth.JWTService.

Definition is_continuation_byte (c : ascii) : bool :=
  let n := nat_of_ascii c in ((128 <=? n) && (n <=? 191))%nat.

(** [utf8.RuneCountInString] on well-formed UTF-8, which a bound JSON
    body is: the bytes that start a rune. *)
Fixpoint RuneCountInString (s : string) : nat :=
  match s with
  | "" => 0
  | String c s' =>
      ((if is_continuation_byte c then 0 else 1) + RuneCountInString s')%nat
  end.

Definition validate_RegisterRequest (req : RegisterRequest) : option string :=
  if String.eqb (RegisterRequest_Email req) "" then Some "Email is required"
  else if negb (validate_email (RegisterRequest_Email req))
  then Some "Email must be a valid email address"
  else if String.eqb (RegisterRequest_Password req) ""
  then Some "Password is required"
  else if (RuneCountInString (RegisterRequest_Password req) <? 8)%nat
  then Some "Password must be at least 8 characters"
  else if String.eqb (RegisterRequest_DisplayName req) ""
  then Some "DisplayName is required"
  else if (100 <? RuneCountInString (RegisterRequest_DisplayName req))%nat
  then Some "DisplayName must be at most 100 characters"
  else None.

Definition validate_LoginRequest (req : LoginRequest) : option string :=
  if String.eqb (LoginRequest_Email req) "" then Some "Email is required"
  else if negb (validate_email (LoginRequest_Email req))
  then Some "Email must be a valid email address"
  else if String.eqb (LoginRequest_Password req) ""
  then Some "Password is required"
  else None.

Definition user_response (u : User) : UserResponse :=
  {| UserResponse_ID := user_id u;
     UserResponse_Email := user_email u;
     UserResponse_DisplayName := user_display_name u;
     UserResponse_LastOrgID := user_last_org_id u;
     UserResponse_LastProjectID := user_last_project_id u;
     UserResponse_CreatedAt := user_created_at u |}.

Definition auth_response (u : UserResponse) (tokens : auth.TokenPair)
  : AuthResponse :=
  {| AuthResponse_User := u;
     AuthResponse_AccessToken := auth.AccessToken tokens;
     AuthResponse_RefreshToken := auth.RefreshToken tokens;
     AuthResponse_ExpiresIn := auth.ExpiresIn tokens |}.

(** Signing with an HMAC method and a byte-slice key cannot fail, so
    the "failed to generate tokens" returns are not reachable. *)
Definition Register (e : Env) (req : option RegisterRequest) (db : DB)
  : DB * Response AuthResponse :=
  match req with
  | None => (db, HTTPError StatusBadRequest "invalid request body")
  | Some req =>
  match validate_RegisterRequest req with
  | Some msg => (db, HTTPError StatusBadRequest msg)
  | None =>
  match Exist (fault e 0)
              (filter (user_EmailEQ (RegisterRequest_Email req)) (users db))
  with
  | Err _ => (db, HTTPError StatusInternalServerError
                            "failed to check user existence")
  | Ok true => (db, HTTPError StatusConflict
                              "user with this email already exists")
  | Ok false =>
  match auth.HashPassword (bcrypt_salt e) (RegisterRequest_Password req) with
  | None => (db, HTTPError StatusInternalServerError
                           "failed to hash password")
  | Some passwordHash =>
  let u := {| user_id := uuid_New e 0;
              user_email := RegisterRequest_Email req;
              user_password_hash := passwordHash;
              user_display_name := RegisterRequest_DisplayName req;
              user_last_org_id := None;
              user_last_project_id := None;
              user_created_at := now e 0 |} in
  match Create (fault e 1) User_valid User_conflict u (users db) with
  | Err _ => (db, HTTPError StatusInternalServerError "failed to create user")
  | Ok us =>
      let tokens :=
        auth.GenerateTokenPair jwtService (later 1 (now e)) (user_id u)
                               (user_email u) (user_display_name u) in
      (set_users db us,
       JSON StatusCreated
            (auth_response
               {| UserResponse_ID := user_id u;
                  UserResponse_Email := user_email u;
                  UserResponse_DisplayName := user_display_name u;
                  UserResponse_LastOrgID := None;
                  UserResponse_LastProjectID := None;
                  UserResponse_CreatedAt := user_created_at u |}
               tokens))
  end end end end end.

Definition Login (e : Env) (req : option LoginRequest) (db : DB)
  : DB * Response AuthResponse :=
  match req with
  | None => (db, HTTPError StatusBadRequest "invalid request body")
  | Some req =>
  match validate_LoginRequest req with
  | Some msg => (db, HTTPError StatusBadRequest msg)
  | None =>
  match Only (fault e 0)
             (filter (user_EmailEQ (LoginRequest_Email req)) (users db)) with
  | Err err =>
      (db, if IsNotFound err
           then HTTPError StatusUnauthorized "invalid email or password"
           else HTTPError StatusInternalServerError "failed to find user")
  | Ok u =>
  if negb (auth.CheckPassword (LoginRequest_Password req)
                              (user_password_hash u))
  then (db, HTTPError StatusUnauthorized "invalid email or password")
  else
    let tokens :=
      auth.GenerateTokenPair jwtService (now e) (user_id u) (user_email u)
                             (user_display_name u) in
    (db, JSON StatusOK (auth_response (user_response u) tokens))
  end end end.

(** The refresh token of a [RefreshRequest]; [None] is a rejected body. *)
Definition RefreshToken (e : Env) (req : option jwt.Token) (db : DB)
  : DB * Response AuthResponse :=
  match req with
  | None => (db, HTTPError StatusBadRequest "invalid request body")
  | Some (jwt.Malformed "") =>
      (db, HTTPError StatusBadRequest "RefreshToken is required")
  | Some refreshToken =>
  match auth.ValidateRefreshToken jwtService refreshToken (now e 0) with
  | inl _ => (db, HTTPError StatusUnauthorized
                            "invalid or expired refresh token")
  | inr userID =>
  match Only (fault e 0) (filter (user_IDEQ userID) (users db)) with
  | Err err =>
      (db, if IsNotFound err
           then HTTPError StatusUnauthorized "user not found"
           else HTTPError StatusInternalServerError "failed to find user")
  | Ok u =>
      let tokens :=
        auth.GenerateTokenPair jwtService (later 1 (now e)) (user_id u)
                               (user_email u) (user_display_name u) in
      (db, JSON StatusOK (auth_response (user_response u) tokens))
  end end end.

Definition GetMe (e : Env) (userID : option UUID) (db : DB)
  : DB * Response UserResponse :=
  match userID with
  | None => (db, unauthorized)
  | Some userID =>
  match Only (fault e 0) (filter (user_IDEQ userID) (users db)) with
  | Err err =>
      (db, if IsNotFound err
           then HTTPError StatusNotFound "user not found"
           else HTTPError StatusInternalServerError "failed to find user")
  | Ok u => (db, JSON StatusOK (user_response u))
  end end.

(** The body of [UpdateMe] is its optional [display_name]. *)
Definition UpdateMe (e : Env) (userID : option UUID)
           (req : option (option string)) (db : DB)
  : DB * Response UserResponse :=
  match userID with
  | None => (db, unauthorized)
  | Some userID =>
  match req with
  | None => (db, HTTPError StatusBadRequest "invalid request body")
  | Some displayName =>
  let update :=
    match displayName with
    | Some name => if String.eqb name "" then (fun u => u)
                   else SetDisplayName name
    | None => fun u => u
    end in
  match UpdateOneID (fault e 0) user_id userID update (users db) with
  | Err _ => (db, HTTPError StatusInternalServerError "failed to update user")
  | Ok (u, us) => (set_users db us, JSON StatusOK (user_response u))
  end end end.

End Handlers.

(** ** The API as a transition system *)

(** One constructor per route of [main.go], with the caller identity the
    auth middleware stored and the request parameters. *)
Inductive Op :=
| OpRegister (req : option RegisterRequest)
| OpLogin (req : option LoginRequest)
| OpRefreshToken (req : option jwt.Token)
| OpGetMe (userID : option UUID)
| OpUpdateMe (userID : option UUID) (req : option (option string))
| OpGetCurrentContext (userID : option UUID)
| OpUpdateContext (userID : option UUID) (req : option UpdateContextRequest)
| OpCreateOrganization (userID : option UUID)
                       (req : option CreateOrganizationRequest)
| OpListOrganizations (userID : option UUID)
| OpGetOrganization (userID : option UUID) (slug : string)
| OpInviteMember (userID : option UUID) (slug : string)
                 (req : option InviteRequest)
| OpAcceptInvite (userID : option UUID) (token : string)
| OpGetInviteInfo (token : string)
| OpCreateProject (userID : option UUID) (slug : string)
                  (req : option CreateProjectRequest)
| OpListProjects (userID : option UUID) (slug : string)
| OpGetProject (userID : option UUID) (slug projectID : string)
| OpAddProjectMember (userID : option UUID) (slug projectID : string)
                     (req : option AddProjectMemberRequest).

Section System.
Context {deps : Deps}.
Variable jwtService : auth.JWTService.

(** The store a request leaves behind. *)
Definition exec (e : Env) (op : Op) (db : DB) : DB :=
  match op with
  | OpRegister req => fst (Register jwtService e req db)
  | OpLogin req => fst (Login jwtService e req db)
  | OpRefreshToken req => fst (RefreshToken jwtService e req db)
  | OpGetMe u => fst (GetMe e u db)
  | OpUpdateMe u req => fst (UpdateMe e u req db)
  | OpGetCurrentContext u => fst (GetCurrentContext e u db)
  | OpUpdateContext u req => fst (UpdateContext e u req db)
  | OpCreateOrganization u req => fst (CreateOrganization e u req db)
  | OpListOrganizations u => fst (ListOrganizations e u db)
  | OpGetOrganization u slug => fst (GetOrganization e u slug db)
  | OpInviteMember u slug req => fst (InviteMember e u slug req db)
  | OpAcceptInvite u token => fst (AcceptInvite e u token db)
  | OpGetInviteInfo token => fst (GetInviteInfo e token db)
  | OpCreateProject u slug req => fst (CreateProject e u slug req db)
  | OpListProjects u slug => fst (ListProjects e u slug db)
  | OpGetProject u slug p => fst (GetProject e u slug p db)
  | OpAddProjectMember u slug p req =>
      fst (AddProjectMember e u slug p req db)
  end.

(** Requests are served one after the other. *)
Inductive steps : DB -> DB -> Prop :=
| steps_refl db : steps db db
| steps_request db db' e op :
    steps db db' -> steps db (exec e op db').
End System.

(** The operations that write a last-visited pointer. *)
Definition writes_context (op : Op) : bool :=
  match op with
  | OpGetCurrentContext _ | OpUpdateContext _ _
  | OpCreateOrganization _ _ | OpGetOrganization _ _ | OpAcceptInvite _ _
  | OpCreateProject _ _ _ | OpGetProject _ _ _ => true
  | _ => false
  end.

(** The context-update operations the data model names. *)
Definition context_operation (op : Op) : bool :=
  match op with
  | OpGetCurrentContext _ | OpUpdateContext _ _ => true
  | _ => false
  end.

(** A user's identity with the two last-visited pointers. *)
Definition user_context (u : User) : UUID * (option UUID * option UUID) :=
  (user_id u, (user_last_org_id u, user_last_project_id u)).

(** ** Store invariants: the unique indexes of the schema, and the
    required organization edge of a project *)

Definition om_key (m : OrganizationMember) : UUID * UUID :=
  (om_user_id m, om_organization_id m).

Definition pm_key (m : ProjectMember) : UUID * UUID :=
  (pm_user_id m, pm_project_id m).

Record wf (db : DB) : Prop := {
  wf_user_id : NoDup (map user_id (users db));
  wf_user_email : NoDup (map user_email (users db));
  wf_org_id : NoDup (map org_id (organizations db));
  wf_org_slug : NoDup (map org_slug (organizations db));
  wf_om : NoDup (map om_key (organization_members db));
  wf_proj_id : NoDup (map proj_id (projects db));
  wf_pm : NoDup (map pm_key (project_members db));
  wf_inv_id : NoDup (map inv_id (invites db));
  wf_inv_token : NoDup (map inv_token (invites db));
  wf_proj_org :
    forall p, In p (projects db) ->
              exists o, In o (organizations db)
                        /\ org_id o = proj_organization_id p
}.

(** ** Reference definitions, in the words of the specification *)

Inductive Resolution := Forbidden | Granted (p : Permission).

(** The explicit ProjectMember row of a user on a project, if any. *)
Definition explicit_grant (db : DB) (userID projectID : UUID)
  : option ProjectMember :=
  find (projectmember_EQ userID projectID) (project_members db).

(** Specification 4.2: a private project requires an explicit row or is
    forbidden; a public one defaults to view unless an explicit row
    grants edit. *)
Definition ResolveProjectPermission (db : DB) (userID : UUID)
           (project : Project) : Resolution :=
  if proj_is_private project
  then match explicit_grant db userID (proj_id project) with
       | Some pm => Granted (pm_permission pm)
       | None => Forbidden
       end
  else match explicit_grant db userID (proj_id project) with
       | Some pm =>
           match pm_permission pm with
           | PermissionEdit => Granted PermissionEdit
           | PermissionView => Granted PermissionView
           end
       | None => Granted PermissionView
       end.

(** An invite token that exists and has been redeemed. *)
Definition spent (token : string) (db : DB) : Prop :=
  (exists i, In i (invites db) /\ inv_token i = token)
  /\ forall i, In i (invites db) -> inv_token i = token ->
               inv_used_at i <> None.

Definition update_user (userID : UUID) (set : User -> User) (us : list User)
  : list User :=
  map (fun u => if N.eqb (user_id u) userID then set u else u) us.

(** ** How one request may change the store *)

(** A table after at most one insert that its unique indexes let in. *)
Inductive appended {A : Type} (conflict : A -> A -> bool) (l l' : list A)
  : Prop :=
| appended_none : l' = l -> appended conflict l l'
| appended_row (row : A) :
    existsb (conflict row) l = false -> l' = l ++ [row] ->
    appended conflict l l'.

(** A setter that leaves the indexed columns of a user alone. *)
Definition keeps_identity (set : User -> User) : Prop :=
  forall u, user_id (set u) = user_id u /\ user_email (set u) = user_email u.

Definition stamp_invite (id : UUID) (t : Time) (l : list Invite)
  : list Invite :=
  map (fun i => if N.eqb (inv_id i) id then SetUsedAt t i else i) l.

Record evolves (db db' : DB) : Prop := {
  ev_users :
    appended User_conflict (users db) (users db')
    \/ exists id set,
        keeps_identity set /\ users db' = update_user id set (users db);
  ev_organizations :
    appended Organization_conflict (organizations db) (organizations db');
  ev_organization_members :
    appended OrganizationMember_conflict (organization_members db)
             (organization_members db');
  ev_projects : appended Project_conflict (projects db) (projects db');
  ev_projects_org :
    forall p, In p (projects db') ->
              In p (projects db)
              \/ exists o, In o (organizations db')
                           /\ org_id o = proj_organization_id p;
  ev_project_members :
    appended ProjectMember_conflict (project_members db) (project_members db');
  ev_invites :
    appended Invite_conflict (invites db) (invites db')
    \/ exists id t, invites db' = stamp_invite id t (invites db)
}.

(** The store after a committed acceptance of [inv] by [userID]: the
    membership, the stamp on the invite and the last-visited pointer. *)
Definition accepted (db : DB) (userID : UUID) (inv : Invite)
           (joined used : Time) : DB :=
  {| users := update_user userID (SetLastOrgID (inv_organization_id inv))
                          (users db);
     organizations := organizations db;
     organization_members :=
       organization_members db
       ++ [{| om_user_id := userID;
              om_organization_id := inv_organization_id inv;
              om_role := match inv_role inv with
                         | InviteRoleAdmin => RoleAdmin
                         | _ => RoleMember
                         end;
              om_created_at := joined |}];
     projects := projects db;
     project_members := project_members db;
     invites := stamp_invite (inv_id inv) used (invites db) |}.

(** The store after a committed creation of organization [org] by
    [userID], with its default project. *)
Definition organization_created (db : DB) (userID : UUID) (org : Organization)
           (general : Project) (joined : Time) : DB :=
  {| users := update_user userID (SetLastOrgID (org_id org)) (users db);
     organizations := organizations db ++ [org];
     organization_members :=
       organization_members db
       ++ [{| om_user_id := userID;
              om_organization_id := org_id org;
              om_role := RoleOwner;
              om_created_at := joined |}];
     projects := projects db ++ [general];
     project_members := project_members db;
     invites := invites db |}.

(** The store after a committed creation of project [proj] by [userID]. *)
Definition project_created (db : DB) (userID : UUID) (proj : Project)
           (joined : Time) : DB :=
  {| users := update_user userID (SetLastProjectID (proj_id proj)) (users db);
     organizations := organizations db;
     organization_members := organization_members db;
     projects := projects db ++ [proj];
     project_members :=
       if proj_is_private proj
       then project_members db
            ++ [{| pm_user_id := userID;
                   pm_project_id := proj_id proj;
                   pm_permission := PermissionEdit;
                   pm_created_at := joined |}]
       else project_members db;
     invites := invites db |}.

(** The redirect target of a context response. *)
Definition redirect_target (r : Response ContextResponse) : option string :=
  match r with
  | JSON _ body => Some (RedirectURL body)
  | _ => None
  end.

(** The last-visited pointers stored for a user. *)
Definition stored_context (db : DB) (userID : UUID)
  : option (option UUID * option UUID) :=
  match find (user_IDEQ userID) (users db) with
  | Some u => Some (user_last_org_id u, user_last_project_id u)
  | None => None
  end.

(** ** A small instance, for the examples *)

Definition hexval (c : ascii) : option N :=
  let n := N_of_ascii c in
  if ((48 <=? n) && (n <=? 57))%N then Some (n - 48)%N
  else if ((97 <=? n) && (n <=? 102))%N then Some (n - 87)%N
  else None.

Fixpoint parse_hex (s : string) (acc : N) : option N :=
  match s with
  | "" => Some acc
  | String c s' =>
      if Ascii.eqb c "-" then parse_hex s' acc
      else match hexval c with
           | Some v => parse_hex s' (16 * acc + v)%N
           | None => None
           end
  end.

Fixpoint contains_at (s : string) : bool :=
  match s with
  | "" => false
  | String c s' => Ascii.eqb c "@" || contains_at s'
  end.

(** Stand-ins for the external libraries: they have the right types
    and nothing more is asked of them. *)
Definition example_deps : Deps :=
  {| uuid_Parse := fun s =>
       if (String.length s =? 36)%nat then parse_hex s 0%N else None;
     validate_email := contains_at;
     bcrypt_GenerateFromPassword := fun password _ salt =>
       Some (salt ++ "$" ++ password)%string;
     bcrypt_CompareHashAndPassword := fun hash password =>
       String.eqb
         (substring (String.length hash - String.length password)
                    (String.length password) hash)
         password;
     hmac := fun _ key p =>
       (key ++ "." ++ jwt.Subject (jwt.p_registered p))%string |}.

(** A request during which the store does not fail. *)
Definition reliable : Env :=
  {| fault := fun _ => false;
     now := fun k => (1700000000 * Second + Z.of_nat k)%Z;
     uuid_New := fun k => (100 + N.of_nat k)%N;
     rand_Read := fun n => Some (repeat 171%N n);
     bcrypt_salt := "salt" |}.

Definition alice : User :=
  {| user_id := 1%N; user_email := "alice@example.com";
     user_password_hash := "salt$alice-password";
     user_display_name := "Alice";
     user_last_org_id := None; user_last_project_id := None;
     user_created_at := 10%Z |}.

Definition bob : User :=
  {| user_id := 2%N; user_email := "bob@example.com";
     user_password_hash := "salt$bob-password";
     user_display_name := "Bob";
     user_last_org_id := Some 11%N; user_last_project_id := Some 21%N;
     user_created_at := 20%Z |}.

Definition acme : Organization :=
  {| org_id := 10%N; org_name := "Acme"; org_slug := "acme";
     org_created_at := 30%Z |}.

Definition alice_owns_acme : OrganizationMember :=
  {| om_user_id := 1%N; om_organization_id := 10%N; om_role := RoleOwner;
     om_created_at := 31%Z |}.

Definition roadmap : Project :=
  {| proj_id := 20%N; proj_organization_id := 10%N; proj_name := "Roadmap";
     proj_is_private := true; proj_created_at := 40%Z |}.

Definition acme_invite : Invite :=
  {| inv_id := 30%N; inv_token := "c0ffee"; inv_email := "bob@example.com";
     inv_organization_id := 10%N; inv_project_id := None;
     inv_role := InviteRoleMember; inv_invited_by_id := 1%N;
     inv_expires_at := (1700000000 * Second + 7 * 24 * Hour)%Z;
     inv_used_at := None; inv_created_at := 50%Z |}.

(** Alice owns Acme, which has one private project she holds no row
    on; Bob's pointers name an organization that is gone; one invite to
    Acme is pending. *)
Definition example_db : DB :=
  {| users := [alice; bob];
     organizations := [acme];
     organization_members := [alice_owns_acme];
     projects := [roadmap];
     project_members := [];
     invites := [acme_invite] |}.

(** A setter that leaves the last-visited pointers alone. *)
Definition keeps_context (set : User -> User) : Prop :=
  forall u, user_last_org_id (set u) = user_last_org_id u
            /\ user_last_project_id (set u) = user_last_project_id u.

(** A request that at most rewrites user rows in place. *)
Definition users_written (db db' : DB) : Prop :=
  db' = db
  \/ exists id set,
      keeps_identity set /\ db' = set_users db (update_user id set (users db)).

(** The rows [CreateOrganization] inserts. *)
Definition new_organization (e : Env) (req : CreateOrganizationRequest)
  : Organization :=
  {| org_id := uuid_New e 0;
     org_name := CreateOrganizationRequest_Name req;
     org_slug := CreateOrganizationRequest_Slug req;
     org_created_at := now e 0 |}.

Definition owner_membership (e : Env) (userID : UUID) : OrganizationMember :=
  {| om_user_id := userID;
     om_organization_id := uuid_New e 0;
     om_role := RoleOwner;
     om_created_at := now e 1 |}.

Definition general_project (e : Env) : Project :=
  {| proj_id := uuid_New e 1;
     proj_organization_id := uuid_New e 0;
     proj_name := default_project_name;
     proj_is_private := false;
     proj_created_at := now e 2 |}.

(** The rows [CreateProject] inserts. *)
Definition new_project (e : Env) (orgID : UUID) (req : CreateProjectRequest)
  : Project :=
  {| proj_id := uuid_New e 0;
     proj_organization_id := orgID;
     proj_name := CreateProjectRequest_Name req;
     proj_is_private := CreateProjectRequest_IsPrivate req;
     proj_created_at := now e 0 |}.

Definition creator_membership (e : Env) (userID : UUID) : ProjectMember :=
  {| pm_user_id := userID;
     pm_project_id := uuid_New e 0;
     pm_permission := PermissionEdit;
     pm_created_at := now e 1 |}.


Definition carol : User :=
  {| user_id := 3%N; user_email := "carol@example.com";
     user_password_hash := "salt$carol-password";
     user_display_name := "Carol";
     user_last_org_id := None; user_last_project_id := None;
     user_created_at := 25%Z |}.

(** The example store with a third user. *)
Definition example_db_three : DB :=
  set_users example_db [alice; bob; carol].

(** ** The authentication middleware *)

(** [strings.Split(s, " ")]. *)
Fixpoint strings_Split_space (s : string) : list string :=
  match s with
  | "" => [""]
  | String c s' =>
      if Ascii.eqb c " " then "" :: strings_Split_space s'
      else match strings_Split_space s' with
           | [] => [String c ""]
           | part :: parts => String c part :: parts
           end
  end.

(** What the middleware stores in the echo context with [c.Set]. *)
Record AuthContext := {
  ctx_user_id : option UUID;
  ctx_user_email : option string;
  ctx_user_name : option string;
  ctx_user_claims : option auth.Claims
}.

Definition anonymous : AuthContext :=
  {| ctx_user_id := None; ctx_user_email := None; ctx_user_name := None;
     ctx_user_claims := None |}.

(** The four [c.Set] calls. *)
Definition authenticated (claims : auth.Claims) : AuthContext :=
  {| ctx_user_id := Some (auth.UserID claims);
     ctx_user_email := Some (auth.Email claims);
     ctx_user_name := Some (auth.DisplayName claims);
     ctx_user_claims := Some claims |}.

(** [auth.GetUserID]. *)
Definition GetUserID (c : AuthContext) : option UUID := ctx_user_id c.

(** [auth.GetUserEmail]. *)
Definition GetUserEmail (c : AuthContext) : option string := ctx_user_email c.

(** [auth.GetClaims]. *)
Definition GetClaims (c : AuthContext) : option auth.Claims :=
  ctx_user_claims c.

Section Middleware.
Context {deps : Deps}.
(** The parse of a compact token string, and [strings.ToLower]. *)
Variable token_of_string : string -> jwt.Token.
Variable strings_ToLower : string -> string.
Variable jwtService : auth.JWTService.

(** [AuthMiddleware(jwtService)(next)], given the Authorization header
    (empty when absent) and the time of the request. *)
Definition AuthMiddleware {A} (t : Time) (authHeader : string)
           (next : AuthContext -> DB -> DB * Response A) (db : DB)
  : DB * Response A :=
  if String.eqb authHeader ""
  then (db, HTTPError StatusUnauthorized "missing authorization header")
  else
  match strings_Split_space authHeader with
  | [scheme; tokenString] =>
      if negb (String.eqb (strings_ToLower scheme) "bearer")
      then (db, HTTPError StatusUnauthorized
                          "invalid authorization header format")
      else
      match auth.ValidateAccessToken jwtService
                                     (token_of_string tokenString) t with
      | inl auth.ErrExpiredToken =>
          (db, HTTPError StatusUnauthorized "token has expired")
      | inl auth.ErrInvalidToken =>
          (db, HTTPError StatusUnauthorized "invalid token")
      | inr claims => next (authenticated claims) db
      end
  | _ => (db, HTTPError StatusUnauthorized
                        "invalid authorization header format")
  end.

(** [OptionalAuthMiddleware(jwtService)(next)]. *)
Definition OptionalAuthMiddleware {A} (t : Time) (authHeader : string)
           (next : AuthContext -> DB -> DB * Response A) (db : DB)
  : DB * Response A :=
  if String.eqb authHeader "" then next anonymous db
  else
  match strings_Split_space authHeader with
  | [scheme; tokenString] =>
      if negb (String.eqb (strings_ToLower scheme) "bearer")
      then next anonymous db
      else
      match auth.ValidateAccessToken jwtService
                                     (token_of_string tokenString) t with
      | inr claims => next (authenticated claims) db
      | inl _ => next anonymous db
      end
  | _ => next anonymous db
  end.
End Middleware.

(** The number of spaces of a header. *)
Fixpoint count_spaces (s : string) : nat :=
  match s with
  | "" => 0
  | String c s' => ((if Ascii.eqb c " " then 1 else 0) + count_spaces s')%nat
  end.

(** ** The language of the slug pattern *)

(** A non-empty run of [a-z0-9]. *)
Definition alnum_run (r : string) : Prop :=
  r <> "" /\ Forall (fun c => is_lower_or_digit c = true)
                    (list_ascii_of_string r).

(** [^[a-z0-9]+(?:-[a-z0-9]+)*$]: one run, then any number of runs each
    led by a hyphen. *)
Definition slug_language (s : string) : Prop :=
  exists run runs,
    alnum_run run /\ Forall alnum_run runs
    /\ s = String.concat "-" (run :: runs).

(** ** More of the example instance *)

(** The example store once Bob has accepted the invite: Bob is a plain
    member of Acme. *)
Definition example_db_joined : DB :=
  fst (AcceptInvite reliable (Some 2%N) "c0ffee" example_db).

Definition globex : Organization :=
  {| org_id := 11%N; org_name := "Globex"; org_slug := "globex";
     org_created_at := 35%Z |}.

Definition bob_owns_globex : OrganizationMember :=
  {| om_user_id := 2%N; om_organization_id := 11%N; om_role := RoleOwner;
     om_created_at := 36%Z |}.

Definition launch : Project :=
  {| proj_id := 21%N; proj_organization_id := 11%N; proj_name := "Launch";
     proj_is_private := false; proj_created_at := 45%Z |}.

(** Two organizations: Alice owns Acme, Bob owns Globex, whose public
    project is the one his pointers name. *)
Definition example_db_two : DB :=
  {| users := [alice; bob];
     organizations := [acme; globex];
     organization_members := [alice_owns_acme; bob_owns_globex];
     projects := [roadmap; launch];
     project_members := [];
     invites := [acme_invite] |}.

(** The example libraries read a token string as an access token of
    user 7 when it is the word "good", and as malformed otherwise. *)
Definition example_token_of_string (s : string) : jwt.Token :=
  if String.eqb s "good"
  then @auth.GenerateAccessToken example_deps (auth.NewJWTService "")
         (fun _ => 0%Z) 7%N "grace@example.com" "Grace"
  else jwt.Malformed s.

Definition ascii_ToLower (c : ascii) : ascii :=
  let n := nat_of_ascii c in
  if ((65 <=? n) && (n <=? 90))%nat then ascii_of_nat (n + 32) else c.

Fixpoint example_ToLower (s : string) : string :=
  match s with
  | "" => ""
  | String c s' => String (ascii_ToLower c) (example_ToLower s')
  end.

(** ** Growth of the store *)

(** Every table of [db'] extends the same table of [db]: rows are kept
    in place, and only users and invites are ever rewritten, under the
    same identifier. *)
Definition grows (db db' : DB) : Prop :=
  (exists new, map user_id (users db') = map user_id (users db) ++ new)
  /\ (exists new, organizations db' = organizations db ++ new)
  /\ (exists new, organization_members db' = organization_members db ++ new)
  /\ (exists new, projects db' = projects db ++ new)
  /\ (exists new, project_members db' = project_members db ++ new)
  /\ (exists new, map inv_id (invites db') = map inv_id (invites db) ++ new).

(** ** Context responses *)

(** The response for a valid last organization without a project. *)
Definition organization_context (org : Organization) (m : OrganizationMember)
  : ContextResponse :=
  {| HasContext := true;
     ContextResponse_Organization :=
       Some {| OrganizationResponse_ID := org_id org;
               OrganizationResponse_Name := org_name org;
               OrganizationResponse_Slug := org_slug org;
               OrganizationResponse_Role := Role_string (om_role m);
               OrganizationResponse_CreatedAt := org_created_at org |};
     ContextResponse_Project := None;
     RedirectURL := "/org/" ++ org_slug org |}.

(** The response narrowed to a project of that organization. *)
Definition project_context (org : Organization) (m : OrganizationMember)
           (proj : Project) (perm : Permission) : ContextResponse :=
  {| HasContext := true;
     ContextResponse_Organization :=
       ContextResponse_Organization (organization_context org m);
     ContextResponse_Project :=
       Some (project_response proj (Permission_string perm));
     RedirectURL :=
       "/org/" ++ org_slug org ++ "/projects/" ++ UUID_String (proj_id proj) |}.

(** ** Project membership *)

(** The permission [AddProjectMember] stores for a requested string. *)
Definition requested_permission (req : AddProjectMemberRequest) : Permission :=
  if String.eqb (AddProjectMemberRequest_Permission req) "edit"
  then PermissionEdit else PermissionView.

(** The store after [AddProjectMember] added a row. *)
Definition with_project_member (db : DB) (pm : ProjectMember) : DB :=
  set_project_members db (project_members db ++ [pm]).

(** ** Invitations *)

(** The row [InviteMember] inserts, given the random bytes drawn. *)
Definition new_invite (e : Env) (userID : UUID) (org : Organization)
           (req : InviteRequest) (tokenBytes : list N) : Invite :=
  {| inv_id := uuid_New e 0;
     inv_token := hex_EncodeToString tokenBytes;
     inv_email := InviteRequest_Email req;
     inv_organization_id := org_id org;
     inv_project_id := None;
     inv_role := if String.eqb (InviteRequest_Role req) "admin"
                 then InviteRoleAdmin else InviteRoleMember;
     inv_invited_by_id := userID;
     inv_expires_at := (now e 0 + 7 * 24 * Hour)%Z;
     inv_used_at := None;
     inv_created_at := now e 1 |}.

(** An invitation of Bob to Acme, and Alice sending it. *)
Definition invite_bob : InviteRequest :=
  {| InviteRequest_Email := "bob@example.com";
     InviteRequest_Role := "admin";
     InviteRequest_ProjectID := None |}.

Definition example_db_invited : DB :=
  fst (@InviteMember example_deps reliable (Some 1%N) "acme" (Some invite_bob)
                     example_db).

(** ** Accounts *)

(** The row [Register] inserts, given the hash of the password. *)
Definition new_user (e : Env) (req : RegisterRequest) (passwordHash : string)
  : User :=
  {| user_id := uuid_New e 0;
     user_email := RegisterRequest_Email req;
     user_password_hash := passwordHash;
     user_display_name := RegisterRequest_DisplayName req;
     user_last_org_id := None;
     user_last_project_id := None;
     user_created_at := now e 0 |}.

(** The login that repeats the credentials of a registration. *)
Definition credentials (req : RegisterRequest) : LoginRequest :=
  {| LoginRequest_Email := RegisterRequest_Email req;
     LoginRequest_Password := RegisterRequest_Password req |}.

(** A later request on the same reliable store: a hundred seconds on. *)
Definition a_while_later : Env :=
  {| fault := fun _ => false;
     now := fun k => (1700000100 * Second + Z.of_nat k)%Z;
     uuid_New := fun k => (200 + N.of_nat k)%N;
     rand_Read := fun n => Some (repeat 205%N n);
     bcrypt_salt := "salt" |}.

(** ** Listings *)

(** The entry of an organization in a listing, for a membership. *)
Definition organization_response (o : Organization) (m : OrganizationMember)
  : OrganizationResponse :=
  {| OrganizationResponse_ID := org_id o;
     OrganizationResponse_Name := org_name o;
     OrganizationResponse_Slug := org_slug o;
     OrganizationResponse_Role := Role_string (om_role m);
     OrganizationResponse_CreatedAt := org_created_at o |}.

(** Every membership of the user names an organization of the store. *)
Definition memberships_resolve (db : DB) (userID : UUID) : Prop :=
  forall m, In m (organization_members db) -> om_user_id m = userID ->
            exists o, In o (organizations db)
                      /\ org_id o = om_organization_id m.

(** Projects, and listed projects, in the order of their creation. *)
Definition created_before (p q : Project) : Prop :=
  (proj_created_at p <= proj_created_at q)%Z.

Definition listed_before (r r' : ProjectResponse) : Prop :=
  (ProjectResponse_CreatedAt r <= ProjectResponse_CreatedAt r')%Z.

(** The display name [UpdateMe] leaves on a row, for a requested one. *)
Definition updated_display_name (req : option string) (u : User) : string :=
  match req with
  | Some name => if String.eqb name "" then user_display_name u else name
  | None => user_display_name u
  end.

(** ** Two overlapping acceptances *)

(** Two [AcceptInvite] requests scheduled so that both make their reads
    before either opens its transaction: the first transaction runs on
    the store both requests read, the second on the store the first one
    left.  The answers are those of the first and of the second
    request. *)
Definition AcceptInvite_interleaved (e1 e2 : Env) (user1 user2 : UUID)
           (token : string) (db : DB)
  : DB * Response OrganizationResponse * Response OrganizationResponse :=
  let read1 := AcceptInvite_reads e1 user1 token db in
  let read2 := AcceptInvite_reads e2 user2 token db in
  let first :=
    match read1 with
    | inl resp => (db, resp)
    | inr inv =>
        AcceptInvite_transaction
          e1 user1 inv (Edges_Organization db (inv_organization_id inv)) db
    end in
  let second :=
    match read2 with
    | inl resp => (fst first, resp)
    | inr inv =>
        AcceptInvite_transaction
          e2 user2 inv (Edges_Organization db (inv_organization_id inv))
          (fst first)
    end in
  (fst second, snd first, snd second).



(** * Properties *)

(** ** The helpers on small inputs *)

Example UUID_String_20 :
  UUID_String 20 = "00000000-0000-0000-0000-000000000014".
Proof. reflexivity. Qed.

Example uuid_Parse_String :
  @uuid_Parse example_deps (UUID_String 20) = Some 20%N.
Proof. reflexivity. Qed.

Example hex_EncodeToString_bytes :
  hex_EncodeToString [171; 205; 0; 15]%N = "abcd000f".
Proof. reflexivity. Qed.

Example slugRegex_Match_cases :
  slugRegex_Match "acme" = true /\ slugRegex_Match "team-42" = true
  /\ slugRegex_Match "" = false /\ slugRegex_Match "-acme" = false
  /\ slugRegex_Match "acme-" = false /\ slugRegex_Match "a--b" = false
  /\ slugRegex_Match "Acme" = false.
Proof. repeat split. Qed.

Example default_project_name_bytes :
  String.length default_project_name = 6%nat
  /\ default_project_name <> "General".
Proof. split; [reflexivity|discriminate]. Qed.

Example NewNumericDate_truncates :
  jwt.NewNumericDate 900500000000 = 900000000000%Z
  /\ jwt.NewNumericDate 900000000000 = 900000000000%Z.
Proof. split; reflexivity. Qed.

Example Only_cases :
  Only false ([] : list nat) = Err NotFoundError
  /\ Only false [7%nat] = Ok 7%nat
  /\ Only false [7%nat; 8%nat] = Err NotSingularError
  /\ Only true [7%nat] = Err DriverError.
Proof. repeat split. Qed.

(** ** Queries over a table with a unique index *)

Section UniqueKey.
Context {A K : Type}.
Variable key : A -> K.

Lemma filter_none (p : A -> bool) (l : list A) :
  (forall a, In a l -> p a = false) -> filter p l = [].
Proof.
  induction l as [|a l IH]; intros H; simpl; [reflexivity|].
  rewrite (H a (or_introl eq_refl)).
  apply IH. intros b Hb. apply H. now right.
Qed.

Lemma filter_selects_one (p : A -> bool) (k : K) (l : list A) (a : A) :
  NoDup (map key l) ->
  (forall b, p b = true -> key b = k) ->
  In a l -> p a = true ->
  filter p l = [a].
Proof.
  intros Hnd Hp. induction l as [|b l IH]; intros Hin Ha; [destruct Hin|].
  simpl in Hnd. inversion Hnd as [|? ? Hnotin Hnd']; subst.
  simpl. destruct Hin as [->|Hin].
  - rewrite Ha. f_equal. apply filter_none.
    intros c Hc. destruct (p c) eqn:Hpc; [|reflexivity].
    exfalso. apply Hnotin.
    rewrite (Hp a Ha), <- (Hp c Hpc). now apply in_map.
  - destruct (p b) eqn:Hpb.
    + exfalso. apply Hnotin.
      rewrite (Hp b Hpb), <- (Hp a Ha). now apply in_map.
    + now apply IH.
Qed.

Lemma Only_selects (p : A -> bool) (k : K) (l : list A) (a : A) :
  NoDup (map key l) ->
  (forall b, p b = true -> key b = k) ->
  In a l -> p a = true ->
  Only false (filter p l) = Ok a.
Proof.
  intros Hnd Hp Hin Ha.
  now rewrite (filter_selects_one p k l a Hnd Hp Hin Ha).
Qed.

Lemma Only_finds (p : A -> bool) (k : K) (l : list A) :
  NoDup (map key l) ->
  (forall b, p b = true -> key b = k) ->
  Only false (filter p l)
  = match find p l with Some a => Ok a | None => Err NotFoundError end.
Proof.
  intros Hnd Hp. destruct (find p l) as [a|] eqn:Hf.
  - apply find_some in Hf as [Hin Ha]. now apply (Only_selects p k).
  - rewrite filter_none; [reflexivity|].
    intros a Ha. now apply (find_none _ _ Hf).
Qed.
End UniqueKey.

Lemma Only_none {A} (p : A -> bool) (l : list A) :
  (forall a, In a l -> p a = false) ->
  Only false (filter p l) = Err NotFoundError.
Proof. intros H. now rewrite filter_none. Qed.

Lemma Only_Ok_inv {A} (flt : bool) (l : list A) (a : A) :
  Only flt l = Ok a -> flt = false /\ l = [a].
Proof.
  unfold Only. destruct flt; [discriminate|].
  destruct l as [|b [|c l]]; try discriminate.
  intros H. injection H as ->. now split.
Qed.

Lemma Exist_finds {A} (p : A -> bool) (l : list A) :
  Exist false (filter p l)
  = Ok (match find p l with Some _ => true | None => false end).
Proof.
  unfold Exist. f_equal.
  induction l as [|a l IH]; simpl; [reflexivity|].
  destruct (p a); [reflexivity|exact IH].
Qed.

Lemma filter_singleton_In {A} (p : A -> bool) (l : list A) (a : A) :
  filter p l = [a] -> In a l /\ p a = true.
Proof.
  intros H. apply filter_In. rewrite H. now left.
Qed.

Lemma filter_nil_iff {A} (p : A -> bool) (l : list A) :
  filter p l = [] <-> forall a, In a l -> p a = false.
Proof.
  split; [|apply filter_none].
  intros H a Hin. destruct (p a) eqn:Hp; [|reflexivity].
  assert (Hf : In a (filter p l)) by now apply filter_In.
  rewrite H in Hf. destruct Hf.
Qed.

Lemma find_app_Some {A} (p : A -> bool) (l l' : list A) (a : A) :
  find p l = Some a -> find p (l ++ l') = Some a.
Proof.
  induction l as [|b l IH]; simpl; [discriminate|].
  destruct (p b); [trivial|exact IH].
Qed.

Lemma find_app_None {A} (p : A -> bool) (l l' : list A) :
  find p l = None -> find p (l ++ l') = find p l'.
Proof.
  induction l as [|b l IH]; simpl; [reflexivity|].
  destruct (p b); [discriminate|exact IH].
Qed.

Lemma existsb_find {A} (p : A -> bool) (l : list A) :
  existsb p l = match find p l with Some _ => true | None => false end.
Proof.
  induction l as [|a l IH]; simpl; [reflexivity|].
  destruct (p a); [reflexivity|exact IH].
Qed.

(** ** The ent operations *)

Lemma Create_Ok_inv {A} flt valid conflict (row : A) rows rows' :
  Create flt valid conflict row rows = Ok rows' ->
  valid row = true /\ flt = false /\ existsb (conflict row) rows = false
  /\ rows' = rows ++ [row].
Proof.
  unfold Create.
  destruct (valid row); simpl; [|discriminate].
  destruct flt; [discriminate|].
  destruct (existsb (conflict row) rows); [discriminate|].
  intros H. injection H as <-. auto.
Qed.

Lemma Create_keeps_unique {A K} (key : A -> K) flt valid conflict
      (row : A) rows rows' :
  (forall r, key r = key row -> conflict row r = true) ->
  Create flt valid conflict row rows = Ok rows' ->
  NoDup (map key rows) -> NoDup (map key rows').
Proof.
  intros Hc H Hnd. apply Create_Ok_inv in H as (_ & _ & Hex & ->).
  rewrite map_app. simpl.
  apply NoDup_app; [exact Hnd|repeat constructor; intros []|].
  intros k Hin [<-|[]].
  apply in_map_iff in Hin as (r & Hk & Hr).
  assert (existsb (conflict row) rows = true).
  { apply existsb_exists. exists r. split; [exact Hr|]. now apply Hc. }
  congruence.
Qed.

Lemma UpdateOneID_Ok_inv {A} flt (key : A -> UUID) id set rows r rows' :
  UpdateOneID flt key id set rows = Ok (r, rows') ->
  flt = false
  /\ (exists r0, find (fun r => N.eqb (key r) id) rows = Some r0 /\ r = set r0)
  /\ rows' = map (fun r => if N.eqb (key r) id then set r else r) rows.
Proof.
  unfold UpdateOneID. destruct flt; [discriminate|].
  destruct (find _ rows) as [r0|]; [|discriminate].
  intros H. injection H as <- <-. eauto.
Qed.

Lemma map_update_key {A K} (key : A -> K) (sel : A -> bool) (set : A -> A) l :
  (forall a, key (set a) = key a) ->
  map key (map (fun a => if sel a then set a else a) l) = map key l.
Proof.
  intros H. rewrite map_map. apply map_ext.
  intros a. destruct (sel a); [apply H|reflexivity].
Qed.

(** ** Project listing: ordering and the membership map *)

Lemma insert_by_created_at_perm p l :
  Permutation (insert_by_created_at p l) (p :: l).
Proof.
  induction l as [|q l IH]; simpl; [reflexivity|].
  destruct (proj_created_at p <? proj_created_at q)%Z; [reflexivity|].
  rewrite IH. apply perm_swap.
Qed.

Lemma Order_Asc_created_at_perm l : Permutation (Order_Asc_created_at l) l.
Proof.
  unfold Order_Asc_created_at.
  enough (H : forall acc,
             Permutation (fold_left (fun acc p => insert_by_created_at p acc)
                                    l acc) (l ++ acc)).
  { rewrite H. now rewrite app_nil_r. }
  induction l as [|p l IH]; intros acc; simpl; [reflexivity|].
  rewrite IH, insert_by_created_at_perm.
  symmetry. apply Permutation_middle.
Qed.

Lemma NoDup_map_filter {A K} (key : A -> K) (p : A -> bool) l :
  NoDup (map key l) -> NoDup (map key (filter p l)).
Proof.
  induction l as [|a l IH]; simpl; intros H; [constructor|].
  inversion H as [|? ? Hnotin Hnd]; subst.
  destruct (p a); simpl; [|now apply IH].
  constructor; [|now apply IH].
  intros Hin. apply Hnotin.
  apply in_map_iff in Hin as (b & Hk & Hb).
  apply filter_In in Hb as [Hb _]. rewrite <- Hk. now apply in_map.
Qed.

Lemma membershipMap_snoc l pm k :
  membershipMap (l ++ [pm]) k
  = if N.eqb k (pm_project_id pm)
    then Some (Permission_string (pm_permission pm))
    else membershipMap l k.
Proof. unfold membershipMap. now rewrite fold_left_app. Qed.

Lemma membershipMap_find l k :
  NoDup (map pm_project_id l) ->
  membershipMap l k
  = option_map (fun pm => Permission_string (pm_permission pm))
               (find (fun pm => N.eqb (pm_project_id pm) k) l).
Proof.
  induction l as [|pm l IH] using rev_ind; intros Hnd; [reflexivity|].
  rewrite membershipMap_snoc.
  rewrite map_app in Hnd. simpl in Hnd.
  destruct (find (fun pm => N.eqb (pm_project_id pm) k) l) as [pm'|] eqn:Hf.
  - rewrite (find_app_Some _ _ _ _ Hf).
    destruct (find_some _ _ Hf) as [Hin Hk]. apply N.eqb_eq in Hk.
    destruct (N.eqb_spec k (pm_project_id pm)) as [Heq|Hne].
    + exfalso. apply NoDup_remove_2 in Hnd. apply Hnd.
      rewrite app_nil_r. rewrite <- Heq, <- Hk. now apply in_map.
    + apply IH. now apply NoDup_app_remove_r in Hnd.
  - rewrite (find_app_None _ _ _ Hf). simpl.
    rewrite (N.eqb_sym k).
    destruct (N.eqb (pm_project_id pm) k); [reflexivity|].
    apply IH. now apply NoDup_app_remove_r in Hnd.
Qed.

(** ** What the [Where] predicates select *)

Lemma user_IDEQ_true id u : user_IDEQ id u = true <-> user_id u = id.
Proof. apply N.eqb_eq. Qed.

Lemma organization_IDEQ_true id o :
  organization_IDEQ id o = true <-> org_id o = id.
Proof. apply N.eqb_eq. Qed.

Lemma organization_SlugEQ_true s o :
  organization_SlugEQ s o = true <-> org_slug o = s.
Proof. apply String.eqb_eq. Qed.

Lemma organizationmember_EQ_true u o m :
  organizationmember_EQ u o m = true <-> om_key m = (u, o).
Proof.
  unfold organizationmember_EQ, om_key.
  rewrite andb_true_iff, !N.eqb_eq. split.
  - intros [-> ->]. reflexivity.
  - intros H. now injection H.
Qed.

Lemma projectmember_EQ_true u p m :
  projectmember_EQ u p m = true <-> pm_key m = (u, p).
Proof.
  unfold projectmember_EQ, pm_key.
  rewrite andb_true_iff, !N.eqb_eq. split.
  - intros [-> ->]. reflexivity.
  - intros H. now injection H.
Qed.

Lemma project_in_org_true pid oid p :
  project_IDEQ pid p && project_OrganizationIDEQ oid p = true
  <-> proj_id p = pid /\ proj_organization_id p = oid.
Proof.
  unfold project_IDEQ, project_OrganizationIDEQ.
  now rewrite andb_true_iff, !N.eqb_eq.
Qed.

Lemma eqb_empty_false s : s <> "" -> String.eqb s "" = false.
Proof. intros H. now apply String.eqb_neq. Qed.

Lemma org_and_membership_ok {A} e userID db org m :
  wf db -> fault e 0 = false -> fault e 1 = false ->
  In org (organizations db) ->
  In m (organization_members db) ->
  om_user_id m = userID -> om_organization_id m = org_id org ->
  @org_and_membership A e userID (org_slug org) db = inr (org, m).
Proof.
  intros Hwf F0 F1 Horg Hm Hu Ho. unfold org_and_membership.
  rewrite F0, F1.
  rewrite (Only_selects org_slug _ (org_slug org) _ org);
    [|apply Hwf|intros b; apply organization_SlugEQ_true|exact Horg
     |now apply organization_SlugEQ_true].
  rewrite (Only_selects om_key _ (userID, org_id org) _ m);
    [reflexivity|apply Hwf|intros b; apply organizationmember_EQ_true|exact Hm|].
  apply organizationmember_EQ_true. unfold om_key. now rewrite Hu, Ho.
Qed.

Lemma explicit_Only db userID projectID :
  wf db ->
  Only false (filter (projectmember_EQ userID projectID) (project_members db))
  = match explicit_grant db userID projectID with
    | Some pm => Ok pm
    | None => Err NotFoundError
    end.
Proof.
  intros Hwf. unfold explicit_grant.
  apply (Only_finds pm_key _ (userID, projectID)); [apply Hwf|].
  intros b. apply projectmember_EQ_true.
Qed.

Lemma project_Only db proj :
  wf db -> In proj (projects db) ->
  Only false
       (filter (fun p => project_IDEQ (proj_id proj) p
                         && project_OrganizationIDEQ (proj_organization_id proj) p)
               (projects db))
  = Ok proj.
Proof.
  intros Hwf Hin.
  apply (Only_selects proj_id _ (proj_id proj)); [apply Hwf| |exact Hin|].
  - intros b Hb. now apply project_in_org_true in Hb.
  - now apply project_in_org_true.
Qed.

Lemma user_projects_unique u pms :
  NoDup (map pm_key pms) ->
  NoDup (map pm_project_id (filter (projectmember_UserIDEQ u) pms)).
Proof.
  induction pms as [|pm pms IH]; simpl; intros H; [constructor|].
  inversion H as [|? ? Hnotin Hnd]; subst.
  destruct (projectmember_UserIDEQ u pm) eqn:Hu; simpl; [|now apply IH].
  constructor; [|now apply IH].
  intros Hin. apply Hnotin.
  apply in_map_iff in Hin as (b & Hk & Hb).
  apply filter_In in Hb as [Hb Hub].
  apply N.eqb_eq in Hu, Hub.
  apply in_map_iff. exists b. split; [|exact Hb].
  unfold pm_key. now rewrite Hk, Hu, Hub.
Qed.

Lemma find_user_project u pid pms :
  find (fun pm => N.eqb (pm_project_id pm) pid)
       (filter (projectmember_UserIDEQ u) pms)
  = find (projectmember_EQ u pid) pms.
Proof.
  induction pms as [|pm pms IH]; simpl; [reflexivity|].
  unfold projectmember_EQ, projectmember_UserIDEQ in *.
  destruct (N.eqb (pm_user_id pm) u); simpl; [|exact IH].
  destruct (N.eqb (pm_project_id pm) pid); [reflexivity|exact IH].
Qed.

Lemma membershipMap_explicit db u pid :
  wf db ->
  membershipMap (filter (projectmember_UserIDEQ u) (project_members db)) pid
  = option_map (fun pm => Permission_string (pm_permission pm))
               (explicit_grant db u pid).
Proof.
  intros Hwf. rewrite membershipMap_find.
  - now rewrite find_user_project.
  - apply user_projects_unique, Hwf.
Qed.

Lemma list_entry_filter m pid l :
  filter (fun r => N.eqb (ProjectResponse_ID r) pid) (flat_map (list_entry m) l)
  = flat_map (list_entry m) (filter (project_IDEQ pid) l).
Proof.
  induction l as [|p l IH]; simpl; [reflexivity|].
  rewrite filter_app, IH. unfold project_IDEQ at 2.
  assert (H : filter (fun r => N.eqb (ProjectResponse_ID r) pid) (list_entry m p)
              = if N.eqb (proj_id p) pid then list_entry m p else []).
  { unfold list_entry.
    destruct (proj_is_private p), (m (proj_id p)); simpl;
      destruct (N.eqb (proj_id p) pid); reflexivity. }
  rewrite H. destruct (N.eqb (proj_id p) pid); reflexivity.
Qed.

Lemma listed_projects_select db proj :
  wf db -> In proj (projects db) ->
  filter (project_IDEQ (proj_id proj))
         (Order_Asc_created_at
            (filter (project_OrganizationIDEQ (proj_organization_id proj))
                    (projects db)))
  = [proj].
Proof.
  intros Hwf Hin.
  apply (filter_selects_one proj_id _ (proj_id proj)).
  - eapply Permutation_NoDup.
    + apply Permutation_map. symmetry. apply Order_Asc_created_at_perm.
    + apply NoDup_map_filter, Hwf.
  - intros b. apply N.eqb_eq.
  - eapply Permutation_in; [symmetry; apply Order_Asc_created_at_perm|].
    apply filter_In. split; [exact Hin|apply N.eqb_refl].
  - apply N.eqb_refl.
Qed.

(** ** C1: project permission resolution *)

Section Resolution.
Context {deps : Deps}.

(** C1.  For a member of the organization, [GetProject] and
    [ListProjects] resolve the permission on a project of that
    organization as the reference definition does: a private project
    is served (or listed) with the permission of the explicit
    ProjectMember row and refused with 403 (or left out of the list)
    without one, whatever the organization role; a public project
    resolves to view unless an explicit row grants edit. *)
Theorem project_permission_resolution
        (e : Env) (userID : UUID) (db : DB) (org : Organization)
        (m : OrganizationMember) (proj : Project) (projectIDStr : string) :
  wf db ->
  (forall k, fault e k = false) ->
  In org (organizations db) -> org_slug org <> "" ->
  In m (organization_members db) ->
  om_user_id m = userID -> om_organization_id m = org_id org ->
  In proj (projects db) -> proj_organization_id proj = org_id org ->
  projectIDStr <> "" -> uuid_Parse projectIDStr = Some (proj_id proj) ->
  snd (GetProject e (Some userID) (org_slug org) projectIDStr db)
  = match ResolveProjectPermission db userID proj with
    | Forbidden =>
        HTTPError StatusForbidden "you do not have access to this project"
    | Granted perm =>
        JSON StatusOK (project_response proj (Permission_string perm))
    end
  /\ exists listed,
      snd (ListProjects e (Some userID) (org_slug org) db)
      = JSON StatusOK listed
      /\ filter (fun r => N.eqb (ProjectResponse_ID r) (proj_id proj)) listed
         = match ResolveProjectPermission db userID proj with
           | Forbidden => []
           | Granted perm =>
               [project_response proj (Permission_string perm)]
           end.
Proof.
  intros Hwf F Horg Hslug Hm Hu Ho Hproj Hpo Hstr Hparse. split.
  - unfold GetProject.
    rewrite (eqb_empty_false _ Hslug), (eqb_empty_false _ Hstr). simpl.
    rewrite Hparse.
    rewrite (org_and_membership_ok e userID db org m); auto.
    rewrite !F, <- Hpo, (project_Only db proj Hwf Hproj).
    rewrite !(explicit_Only db userID (proj_id proj) Hwf).
    unfold ResolveProjectPermission.
    destruct (proj_is_private proj),
      (explicit_grant db userID (proj_id proj)) as [pm|];
      simpl; try reflexivity.
    now destruct (pm_permission pm).
  - unfold ListProjects.
    rewrite (eqb_empty_false _ Hslug).
    rewrite (org_and_membership_ok e userID db org m); auto.
    rewrite !F. simpl. eexists. split; [reflexivity|].
    rewrite list_entry_filter, <- Hpo.
    rewrite (listed_projects_select db proj Hwf Hproj). simpl.
    rewrite app_nil_r. unfold list_entry, ResolveProjectPermission.
    rewrite (membershipMap_explicit db userID (proj_id proj) Hwf).
    destruct (proj_is_private proj),
      (explicit_grant db userID (proj_id proj)) as [pm|];
      simpl; try reflexivity.
    now destruct (pm_permission pm).
Qed.
End Resolution.

Ltac distinct :=
  repeat (constructor; [simpl; intuition discriminate|]); constructor.

Lemma example_db_wf : wf example_db.
Proof.
  constructor; simpl; try distinct.
  intros p [<-|[]]. exists acme. split; [now left|reflexivity].
Qed.

Lemma example_db_two_wf : wf example_db_two.
Proof.
  constructor; simpl; try distinct.
  intros p [<-|[<-|[]]]; [exists acme|exists globex]; simpl; auto.
Qed.


Lemma project_permission_resolution_witness :
  snd (@GetProject example_deps reliable (Some 1%N) "acme" (UUID_String 20)
                   example_db)
  = match ResolveProjectPermission example_db 1%N roadmap with
    | Forbidden =>
        HTTPError StatusForbidden "you do not have access to this project"
    | Granted perm =>
        JSON StatusOK (project_response roadmap (Permission_string perm))
    end
  /\ exists listed,
      snd (ListProjects reliable (Some 1%N) "acme" example_db)
      = JSON StatusOK listed
      /\ filter (fun r => N.eqb (ProjectResponse_ID r) 20%N) listed
         = match ResolveProjectPermission example_db 1%N roadmap with
           | Forbidden => []
           | Granted perm =>
               [project_response roadmap (Permission_string perm)]
           end.
Proof.
  apply (@project_permission_resolution example_deps reliable 1%N example_db
           acme alice_owns_acme roadmap (UUID_String 20)).
  - exact example_db_wf.
  - reflexivity.
  - simpl; auto.
  - discriminate.
  - simpl; auto.
  - reflexivity.
  - reflexivity.
  - simpl; auto.
  - reflexivity.
  - discriminate.
  - reflexivity.
Defined.

(** ** Users and their stored context *)

Lemma find_selects {A K} (key : A -> K) (p : A -> bool) (k : K) l a :
  NoDup (map key l) ->
  (forall b, p b = true -> key b = k) ->
  In a l -> p a = true ->
  find p l = Some a.
Proof.
  intros Hnd Hp Hin Ha.
  pose proof (filter_selects_one key p k l a Hnd Hp Hin Ha) as Hf.
  clear Hnd Hin. induction l as [|b l IH]; simpl in *; [discriminate|].
  destruct (p b); [now injection Hf as ->|now apply IH].
Qed.

Lemma user_Only db user :
  wf db -> In user (users db) ->
  Only false (filter (user_IDEQ (user_id user)) (users db)) = Ok user.
Proof.
  intros Hwf Hin.
  apply (Only_selects user_id _ (user_id user)); [apply Hwf| |exact Hin|].
  - intros b. apply user_IDEQ_true.
  - now apply user_IDEQ_true.
Qed.

Lemma find_update_user userID set us :
  (forall u, user_id (set u) = user_id u) ->
  find (user_IDEQ userID) (update_user userID set us)
  = option_map set (find (user_IDEQ userID) us).
Proof.
  intros Hid. unfold update_user, user_IDEQ.
  induction us as [|u us IH]; simpl; [reflexivity|].
  destruct (N.eqb (user_id u) userID) eqn:Hu.
  - now rewrite Hid, Hu.
  - now rewrite Hu.
Qed.

Lemma UpdateOneID_user userID set us u :
  In u us -> user_id u = userID ->
  exists u', UpdateOneID false user_id userID set us
             = Ok (u', update_user userID set us).
Proof.
  intros Hin Hid. unfold UpdateOneID.
  destruct (find (fun r => N.eqb (user_id r) userID) us) as [u0|] eqn:Hf.
  - eexists. reflexivity.
  - exfalso. apply (find_none _ _ Hf) in Hin. apply N.eqb_neq in Hin. auto.
Qed.

Lemma clear_context_effect userID db u :
  In u (users db) -> user_id u = userID ->
  clear_context false userID db
  = set_users db (update_user userID
                    (fun u => ClearLastProjectID (ClearLastOrgID u)) (users db))
  /\ stored_context (clear_context false userID db) userID = Some (None, None).
Proof.
  intros Hin Hid. unfold clear_context.
  destruct (UpdateOneID_user userID
              (fun u => ClearLastProjectID (ClearLastOrgID u)) _ _ Hin Hid)
    as [u' ->].
  simpl. split; [reflexivity|].
  unfold stored_context. simpl. rewrite find_update_user by reflexivity.
  destruct (find (user_IDEQ userID) (users db)) as [u0|] eqn:Hf;
    [reflexivity|].
  apply (find_none _ _ Hf) in Hin.
  apply N.eqb_neq in Hin. contradiction.
Qed.

(** ** C3 and C4: restoring the context *)

(** C3, as stated, fails: a user without a stored organization who
    belongs to one is sent to that organization, not to the creation
    screen. *)
Lemma GetCurrentContext_member_without_pointer :
  stored_context example_db 1 = Some (None, None)
  /\ redirect_target (snd (GetCurrentContext reliable (Some 1%N) example_db))
     = Some "/org/acme"
  /\ redirect_target (snd (GetCurrentContext reliable (Some 1%N) example_db))
     <> Some "/org/new".
Proof. repeat split. discriminate. Qed.

(** C3, amended.  With no stored last organization the store is left
    as it is, and the redirect target is the creation screen when the
    user has no membership, and otherwise the home of the organization
    of the first membership returned. *)
Theorem GetCurrentContext_without_last_organization
        (e : Env) (userID : UUID) (db : DB) (user : User) :
  wf db -> fault e 0 = false -> fault e 1 = false ->
  In user (users db) -> user_id user = userID ->
  user_last_org_id user = None ->
  fst (GetCurrentContext e (Some userID) db) = db
  /\ (filter (organizationmember_UserIDEQ userID) (organization_members db)
      = [] ->
      snd (GetCurrentContext e (Some userID) db)
      = JSON StatusOK (no_context "/org/new"))
  /\ (forall m rest org,
         filter (organizationmember_UserIDEQ userID) (organization_members db)
         = m :: rest ->
         In org (organizations db) -> org_id org = om_organization_id m ->
         snd (GetCurrentContext e (Some userID) db)
         = JSON StatusOK (no_context ("/org/" ++ org_slug org))).
Proof.
  intros Hwf F0 F1 Hin Hid Hlast. unfold GetCurrentContext.
  rewrite F0, F1, <- Hid, (user_Only db user Hwf Hin), Hlast. simpl.
  split; [|split].
  - destruct (filter _ (organization_members db)) as [|m rest];
      [reflexivity|].
    now destruct (Edges_Organization db (om_organization_id m)).
  - now intros ->.
  - intros m rest org -> Horg Ho.
    unfold Edges_Organization.
    rewrite (find_selects org_id _ (om_organization_id m) _ org);
      [reflexivity|apply Hwf|intros b; apply organization_IDEQ_true
       |exact Horg|now apply organization_IDEQ_true].
Qed.

Lemma GetCurrentContext_without_last_organization_witness :
  fst (GetCurrentContext reliable (Some 1%N) example_db) = example_db
  /\ (filter (organizationmember_UserIDEQ 1%N)
             (organization_members example_db) = [] ->
      snd (GetCurrentContext reliable (Some 1%N) example_db)
      = JSON StatusOK (no_context "/org/new"))
  /\ (forall m rest org,
         filter (organizationmember_UserIDEQ 1%N)
                (organization_members example_db) = m :: rest ->
         In org (organizations example_db) ->
         org_id org = om_organization_id m ->
         snd (GetCurrentContext reliable (Some 1%N) example_db)
         = JSON StatusOK (no_context ("/org/" ++ org_slug org))).
Proof.
  apply (GetCurrentContext_without_last_organization reliable 1%N example_db
           alice).
  - exact example_db_wf.
  - reflexivity.
  - reflexivity.
  - simpl; auto.
  - reflexivity.
  - reflexivity.
Defined.

(** C4.  When the stored last organization no longer exists, or the
    user is no longer a member of it, [GetCurrentContext] clears both
    pointers of the user in the store and redirects to the creation
    screen. *)
Theorem GetCurrentContext_stale_organization
        (e : Env) (userID : UUID) (db : DB) (user : User) (lastOrgID : UUID) :
  wf db -> (forall k, fault e k = false) ->
  In user (users db) -> user_id user = userID ->
  user_last_org_id user = Some lastOrgID ->
  (forall o, In o (organizations db) -> org_id o <> lastOrgID)
  \/ (forall m, In m (organization_members db) ->
                om_user_id m = userID -> om_organization_id m <> lastOrgID) ->
  snd (GetCurrentContext e (Some userID) db)
  = JSON StatusOK (no_context "/org/new")
  /\ fst (GetCurrentContext e (Some userID) db)
     = set_users db
         (update_user userID (fun u => ClearLastProjectID (ClearLastOrgID u))
                      (users db))
  /\ stored_context (fst (GetCurrentContext e (Some userID) db)) userID
     = Some (None, None).
Proof.
  intros Hwf F Hin Hid Hlast Hstale. unfold GetCurrentContext.
  rewrite !F, <- Hid, (user_Only db user Hwf Hin), Hlast.
  destruct (clear_context_effect (user_id user) db user Hin eq_refl)
    as [Hclear Hstored].
  rewrite (Only_finds org_id _ lastOrgID);
    [|apply Hwf|intros b; apply organization_IDEQ_true].
  destruct (find (organization_IDEQ lastOrgID) (organizations db))
    as [org|] eqn:Horg; cbv iota beta.
  - apply find_some in Horg as [Horg Ho].
    apply organization_IDEQ_true in Ho.
    rewrite Only_none.
    + simpl. rewrite <- Hclear. auto.
    + intros m Hm. destruct (organizationmember_EQ _ _ m) eqn:Heq;
        [|reflexivity].
      apply organizationmember_EQ_true in Heq. injection Heq as Hu Hmo.
      exfalso. destruct Hstale as [Hgone|Hrevoked].
      * now apply (Hgone org).
      * apply (Hrevoked m Hm); congruence.
  - simpl. rewrite <- Hclear. auto.
Qed.

Lemma GetCurrentContext_stale_organization_witness :
  snd (GetCurrentContext reliable (Some 2%N) example_db)
  = JSON StatusOK (no_context "/org/new")
  /\ fst (GetCurrentContext reliable (Some 2%N) example_db)
     = set_users example_db
         (update_user 2%N (fun u => ClearLastProjectID (ClearLastOrgID u))
                      (users example_db))
  /\ stored_context (fst (GetCurrentContext reliable (Some 2%N) example_db)) 2%N
     = Some (None, None).
Proof.
  apply (GetCurrentContext_stale_organization reliable 2%N example_db bob 11%N).
  - exact example_db_wf.
  - reflexivity.
  - simpl; auto.
  - reflexivity.
  - reflexivity.
  - left. simpl. intros o [<-|[]]. discriminate.
Defined.

(** Case analysis along the early returns of a handler. *)
Ltac case_on :=
  match goal with
  | |- context [match ?x with _ => _ end] =>
      lazymatch x with
      | context [match _ with _ => _ end] => fail
      | _ => destruct x eqn:?
      end
  end.

Ltac read_only := intros; repeat (case_on; simpl); reflexivity.

(** ** C5: accepting an invite *)

Ltac rolled_back :=
  left; split; [reflexivity|];
  try reflexivity;
  match goal with
  | |- context [IsNotFound ?err] => now destruct (IsNotFound err)
  end.

Lemma AcceptInvite_cases
      (e : Env) (userID : option UUID) (token : string) (db : DB) :
  (fst (AcceptInvite e userID token db) = db
   /\ succeeded (snd (AcceptInvite e userID token db)) = false)
  \/ exists uid inv,
      userID = Some uid
      /\ filter (invite_redeemable token (now e 0)) (invites db) = [inv]
      /\ filter (organizationmember_EQ uid (inv_organization_id inv))
                (organization_members db) = []
      /\ fst (AcceptInvite e userID token db)
         = accepted db uid inv (now e 1) (now e 2).
Proof.
  unfold AcceptInvite.
  destruct userID as [uid|]; [|rolled_back].
  destruct (String.eqb token ""); [rolled_back|].
  destruct (Only _ _) as [inv|err] eqn:Hinv; [|rolled_back].
  destruct (Exist _ _) as [[|]|err] eqn:Hmember; try rolled_back.
  destruct (fault e 2); [rolled_back|].
  destruct (Create _ _ _ _ _) as [members|err] eqn:Hcreate; [|rolled_back].
  destruct (UpdateOneID (fault e 4) _ _ _ _) as [[i invs]|err] eqn:Hstamp;
    [|rolled_back].
  destruct (UpdateOneID (fault e 5) _ _ _ _) as [[u us]|err] eqn:Hlast;
    [|rolled_back].
  destruct (fault e 6); [rolled_back|].
  right. exists uid, inv.
  apply Only_Ok_inv in Hinv as [_ Hinv].
  apply Create_Ok_inv in Hcreate as (_ & _ & _ & ->).
  apply UpdateOneID_Ok_inv in Hstamp as (_ & _ & ->).
  apply UpdateOneID_Ok_inv in Hlast as (_ & _ & ->).
  repeat split; [exact Hinv| |].
  - unfold Exist in Hmember. destruct (fault e 1); [discriminate|].
    now destruct (filter _ (organization_members db)).
  - now destruct (Edges_Organization db (inv_organization_id inv)).
Qed.

Lemma AcceptInvite_accepts
      (e : Env) (token : string) (db : DB) uid inv u o :
  (forall k, fault e k = false) -> token <> "" ->
  filter (invite_redeemable token (now e 0)) (invites db) = [inv] ->
  filter (organizationmember_EQ uid (inv_organization_id inv))
         (organization_members db) = [] ->
  In u (users db) -> user_id u = uid ->
  Edges_Organization db (inv_organization_id inv) = Some o ->
  AcceptInvite e (Some uid) token db
  = (accepted db uid inv (now e 1) (now e 2),
     JSON StatusOK
          {| OrganizationResponse_ID := org_id o;
             OrganizationResponse_Name := org_name o;
             OrganizationResponse_Slug := org_slug o;
             OrganizationResponse_Role :=
               match inv_role inv with
               | InviteRoleAdmin => "admin"
               | _ => "member"
               end;
             OrganizationResponse_CreatedAt := org_created_at o |}).
Proof.
  intros F Htoken Hinv Hnone Hu Hid Hedge.
  unfold AcceptInvite.
  rewrite (eqb_empty_false _ Htoken), !F, Hinv.
  unfold Only. cbv iota beta. rewrite Hnone. simpl.
  unfold Create. simpl.
  rewrite existsb_find.
  assert (Hnew : find (OrganizationMember_conflict
                         {| om_user_id := uid;
                            om_organization_id := inv_organization_id inv;
                            om_role := match inv_role inv with
                                       | InviteRoleAdmin => RoleAdmin
                                       | _ => RoleMember
                                       end;
                            om_created_at := now e 1 |})
                      (organization_members db) = None).
  { destruct (find _ (organization_members db)) as [m|] eqn:Hf;
      [|reflexivity].
    apply find_some in Hf as [Hm Hc].
    apply (proj1 (filter_nil_iff _ _) Hnone) in Hm.
    unfold OrganizationMember_conflict, organizationmember_EQ in *.
    simpl in Hc. rewrite (N.eqb_sym uid), (N.eqb_sym (inv_organization_id inv))
      in Hc. congruence. }
  rewrite Hnew.
  apply filter_singleton_In in Hinv as [Hin _].
  destruct (find (fun r => N.eqb (inv_id r) (inv_id inv)) (invites db))
    as [i0|] eqn:Hfi.
  2:{ apply (find_none _ _ Hfi) in Hin. now rewrite N.eqb_refl in Hin. }
  destruct (find (fun r => N.eqb (user_id r) uid) (users db))
    as [u0|] eqn:Hfu.
  2:{ apply (find_none _ _ Hfu) in Hu. apply N.eqb_neq in Hu. contradiction. }
  rewrite Hedge. unfold accepted, update_user.
  now destruct (inv_role inv).
Qed.

(** The handler is its transaction run on the store its reads saw. *)
Lemma AcceptInvite_phases e uid token db :
  AcceptInvite e (Some uid) token db
  = match AcceptInvite_reads e uid token db with
    | inl resp => (db, resp)
    | inr inv =>
        AcceptInvite_transaction
          e uid inv (Edges_Organization db (inv_organization_id inv)) db
    end.
Proof.
  unfold AcceptInvite, AcceptInvite_reads, AcceptInvite_transaction.
  repeat (case_on; try reflexivity).
Qed.

Lemma AcceptInvite_transaction_cases e uid inv edge db :
  (fst (AcceptInvite_transaction e uid inv edge db) = db
   /\ succeeded (snd (AcceptInvite_transaction e uid inv edge db)) = false)
  \/ fst (AcceptInvite_transaction e uid inv edge db)
     = accepted db uid inv (now e 1) (now e 2).
Proof.
  unfold AcceptInvite_transaction.
  destruct (fault e 2); [now left|].
  destruct (Create _ _ _ _ _) as [members|err] eqn:Hcreate; [|now left].
  destruct (UpdateOneID (fault e 4) _ _ _ _) as [[i invs]|err] eqn:Hstamp;
    [|now left].
  destruct (UpdateOneID (fault e 5) _ _ _ _) as [[u us]|err] eqn:Hlast;
    [|now left].
  destruct (fault e 6); [now left|].
  right.
  apply Create_Ok_inv in Hcreate as (_ & _ & _ & ->).
  apply UpdateOneID_Ok_inv in Hstamp as (_ & _ & ->).
  apply UpdateOneID_Ok_inv in Hlast as (_ & _ & ->).
  now destruct edge.
Qed.

(** C5, as stated, fails on what the transaction contains: the token
    and the membership are read before the transaction is opened and
    are not read again inside it.  When the reads of two requests both
    precede either transaction, the second transaction commits on a
    store in which the token is already redeemed, and one invite yields
    two memberships. *)
Lemma AcceptInvite_transaction_does_not_revalidate :
  let db := example_db_three in
  AcceptInvite_reads reliable 2%N "c0ffee" db = inr acme_invite
  /\ AcceptInvite_reads reliable 3%N "c0ffee" db = inr acme_invite
  /\ let first := AcceptInvite_transaction reliable 2%N acme_invite
                                          (Some acme) db in
     let second := AcceptInvite_transaction reliable 3%N acme_invite
                                            (Some acme) (fst first) in
     succeeded (snd first) = true
     /\ filter (invite_redeemable "c0ffee" (now reliable 0))
               (invites (fst first)) = []
     /\ succeeded (snd second) = true
     /\ map om_user_id (organization_members (fst second)) = [1; 2; 3]%N.
Proof. repeat split. Qed.

(** C5, amended.  [AcceptInvite] (a) validates the token and (b)
    rejects a user who is already a member by reads that precede the
    transaction, and then runs one transaction that commits together
    (c) the membership with the role derived from the invite, (d) the
    used-at stamp and (e) the last-visited organization of the user, or
    nothing at all.  Served on its own, the handler therefore either
    leaves the store exactly as it was and answers with an error, or has
    found (a) and (b) to hold and committed (c), (d) and (e); without
    store faults, a valid token of an organization the user has not
    joined is accepted. *)
Theorem AcceptInvite_atomic
        (e : Env) (userID : option UUID) (token : string) (db : DB) :
  ((fst (AcceptInvite e userID token db) = db
    /\ succeeded (snd (AcceptInvite e userID token db)) = false)
   \/ exists uid inv,
       userID = Some uid
       /\ filter (invite_redeemable token (now e 0)) (invites db) = [inv]
       /\ filter (organizationmember_EQ uid (inv_organization_id inv))
                 (organization_members db) = []
       /\ fst (AcceptInvite e userID token db)
          = accepted db uid inv (now e 1) (now e 2))
  /\ (forall uid,
         userID = Some uid ->
         AcceptInvite e userID token db
         = match AcceptInvite_reads e uid token db with
           | inl resp => (db, resp)
           | inr inv =>
               AcceptInvite_transaction
                 e uid inv (Edges_Organization db (inv_organization_id inv)) db
           end)
  /\ (forall uid inv edge later,
         (fst (AcceptInvite_transaction e uid inv edge later) = later
          /\ succeeded (snd (AcceptInvite_transaction e uid inv edge later))
             = false)
         \/ fst (AcceptInvite_transaction e uid inv edge later)
            = accepted later uid inv (now e 1) (now e 2))
  /\ forall uid inv u o,
      (forall k, fault e k = false) -> token <> "" -> userID = Some uid ->
      filter (invite_redeemable token (now e 0)) (invites db) = [inv] ->
      filter (organizationmember_EQ uid (inv_organization_id inv))
             (organization_members db) = [] ->
      In u (users db) -> user_id u = uid ->
      Edges_Organization db (inv_organization_id inv) = Some o ->
      AcceptInvite e userID token db
      = (accepted db uid inv (now e 1) (now e 2),
         JSON StatusOK
              {| OrganizationResponse_ID := org_id o;
                 OrganizationResponse_Name := org_name o;
                 OrganizationResponse_Slug := org_slug o;
                 OrganizationResponse_Role :=
                   match inv_role inv with
                   | InviteRoleAdmin => "admin"
                   | _ => "member"
                   end;
                 OrganizationResponse_CreatedAt := org_created_at o |}).
Proof.
  split; [|split; [|split]].
  - apply AcceptInvite_cases.
  - intros uid ->. apply AcceptInvite_phases.
  - intros uid inv edge later. apply AcceptInvite_transaction_cases.
  - intros uid inv u o F Htoken -> Hinv Hnone Hu Hid Hedge.
    now apply (AcceptInvite_accepts e token db uid inv u o).
Qed.

Lemma AcceptInvite_atomic_witness :
  AcceptInvite reliable (Some 2%N) "c0ffee" example_db
  = (accepted example_db 2%N acme_invite (now reliable 1) (now reliable 2),
     JSON StatusOK
          {| OrganizationResponse_ID := 10%N;
             OrganizationResponse_Name := "Acme";
             OrganizationResponse_Slug := "acme";
             OrganizationResponse_Role := "member";
             OrganizationResponse_CreatedAt := 30%Z |}).
Proof.
  apply (proj2 (proj2 (proj2 (AcceptInvite_atomic reliable (Some 2%N)
                                             "c0ffee" example_db)))
               2%N acme_invite bob acme).
  - reflexivity.
  - discriminate.
  - reflexivity.
  - reflexivity.
  - reflexivity.
  - simpl; auto.
  - reflexivity.
  - reflexivity.
Defined.

(** ** Handlers that only read *)

Section ReadOnly.
Context {deps : Deps}.
Variable jwtService : auth.JWTService.

Lemma Login_read_only e req db : fst (Login jwtService e req db) = db.
Proof. unfold Login. read_only. Qed.

Lemma RefreshToken_read_only e req db :
  fst (RefreshToken jwtService e req db) = db.
Proof. unfold RefreshToken. read_only. Qed.

Lemma GetMe_read_only e u db : fst (GetMe e u db) = db.
Proof. unfold GetMe. read_only. Qed.

Lemma ListOrganizations_read_only e u db :
  fst (ListOrganizations e u db) = db.
Proof. unfold ListOrganizations. read_only. Qed.

Lemma GetInviteInfo_read_only e token db :
  fst (GetInviteInfo e token db) = db.
Proof. unfold GetInviteInfo. read_only. Qed.

Lemma ListProjects_read_only e u slug db :
  fst (ListProjects e u slug db) = db.
Proof. unfold ListProjects. read_only. Qed.
End ReadOnly.

(** ** The writes of each handler *)

Ltac store_facts :=
  repeat match goal with
    | H : Create _ _ _ _ _ = Ok _ |- _ =>
        apply Create_Ok_inv in H as (? & ? & ? & ->)
    | H : UpdateOneID _ _ _ _ _ = Ok (_, _) |- _ =>
        apply UpdateOneID_Ok_inv in H as (_ & _ & ->)
    | H : Ok _ = Ok _ |- _ => injection H as <-
    end.

Lemma keeps_identity_id : keeps_identity (fun u => u).
Proof. intros u. now split. Qed.

Lemma keeps_identity_compose f g :
  keeps_identity f -> keeps_identity g -> keeps_identity (fun u => f (g u)).
Proof.
  intros Hf Hg u. destruct (Hf (g u)) as [-> ->]. apply Hg.
Qed.

Lemma keeps_identity_SetLastOrgID id : keeps_identity (SetLastOrgID id).
Proof. intros u. now split. Qed.

Lemma keeps_identity_SetLastProjectID id :
  keeps_identity (SetLastProjectID id).
Proof. intros u. now split. Qed.

Lemma keeps_identity_SetDisplayName n : keeps_identity (SetDisplayName n).
Proof. intros u. now split. Qed.

Lemma keeps_identity_clear :
  keeps_identity (fun u => ClearLastProjectID (ClearLastOrgID u)).
Proof. intros u. now split. Qed.

Create HintDb identity.

#[local] Hint Resolve keeps_identity_id keeps_identity_compose
  keeps_identity_SetLastOrgID keeps_identity_SetLastProjectID
  keeps_identity_SetDisplayName keeps_identity_clear : identity.

Ltac user_written :=
  match goal with
  | H : UpdateOneID _ user_id ?id ?set _ = Ok (_, _) |- _ =>
      apply UpdateOneID_Ok_inv in H as (_ & _ & ->);
      right; exists id, set; split; [auto with identity|reflexivity]
  end.

Section Writes.
Context {deps : Deps}.
Variable jwtService : auth.JWTService.

Lemma GetCurrentContext_writes e u db :
  users_written db (fst (GetCurrentContext e u db)).
Proof.
  unfold GetCurrentContext, clear_context, save_users_ignoring_error.
  repeat (case_on; simpl); try (now left); user_written.
Qed.

Lemma GetOrganization_writes e u slug db :
  users_written db (fst (GetOrganization e u slug db)).
Proof.
  unfold GetOrganization, save_users_ignoring_error.
  repeat (case_on; simpl); try (now left); user_written.
Qed.

Lemma GetProject_writes e u slug p db :
  users_written db (fst (GetProject e u slug p db)).
Proof.
  unfold GetProject, save_users_ignoring_error.
  repeat (case_on; simpl); try (now left); user_written.
Qed.

Lemma UpdateContext_org_identity e uid o db update update' :
  UpdateContext_org e uid o db update = inr update' ->
  keeps_identity update -> keeps_identity update'.
Proof.
  unfold UpdateContext_org. intros H Hk. revert H.
  repeat case_on; intros H; try discriminate H; injection H as <-;
    auto with identity.
Qed.

Lemma UpdateContext_project_identity e uid p db update update' :
  UpdateContext_project e uid p db update = inr update' ->
  keeps_identity update -> keeps_identity update'.
Proof.
  unfold UpdateContext_project. intros H Hk. revert H.
  repeat case_on; intros H; try discriminate H; injection H as <-;
    auto with identity.
Qed.

Lemma UpdateContext_writes e u req db :
  users_written db (fst (UpdateContext e u req db)).
Proof.
  unfold UpdateContext.
  repeat (case_on; simpl); try (now left).
  match goal with
  | H : UpdateOneID _ user_id ?id ?set _ = Ok (_, _) |- _ =>
      apply UpdateOneID_Ok_inv in H as (_ & _ & ->);
      right; exists id, set; split; [|reflexivity]
  end.
  eapply UpdateContext_project_identity; [eassumption|].
  eapply UpdateContext_org_identity; [eassumption|].
  auto with identity.
Qed.

Lemma UpdateMe_writes e u req db :
  fst (UpdateMe e u req db) = db
  \/ exists id set,
      keeps_identity set /\ keeps_context set
      /\ fst (UpdateMe e u req db)
         = set_users db (update_user id set (users db)).
Proof.
  unfold UpdateMe.
  repeat (case_on; simpl); try (now left);
    match goal with
    | H : UpdateOneID _ user_id ?id ?set _ = Ok (_, _) |- _ =>
        apply UpdateOneID_Ok_inv in H as (_ & _ & ->);
        right; exists id, set; repeat split; auto with identity
    end.
Qed.

Lemma Register_writes e req db :
  fst (Register jwtService e req db) = db
  \/ exists u,
      existsb (User_conflict u) (users db) = false
      /\ user_last_org_id u = None /\ user_last_project_id u = None
      /\ fst (Register jwtService e req db) = set_users db (users db ++ [u]).
Proof.
  unfold Register.
  repeat (case_on; simpl); try (now left);
    store_facts; right; eexists;
    (repeat split; [eassumption|reflexivity..]).
Qed.

Lemma InviteMember_writes e u slug req db :
  fst (InviteMember e u slug req db) = db
  \/ exists inv,
      existsb (Invite_conflict inv) (invites db) = false
      /\ fst (InviteMember e u slug req db)
         = set_invites db (invites db ++ [inv]).
Proof.
  unfold InviteMember.
  repeat (case_on; simpl); try (now left);
    store_facts; right; eexists; (split; [eassumption|reflexivity]).
Qed.

Lemma AddProjectMember_writes e u slug p req db :
  fst (AddProjectMember e u slug p req db) = db
  \/ exists pm,
      existsb (ProjectMember_conflict pm) (project_members db) = false
      /\ fst (AddProjectMember e u slug p req db)
         = set_project_members db (project_members db ++ [pm]).
Proof.
  unfold AddProjectMember.
  repeat (case_on; simpl); try (now left);
    store_facts; right; eexists; (split; [eassumption|reflexivity]).
Qed.
End Writes.

(** ** Creating organizations and projects *)

Ltac nothing_persisted := left; split; reflexivity.

Lemma CreateOrganization_cases e userID req db :
  (fst (CreateOrganization e userID req db) = db
   /\ succeeded (snd (CreateOrganization e userID req db)) = false)
  \/ exists uid r,
      userID = Some uid /\ req = Some r
      /\ Organization_valid (new_organization e r) = true
      /\ existsb (Organization_conflict (new_organization e r))
                 (organizations db) = false
      /\ existsb (OrganizationMember_conflict (owner_membership e uid))
                 (organization_members db) = false
      /\ existsb (Project_conflict (general_project e)) (projects db) = false
      /\ (exists u, In u (users db) /\ user_id u = uid)
      /\ CreateOrganization e userID req db
         = (organization_created db uid (new_organization e r)
                                 (general_project e) (now e 1),
            JSON StatusCreated
                 {| OrganizationResponse_ID := uuid_New e 0;
                    OrganizationResponse_Name :=
                      CreateOrganizationRequest_Name r;
                    OrganizationResponse_Slug :=
                      CreateOrganizationRequest_Slug r;
                    OrganizationResponse_Role := "owner";
                    OrganizationResponse_CreatedAt := now e 0 |}).
Proof.
  unfold CreateOrganization.
  repeat (case_on; simpl); try nothing_persisted.
  subst. right. do 2 eexists. do 2 (split; [reflexivity|]).
  repeat match goal with
    | H : Create _ _ _ _ _ = Ok _ |- _ =>
        apply Create_Ok_inv in H as (? & _ & ? & ->)
    end.
  match goal with
  | H : UpdateOneID _ _ _ _ _ = Ok (_, _) |- _ =>
      apply UpdateOneID_Ok_inv in H as (_ & (creator & Hfind & _) & ->)
  end.
  simpl in *.
  repeat split; try assumption.
  apply find_some in Hfind as [Hin Hid]. exists creator. split; [exact Hin|].
  now apply N.eqb_eq.
Qed.

Lemma org_and_membership_inv {A} e uid slug db org m :
  @org_and_membership A e uid slug db = inr (org, m) ->
  In org (organizations db) /\ org_slug org = slug
  /\ In m (organization_members db) /\ om_key m = (uid, org_id org).
Proof.
  unfold org_and_membership.
  destruct (Only (fault e 0) _) as [o|] eqn:Ho; [|discriminate].
  destruct (Only (fault e 1) _) as [m'|] eqn:Hm; [|discriminate].
  intros H. injection H as <- <-.
  apply Only_Ok_inv in Ho as [_ Ho]. apply Only_Ok_inv in Hm as [_ Hm].
  apply filter_singleton_In in Ho as [Ho Hs].
  apply filter_singleton_In in Hm as [Hm Hk].
  apply organization_SlugEQ_true in Hs.
  apply organizationmember_EQ_true in Hk. auto.
Qed.

Lemma org_and_membership_error {A} e uid slug db (r : Response A) :
  org_and_membership e uid slug db = inl r -> succeeded r = false.
Proof.
  unfold org_and_membership.
  repeat case_on; intros H; try discriminate H; now injection H as <-.
Qed.

Lemma CreateProject_cases e userID slug req db :
  (fst (CreateProject e userID slug req db) = db
   /\ succeeded (snd (CreateProject e userID slug req db)) = false)
  \/ exists uid r org m,
      userID = Some uid /\ req = Some r
      /\ @org_and_membership ProjectResponse e uid slug db = inr (org, m)
      /\ HasAdminPermission (om_role m) = true
      /\ existsb (Project_conflict (new_project e (org_id org) r))
                 (projects db) = false
      /\ (CreateProjectRequest_IsPrivate r = true ->
          existsb (ProjectMember_conflict (creator_membership e uid))
                  (project_members db) = false)
      /\ CreateProject e userID slug req db
         = (project_created db uid (new_project e (org_id org) r) (now e 1),
            JSON StatusCreated
                 (project_response (new_project e (org_id org) r) "edit")).
Proof.
  unfold CreateProject.
  repeat (case_on; simpl); try nothing_persisted;
    try (left; split; [reflexivity|];
         eapply org_and_membership_error; eassumption);
    subst; right; do 4 eexists; do 2 (split; [reflexivity|]);
    (split; [eassumption|]);
    repeat match goal with
      | H : Create _ _ _ _ _ = Ok _ |- _ =>
          apply Create_Ok_inv in H as (? & _ & ? & ->)
      | H : UpdateOneID _ _ _ _ _ = Ok (_, _) |- _ =>
          apply UpdateOneID_Ok_inv in H as (_ & _ & ->)
      | H : Ok _ = Ok _ |- _ => injection H as <-
      | H : negb _ = false |- _ => apply negb_false_iff in H
      end;
    unfold project_created, new_project in *; simpl in *;
    repeat split; try assumption; try discriminate;
    match goal with
    | H : CreateProjectRequest_IsPrivate _ = _ |- _ => now rewrite H
    end.
Qed.

(** ** Every request evolves the store *)

Lemma evolves_refl db : evolves db db.
Proof.
  constructor; try (now constructor); try (left; now constructor).
Qed.

Lemma users_written_evolves db db' : users_written db db' -> evolves db db'.
Proof.
  intros [->|(id & set & Hset & ->)]; [apply evolves_refl|].
  constructor; simpl; try (now constructor); try (left; now constructor).
  - right. now exists id, set.
Qed.

Lemma no_member_no_conflict uid oid role t ms :
  filter (organizationmember_EQ uid oid) ms = [] ->
  existsb (OrganizationMember_conflict
             {| om_user_id := uid; om_organization_id := oid;
                om_role := role; om_created_at := t |}) ms = false.
Proof.
  intros H. rewrite existsb_find.
  destruct (find _ ms) as [m|] eqn:Hf; [|reflexivity].
  apply find_some in Hf as [Hm Hc].
  apply (proj1 (filter_nil_iff _ _) H) in Hm.
  unfold OrganizationMember_conflict, organizationmember_EQ in *.
  simpl in Hc. rewrite (N.eqb_sym uid), (N.eqb_sym oid) in Hc. congruence.
Qed.

Section Evolution.
Context {deps : Deps}.
Variable jwtService : auth.JWTService.

Lemma exec_evolves e op db : evolves db (exec jwtService e op db).
Proof.
  destruct op; simpl.
  - destruct (Register_writes jwtService e req db)
      as [->|(u & Hu & _ & _ & ->)]; [apply evolves_refl|].
    constructor; simpl; try (now constructor); try (left; now constructor).
    + left. now apply (appended_row _ _ _ u).
  - rewrite Login_read_only. apply evolves_refl.
  - rewrite RefreshToken_read_only. apply evolves_refl.
  - rewrite GetMe_read_only. apply evolves_refl.
  - destruct (UpdateMe_writes e userID req db)
      as [->|(id & set & Hset & _ & ->)]; [apply evolves_refl|].
    apply users_written_evolves. right. now exists id, set.
  - apply users_written_evolves, GetCurrentContext_writes.
  - apply users_written_evolves, UpdateContext_writes.
  - destruct (CreateOrganization_cases e userID req db)
      as [[-> _]|(uid & r & _ & _ & _ & Ho & Hm & Hp & _ & ->)];
      [apply evolves_refl|].
    constructor; simpl; try (now constructor).
    + right. exists uid, (SetLastOrgID (org_id (new_organization e r))).
      split; [apply keeps_identity_SetLastOrgID|reflexivity].
    + now apply (appended_row _ _ _ (new_organization e r)).
    + now apply (appended_row _ _ _ (owner_membership e uid)).
    + now apply (appended_row _ _ _ (general_project e)).
    + intros p Hin. apply in_app_or in Hin as [Hin|[<-|[]]]; [now left|].
      right. exists (new_organization e r). split; [|reflexivity].
      apply in_or_app. right. now left.
    + left. now constructor.
  - rewrite ListOrganizations_read_only. apply evolves_refl.
  - apply users_written_evolves, GetOrganization_writes.
  - destruct (InviteMember_writes e userID slug req db)
      as [->|(inv & Hinv & ->)]; [apply evolves_refl|].
    constructor; simpl; try (now constructor); try (left; now constructor).
    + left. now apply (appended_row _ _ _ inv).
  - destruct (AcceptInvite_cases e userID token db)
      as [[-> _]|(uid & inv & _ & _ & Hnone & ->)]; [apply evolves_refl|].
    constructor; simpl; try (now constructor).
    + right. exists uid, (SetLastOrgID (inv_organization_id inv)).
      split; [apply keeps_identity_SetLastOrgID|reflexivity].
    + eapply appended_row; [|reflexivity].
      now apply no_member_no_conflict.
    + right. now exists (inv_id inv), (now e 2).
  - rewrite GetInviteInfo_read_only. apply evolves_refl.
  - destruct (CreateProject_cases e userID slug req db)
      as [[-> _]|(uid & r & org & m & _ & _ & Hom & _ & Hp & Hpm & ->)];
      [apply evolves_refl|].
    apply org_and_membership_inv in Hom as (Horg & _).
    constructor; simpl; try (now constructor).
    + right. exists uid, (SetLastProjectID (uuid_New e 0)).
      split; [|reflexivity]. intros u. now split.
    + now apply (appended_row _ _ _ (new_project e (org_id org) r)).
    + intros p Hin. apply in_app_or in Hin as [Hin|[<-|[]]]; [now left|].
      right. exists org. now split.
    + destruct (CreateProjectRequest_IsPrivate r); [|now constructor].
      eapply appended_row; [|reflexivity]. now apply Hpm.
    + left. now constructor.
  - rewrite ListProjects_read_only. apply evolves_refl.
  - apply users_written_evolves, GetProject_writes.
  - destruct (AddProjectMember_writes e userID slug projectID req db)
      as [->|(pm & Hpm & ->)]; [apply evolves_refl|].
    constructor; simpl; try (now constructor); try (left; now constructor).
    + now apply (appended_row _ _ _ pm).
Qed.
End Evolution.

(** ** The unique indexes are invariant *)

Lemma appended_NoDup {A K} (key : A -> K) conflict (l l' : list A) :
  (forall row r, key r = key row -> conflict row r = true) ->
  appended conflict l l' -> NoDup (map key l) -> NoDup (map key l').
Proof.
  intros Hc [->|row Hex ->] Hnd; [exact Hnd|].
  rewrite map_app. simpl.
  apply NoDup_app; [exact Hnd|repeat constructor; intros []|].
  intros k Hin [<-|[]].
  apply in_map_iff in Hin as (r & Hk & Hr).
  assert (existsb (conflict row) l = true).
  { apply existsb_exists. exists r. split; [exact Hr|]. now apply Hc. }
  congruence.
Qed.

Lemma appended_incl {A} conflict (l l' : list A) a :
  appended conflict l l' -> In a l -> In a l'.
Proof.
  intros [->|row _ ->] Hin; [exact Hin|]. apply in_or_app. now left.
Qed.

Lemma appended_prefix {A} conflict (l l' : list A) :
  appended conflict l l' -> exists new, l' = l ++ new.
Proof.
  intros [->|row _ ->]; [exists []; now rewrite app_nil_r|now exists [row]].
Qed.

Lemma stamp_invite_id id t l : map inv_id (stamp_invite id t l) = map inv_id l.
Proof. unfold stamp_invite. now apply map_update_key. Qed.

Lemma stamp_invite_token id t l :
  map inv_token (stamp_invite id t l) = map inv_token l.
Proof. unfold stamp_invite. now apply map_update_key. Qed.

Lemma update_user_id id set us :
  keeps_identity set -> map user_id (update_user id set us) = map user_id us.
Proof. intros H. apply map_update_key. intros u. apply H. Qed.

Lemma update_user_email id set us :
  keeps_identity set ->
  map user_email (update_user id set us) = map user_email us.
Proof. intros H. apply map_update_key. intros u. apply H. Qed.

Lemma eqb_pair_conflict (a b c d : UUID) :
  (a, b) = (c, d) -> N.eqb c a && N.eqb d b = true.
Proof. intros H. injection H as -> ->. now rewrite !N.eqb_refl. Qed.

Lemma evolves_wf db db' : evolves db db' -> wf db -> wf db'.
Proof.
  intros Hev Hwf. destruct Hev, Hwf.
  constructor.
  - destruct ev_users0 as [Happ|(id & set & Hset & ->)].
    + apply (appended_NoDup user_id User_conflict _ _) in Happ; auto.
      intros row r Hk. unfold User_conflict.
      now rewrite Hk, N.eqb_refl.
    + now rewrite update_user_id.
  - destruct ev_users0 as [Happ|(id & set & Hset & ->)].
    + apply (appended_NoDup user_email User_conflict _ _) in Happ; auto.
      intros row r Hk. unfold User_conflict.
      now rewrite Hk, String.eqb_refl, orb_true_r.
    + now rewrite update_user_email.
  - apply (appended_NoDup org_id Organization_conflict _ _)
      in ev_organizations0; auto.
    intros row r Hk. unfold Organization_conflict.
    now rewrite Hk, N.eqb_refl.
  - apply (appended_NoDup org_slug Organization_conflict _ _)
      in ev_organizations0; auto.
    intros row r Hk. unfold Organization_conflict.
    now rewrite Hk, String.eqb_refl, orb_true_r.
  - apply (appended_NoDup om_key OrganizationMember_conflict _ _)
      in ev_organization_members0; auto.
    intros row r Hk. now apply eqb_pair_conflict.
  - apply (appended_NoDup proj_id Project_conflict _ _) in ev_projects0; auto.
    intros row r Hk. unfold Project_conflict. now rewrite Hk, N.eqb_refl.
  - apply (appended_NoDup pm_key ProjectMember_conflict _ _)
      in ev_project_members0; auto.
    intros row r Hk. now apply eqb_pair_conflict.
  - destruct ev_invites0 as [Happ|(id & t & ->)].
    + apply (appended_NoDup inv_id Invite_conflict _ _) in Happ; auto.
      intros row r Hk. unfold Invite_conflict. now rewrite Hk, N.eqb_refl.
    + now rewrite stamp_invite_id.
  - destruct ev_invites0 as [Happ|(id & t & ->)].
    + apply (appended_NoDup inv_token Invite_conflict _ _) in Happ; auto.
      intros row r Hk. unfold Invite_conflict.
      now rewrite Hk, String.eqb_refl, orb_true_r.
    + now rewrite stamp_invite_token.
  - intros p Hp. destruct (ev_projects_org0 p Hp) as [Hold|Hnew]; [|exact Hnew].
    destruct (wf_proj_org0 p Hold) as (o & Ho & Hid).
    exists o. split; [|exact Hid].
    now apply (appended_incl _ _ _ _ ev_organizations0).
Qed.

(** ** Redeemed invites stay redeemed *)

Lemma evolves_spent token db db' :
  evolves db db' -> spent token db -> spent token db'.
Proof.
  intros Hev [(i & Hi & Htok) Hused]. unfold spent.
  destruct (ev_invites _ _ Hev) as [[Heq|row Hex Heq]|(id & t & Heq)].
  - rewrite Heq. split; [now exists i|exact Hused].
  - rewrite Heq. split.
    + exists i. split; [apply in_or_app; now left|exact Htok].
    + intros j Hj Hjt. apply in_app_or in Hj as [Hj|[<-|[]]];
        [now apply Hused|].
      exfalso.
      assert (existsb (Invite_conflict row) (invites db) = true);
        [|congruence].
      apply existsb_exists. exists i. split; [exact Hi|].
      unfold Invite_conflict.
      now rewrite Hjt, Htok, String.eqb_refl, orb_true_r.
  - rewrite Heq. unfold stamp_invite. split.
    + exists (if N.eqb (inv_id i) id then SetUsedAt t i else i). split.
      * apply in_map_iff. now exists i.
      * now destruct (N.eqb (inv_id i) id).
    + intros j Hj Hjt. apply in_map_iff in Hj as (j0 & <- & Hj0).
      destruct (N.eqb (inv_id j0) id); [discriminate|].
      now apply Hused.
Qed.

Lemma spent_not_redeemable token t db :
  spent token db -> filter (invite_redeemable token t) (invites db) = [].
Proof.
  intros [_ Hused]. apply filter_none. intros i Hi.
  unfold invite_redeemable.
  destruct (String.eqb_spec (inv_token i) token) as [Htok|]; [|reflexivity].
  specialize (Hused i Hi Htok).
  now destruct (inv_used_at i).
Qed.

Lemma NoDup_map_injective {A K} (key : A -> K) l a b :
  NoDup (map key l) -> In a l -> In b l -> key a = key b -> a = b.
Proof.
  induction l as [|c l IH]; simpl; intros Hnd Ha Hb Hk; [destruct Ha|].
  inversion Hnd as [|? ? Hnotin Hnd']; subst.
  destruct Ha as [->|Ha], Hb as [->|Hb]; auto.
  - exfalso. apply Hnotin. rewrite Hk. now apply in_map.
  - exfalso. apply Hnotin. rewrite <- Hk. now apply in_map.
Qed.

Lemma accepted_spent token t db uid inv joined used :
  wf db ->
  filter (invite_redeemable token t) (invites db) = [inv] ->
  spent token (accepted db uid inv joined used).
Proof.
  intros Hwf Hf. apply filter_singleton_In in Hf as [Hin Hred].
  assert (Htok : inv_token inv = token).
  { unfold invite_redeemable in Hred.
    apply andb_true_iff in Hred as [Hred _].
    apply andb_true_iff in Hred as [Hred _]. now apply String.eqb_eq. }
  unfold spent, accepted, stamp_invite. simpl. split.
  - exists (SetUsedAt used inv). split; [|exact Htok].
    apply in_map_iff. exists inv. now rewrite N.eqb_refl.
  - intros j Hj Hjt. apply in_map_iff in Hj as (j0 & <- & Hj0).
    destruct (N.eqb (inv_id j0) (inv_id inv)) eqn:Hid; [discriminate|].
    exfalso. apply N.eqb_neq in Hid. apply Hid. f_equal.
    apply (NoDup_map_injective inv_token (invites db)); auto.
    + apply Hwf.
    + congruence.
Qed.

Section Reachability.
Context {deps : Deps}.
Variable jwtService : auth.JWTService.

Lemma steps_wf db db' : steps jwtService db db' -> wf db -> wf db'.
Proof.
  induction 1 as [|db db' e op _ IH]; intros Hwf; [exact Hwf|].
  eapply evolves_wf; [apply exec_evolves|auto].
Qed.

Lemma steps_spent token db db' :
  steps jwtService db db' -> spent token db -> spent token db'.
Proof.
  induction 1 as [|db db' e op _ IH]; intros Hs; [exact Hs|].
  eapply evolves_spent; [apply exec_evolves|auto].
Qed.

Lemma steps_project_members db db' :
  steps jwtService db db' ->
  exists new, project_members db' = project_members db ++ new.
Proof.
  induction 1 as [|db db' e op _ [new IH]].
  - exists []. now rewrite app_nil_r.
  - destruct (appended_prefix _ _ _
                (ev_project_members _ _ (exec_evolves jwtService e op db')))
      as [more ->].
    exists (new ++ more). now rewrite IH, app_assoc.
Qed.

Lemma steps_projects db db' :
  steps jwtService db db' ->
  exists new, projects db' = projects db ++ new.
Proof.
  induction 1 as [|db db' e op _ [new IH]].
  - exists []. now rewrite app_nil_r.
  - destruct (appended_prefix _ _ _
                (ev_projects _ _ (exec_evolves jwtService e op db')))
      as [more ->].
    exists (new ++ more). now rewrite IH, app_assoc.
Qed.
End Reachability.

(** ** C2: an invite is redeemed at most once *)

Lemma find_In_Some {A} (p : A -> bool) l a :
  In a l -> p a = true -> exists b, find p l = Some b.
Proof.
  intros Hin Hp. destruct (find p l) as [b|] eqn:Hf; [now exists b|].
  apply (find_none _ _ Hf) in Hin. congruence.
Qed.

Lemma invite_redeemable_token token t inv :
  invite_redeemable token t inv = true -> inv_token inv = token.
Proof.
  unfold invite_redeemable. intros H.
  apply andb_true_iff in H as [H _]. apply andb_true_iff in H as [H _].
  now apply String.eqb_eq.
Qed.

Lemma AcceptInvite_spent e userID token db :
  spent token db ->
  fst (AcceptInvite e (Some userID) token db) = db
  /\ succeeded (snd (AcceptInvite e (Some userID) token db)) = false
  /\ (fault e 0 = false -> token <> "" ->
      snd (AcceptInvite e (Some userID) token db)
      = HTTPError StatusNotFound "invite not found or expired").
Proof.
  intros Hs. unfold AcceptInvite.
  rewrite (spent_not_redeemable token (now e 0) db Hs).
  destruct (String.eqb_spec token "") as [Hempty|Hne]; simpl.
  - repeat split. intros _ Hne. contradiction.
  - unfold Only. destruct (fault e 0); simpl; repeat split.
    discriminate.
Qed.

Lemma AcceptInvite_already_member e uid token db inv m :
  wf db -> fault e 0 = false -> fault e 1 = false -> token <> "" ->
  In inv (invites db) -> invite_redeemable token (now e 0) inv = true ->
  In m (organization_members db) ->
  om_user_id m = uid -> om_organization_id m = inv_organization_id inv ->
  AcceptInvite e (Some uid) token db
  = (db, HTTPError StatusConflict
                   "you are already a member of this organization").
Proof.
  intros Hwf F0 F1 Hne Hinv Hred Hm Hu Ho. unfold AcceptInvite.
  rewrite (eqb_empty_false _ Hne), F0, F1.
  rewrite (Only_selects inv_token _ token _ inv);
    [|apply Hwf|intros b; apply invite_redeemable_token|exact Hinv|exact Hred].
  rewrite Exist_finds.
  destruct (find_In_Some (organizationmember_EQ uid (inv_organization_id inv))
                         (organization_members db) m Hm) as [b ->];
    [|reflexivity].
  apply organizationmember_EQ_true. unfold om_key. now rewrite Hu, Ho.
Qed.

(** C2, as stated, fails for requests that overlap: the handler reads
    the invite before it opens its transaction and stamps it without
    looking at [used_at] again.  When Bob's and Carol's requests both
    read the invite before either commits, Bob's acceptance succeeds
    and stamps the invite, and Carol's, a hundred seconds later with the
    same token, succeeds as well: one token has given two memberships,
    and the later stamp has replaced the earlier one. *)
Lemma AcceptInvite_token_accepted_twice :
  let result :=
    AcceptInvite_interleaved reliable a_while_later 2%N 3%N "c0ffee"
                             example_db_three in
  let joined role :=
    JSON StatusOK
         {| OrganizationResponse_ID := 10%N;
            OrganizationResponse_Name := "Acme";
            OrganizationResponse_Slug := "acme";
            OrganizationResponse_Role := role;
            OrganizationResponse_CreatedAt := 30%Z |} in
  snd (fst result) = joined "member"
  /\ snd result = joined "member"
  /\ map om_user_id (organization_members (fst (fst result))) = [1; 2; 3]%N
  /\ map inv_used_at (invites (fst (fst result)))
     = [Some (now a_while_later 2)]
  /\ now a_while_later 2 <> now reliable 2.
Proof. repeat split. discriminate. Qed.

Section SingleUse.
Context {deps : Deps}.
Variable jwtService : auth.JWTService.

(** C2, amended.  For requests served one after the other: once
    [AcceptInvite] has succeeded for a token, every later call with
    that token, by any user and after any other requests, changes
    nothing and fails, with 404 "invite not found or expired" when the
    store answers.  A call with a redeemable token by a user who is
    already a member of the invite's organization fails with 409 and
    inserts nothing. *)
Theorem AcceptInvite_single_use
        (e : Env) (userID : option UUID) (token : string) (db : DB) :
  wf db ->
  (succeeded (snd (AcceptInvite e userID token db)) = true ->
   forall db', steps jwtService (fst (AcceptInvite e userID token db)) db' ->
   forall e' userID',
     fst (AcceptInvite e' (Some userID') token db') = db'
     /\ succeeded (snd (AcceptInvite e' (Some userID') token db')) = false
     /\ (fault e' 0 = false ->
         snd (AcceptInvite e' (Some userID') token db')
         = HTTPError StatusNotFound "invite not found or expired"))
  /\ (forall uid inv m,
         userID = Some uid ->
         fault e 0 = false -> fault e 1 = false -> token <> "" ->
         In inv (invites db) ->
         invite_redeemable token (now e 0) inv = true ->
         In m (organization_members db) ->
         om_user_id m = uid ->
         om_organization_id m = inv_organization_id inv ->
         AcceptInvite e userID token db
         = (db, HTTPError StatusConflict
                          "you are already a member of this organization")).
Proof.
  intros Hwf. split.
  - intros Hok db' Hsteps e' userID'.
    assert (Hne : token <> "").
    { intros ->. destruct userID; discriminate Hok. }
    destruct (AcceptInvite_cases e userID token db)
      as [[_ Hfail]|(uid & inv & _ & Hinv & _ & Hacc)]; [congruence|].
    rewrite Hacc in Hsteps.
    assert (Hs : spent token db').
    { eapply steps_spent; [exact Hsteps|].
      eapply accepted_spent; eassumption. }
    destruct (AcceptInvite_spent e' userID' token db' Hs) as (H1 & H2 & H3).
    auto.
  - intros uid inv m -> F0 F1 Hne Hinv Hred Hm Hu Ho.
    now apply (AcceptInvite_already_member e uid token db inv m).
Qed.
End SingleUse.

Lemma AcceptInvite_single_use_witness :
  snd (AcceptInvite reliable (Some 1%N) "c0ffee"
         (fst (AcceptInvite reliable (Some 2%N) "c0ffee" example_db)))
  = HTTPError StatusNotFound "invite not found or expired"
  /\ AcceptInvite reliable (Some 1%N) "c0ffee" example_db
     = (example_db,
        HTTPError StatusConflict
                  "you are already a member of this organization").
Proof.
  split.
  - apply (proj1 (@AcceptInvite_single_use example_deps (auth.NewJWTService "")
                    reliable (Some 2%N) "c0ffee" example_db example_db_wf)
                 eq_refl _ (steps_refl _ _) reliable 1%N).
    reflexivity.
  - apply (proj2 (@AcceptInvite_single_use example_deps (auth.NewJWTService "")
                    reliable (Some 1%N) "c0ffee" example_db example_db_wf)
                 1%N acme_invite alice_owns_acme);
      try reflexivity; try discriminate; simpl; auto.
Defined.

(** ** C6: creating an organization *)

Lemma filter_app_new {A} (p : A -> bool) l row :
  filter p l = [] -> p row = true -> filter p (l ++ [row]) = [row].
Proof. intros Hl Hr. rewrite filter_app, Hl. simpl. now rewrite Hr. Qed.

Lemma no_conflict_no_match {A} (conflict : A -> A -> bool) (p : A -> bool)
      row l :
  existsb (conflict row) l = false ->
  (forall r, p r = true -> conflict row r = true) ->
  filter p l = [].
Proof.
  intros Hex Hp. apply filter_none. intros r Hr.
  destruct (p r) eqn:Hpr; [|reflexivity].
  assert (existsb (conflict row) l = true); [|congruence].
  apply existsb_exists. exists r. split; [exact Hr|now apply Hp].
Qed.

Lemma organization_created_rows e uid r db :
  wf db ->
  existsb (Organization_conflict (new_organization e r)) (organizations db)
  = false ->
  existsb (OrganizationMember_conflict (owner_membership e uid))
          (organization_members db) = false ->
  (exists u, In u (users db) /\ user_id u = uid) ->
  let db' := organization_created db uid (new_organization e r)
                                  (general_project e) (now e 1) in
  filter (organization_IDEQ (uuid_New e 0)) (organizations db')
  = [new_organization e r]
  /\ filter (organizationmember_EQ uid (uuid_New e 0))
            (organization_members db')
     = [owner_membership e uid]
  /\ filter (project_OrganizationIDEQ (uuid_New e 0)) (projects db')
     = [general_project e]
  /\ exists lastProject,
      stored_context db' uid = Some (Some (uuid_New e 0), lastProject).
Proof.
  intros Hwf Horg Hmem (u & Hu & Hid). simpl.
  assert (Hfresh : filter (organization_IDEQ (uuid_New e 0)) (organizations db)
                   = []).
  { apply (no_conflict_no_match Organization_conflict _ _ _ Horg).
    intros o Ho. apply organization_IDEQ_true in Ho.
    unfold Organization_conflict. simpl. now rewrite Ho, N.eqb_refl. }
  repeat split.
  - apply filter_app_new; [exact Hfresh|apply N.eqb_refl].
  - apply filter_app_new.
    + apply (no_conflict_no_match OrganizationMember_conflict _ _ _ Hmem).
      intros m Hm. apply organizationmember_EQ_true in Hm.
      now apply eqb_pair_conflict.
    + unfold organizationmember_EQ. simpl. now rewrite !N.eqb_refl.
  - apply filter_app_new; [|apply N.eqb_refl].
    apply filter_none. intros p Hp.
    destruct (project_OrganizationIDEQ (uuid_New e 0) p) eqn:Hpo;
      [|reflexivity].
    apply N.eqb_eq in Hpo.
    destruct (wf_proj_org db Hwf p Hp) as (o & Ho & Hoid).
    apply (proj1 (filter_nil_iff _ _) Hfresh) in Ho.
    apply N.eqb_neq in Ho. congruence.
  - unfold stored_context. simpl.
    rewrite find_update_user by reflexivity.
    destruct (find_In_Some (user_IDEQ uid) (users db) u Hu) as [u0 ->];
      [now apply user_IDEQ_true|].
    simpl. eauto.
Qed.

(** C6, as stated, fails on the name of the default project: it is the
    Japanese word the handler writes, not the string "General". *)
Lemma CreateOrganization_default_project_not_General :
  let req := {| CreateOrganizationRequest_Name := "Globex";
                CreateOrganizationRequest_Slug := "globex" |} in
  let result := CreateOrganization reliable (Some 1%N) (Some req) example_db in
  succeeded (snd result) = true
  /\ filter (fun p => project_OrganizationIDEQ 100%N p
                      && String.eqb (proj_name p) "General")
            (projects (fst result)) = []
  /\ map proj_name
         (filter (project_OrganizationIDEQ 100%N) (projects (fst result)))
     = [default_project_name].
Proof. repeat split. Qed.

(** C6, amended.  [CreateOrganization] either persists nothing and
    answers with an error, or it answers 201 and has committed together
    the organization O, exactly one membership of the caller in O (role
    owner), exactly one project of O (public, named by
    [default_project_name]) and O as the caller's last-visited
    organization. *)
Theorem CreateOrganization_atomic
        (e : Env) (userID : option UUID)
        (req : option CreateOrganizationRequest) (db : DB) :
  wf db ->
  (fst (CreateOrganization e userID req db) = db
   /\ succeeded (snd (CreateOrganization e userID req db)) = false)
  \/ exists uid r,
      userID = Some uid /\ req = Some r
      /\ CreateOrganization e userID req db
         = (organization_created db uid (new_organization e r)
                                 (general_project e) (now e 1),
            JSON StatusCreated
                 {| OrganizationResponse_ID := uuid_New e 0;
                    OrganizationResponse_Name :=
                      CreateOrganizationRequest_Name r;
                    OrganizationResponse_Slug :=
                      CreateOrganizationRequest_Slug r;
                    OrganizationResponse_Role := "owner";
                    OrganizationResponse_CreatedAt := now e 0 |})
      /\ let db' := fst (CreateOrganization e userID req db) in
         filter (organization_IDEQ (uuid_New e 0)) (organizations db')
         = [new_organization e r]
         /\ filter (organizationmember_EQ uid (uuid_New e 0))
                   (organization_members db')
            = [{| om_user_id := uid; om_organization_id := uuid_New e 0;
                  om_role := RoleOwner; om_created_at := now e 1 |}]
         /\ filter (project_OrganizationIDEQ (uuid_New e 0)) (projects db')
            = [{| proj_id := uuid_New e 1;
                  proj_organization_id := uuid_New e 0;
                  proj_name := default_project_name;
                  proj_is_private := false;
                  proj_created_at := now e 2 |}]
         /\ exists lastProject,
             stored_context db' uid = Some (Some (uuid_New e 0), lastProject).
Proof.
  intros Hwf.
  destruct (CreateOrganization_cases e userID req db)
    as [Hfail|(uid & r & -> & -> & _ & Horg & Hmem & _ & Hu & Heq)];
    [now left|].
  right. exists uid, r. do 3 (split; [auto|]).
  rewrite Heq. cbv zeta. unfold fst.
  now apply organization_created_rows.
Qed.

Lemma CreateOrganization_atomic_witness :
  let req := {| CreateOrganizationRequest_Name := "Globex";
                CreateOrganizationRequest_Slug := "globex" |} in
  (fst (CreateOrganization reliable (Some 1%N) (Some req) example_db)
   = example_db
   /\ succeeded (snd (CreateOrganization reliable (Some 1%N) (Some req)
                                         example_db)) = false)
  \/ exists uid r,
      Some 1%N = Some uid /\ Some req = Some r
      /\ CreateOrganization reliable (Some 1%N) (Some req) example_db
         = (organization_created example_db uid (new_organization reliable r)
                                 (general_project reliable) (now reliable 1),
            JSON StatusCreated
                 {| OrganizationResponse_ID := uuid_New reliable 0;
                    OrganizationResponse_Name :=
                      CreateOrganizationRequest_Name r;
                    OrganizationResponse_Slug :=
                      CreateOrganizationRequest_Slug r;
                    OrganizationResponse_Role := "owner";
                    OrganizationResponse_CreatedAt := now reliable 0 |})
      /\ let db' := fst (CreateOrganization reliable (Some 1%N) (Some req)
                                            example_db) in
         filter (organization_IDEQ (uuid_New reliable 0)) (organizations db')
         = [new_organization reliable r]
         /\ filter (organizationmember_EQ uid (uuid_New reliable 0))
                   (organization_members db')
            = [{| om_user_id := uid;
                  om_organization_id := uuid_New reliable 0;
                  om_role := RoleOwner; om_created_at := now reliable 1 |}]
         /\ filter (project_OrganizationIDEQ (uuid_New reliable 0))
                   (projects db')
            = [{| proj_id := uuid_New reliable 1;
                  proj_organization_id := uuid_New reliable 0;
                  proj_name := default_project_name;
                  proj_is_private := false;
                  proj_created_at := now reliable 2 |}]
         /\ exists lastProject,
             stored_context db' uid
             = Some (Some (uuid_New reliable 0), lastProject).
Proof.
  intros req.
  apply (CreateOrganization_atomic reliable (Some 1%N) (Some req) example_db).
  exact example_db_wf.
Defined.

(** ** C8: updating the context *)

Section Context_update.
Context {deps : Deps}.



Lemma UpdateContext_org_error e uid o db update r :
  UpdateContext_org e uid o db update = inl r -> succeeded r = false.
Proof.
  unfold UpdateContext_org.
  repeat case_on; intros H; try discriminate H; now injection H as <-.
Qed.

Lemma UpdateContext_project_error e uid p db update r :
  UpdateContext_project e uid p db update = inl r -> succeeded r = false.
Proof.
  unfold UpdateContext_project.
  repeat case_on; intros H; try discriminate H; now injection H as <-.
Qed.







End Context_update.


(** ** C10: the creator of a private project *)

Lemma no_conflict_find_none {A} (conflict : A -> A -> bool) (p : A -> bool)
      row l :
  existsb (conflict row) l = false ->
  (forall r, p r = true -> conflict row r = true) ->
  find p l = None.
Proof.
  intros Hex Hp. destruct (find p l) as [r|] eqn:Hf; [|reflexivity].
  apply find_some in Hf as [Hin Hr].
  assert (existsb (conflict row) l = true); [|congruence].
  apply existsb_exists. exists r. split; [exact Hin|now apply Hp].
Qed.

Section Creator.
Context {deps : Deps}.
Variable jwtService : auth.JWTService.

Lemma creator_keeps_edit e uid orgID r db db' :
  CreateProjectRequest_IsPrivate r = true ->
  existsb (ProjectMember_conflict (creator_membership e uid))
          (project_members db) = false ->
  steps jwtService
        (project_created db uid (new_project e orgID r) (now e 1)) db' ->
  In (new_project e orgID r) (projects db')
  /\ ResolveProjectPermission db' uid (new_project e orgID r)
     = Granted PermissionEdit.
Proof.
  intros Hpriv Hfresh Hsteps.
  destruct (steps_projects jwtService _ _ Hsteps) as [ps Hps].
  destruct (steps_project_members jwtService _ _ Hsteps) as [pms Hpms].
  simpl in Hps, Hpms. rewrite Hpriv in Hpms. split.
  - rewrite Hps. apply in_or_app. left. apply in_or_app. right. now left.
  - unfold ResolveProjectPermission, explicit_grant. simpl.
    rewrite Hpriv, Hpms, <- app_assoc.
    rewrite find_app_None.
    + simpl. unfold projectmember_EQ. simpl. now rewrite !N.eqb_refl.
    + apply (no_conflict_find_none ProjectMember_conflict _ _ _ Hfresh).
      intros m Hm. apply projectmember_EQ_true in Hm.
      now apply eqb_pair_conflict.
Qed.

(** C10.  [CreateProject] either persists nothing and answers with an
    error, or answers 201 with permission "edit" and has committed the
    project together with, when it is private, a ProjectMember row
    giving the creator edit -- so that from then on, whatever requests
    follow, the creator resolves to edit on it -- and, when it is
    public, with no ProjectMember row at all. *)
Theorem CreateProject_creator_membership
        (e : Env) (userID : option UUID) (slug : string)
        (req : option CreateProjectRequest) (db : DB) :
  (fst (CreateProject e userID slug req db) = db
   /\ succeeded (snd (CreateProject e userID slug req db)) = false)
  \/ exists uid r orgID,
      userID = Some uid /\ req = Some r
      /\ CreateProject e userID slug req db
         = (project_created db uid (new_project e orgID r) (now e 1),
            JSON StatusCreated
                 (project_response (new_project e orgID r) "edit"))
      /\ (CreateProjectRequest_IsPrivate r = true ->
          project_members (fst (CreateProject e userID slug req db))
          = project_members db
            ++ [{| pm_user_id := uid;
                   pm_project_id := uuid_New e 0;
                   pm_permission := PermissionEdit;
                   pm_created_at := now e 1 |}]
          /\ forall db',
              steps jwtService (fst (CreateProject e userID slug req db)) db' ->
              In (new_project e orgID r) (projects db')
              /\ ResolveProjectPermission db' uid (new_project e orgID r)
                 = Granted PermissionEdit)
      /\ (CreateProjectRequest_IsPrivate r = false ->
          project_members (fst (CreateProject e userID slug req db))
          = project_members db).
Proof.
  destruct (CreateProject_cases e userID slug req db)
    as [Hfail|(uid & r & org & m & -> & -> & _ & _ & _ & Hpm & Heq)];
    [now left|].
  right. exists uid, r, (org_id org). do 3 (split; [auto|]).
  rewrite Heq. simpl. split; intros Hpriv; rewrite Hpriv; [|reflexivity].
  split; [reflexivity|].
  intros db' Hsteps.
  apply (creator_keeps_edit e uid (org_id org) r db db' Hpriv (Hpm Hpriv)).
  exact Hsteps.
Qed.
End Creator.

Lemma CreateProject_creator_membership_witness :
  let req := {| CreateProjectRequest_Name := "Secret";
                CreateProjectRequest_IsPrivate := true |} in
  let result := CreateProject reliable (Some 1%N) "acme" (Some req) example_db in
  succeeded (snd result) = true
  /\ exists orgID,
      project_members (fst result)
      = [{| pm_user_id := 1%N; pm_project_id := 100%N;
            pm_permission := PermissionEdit;
            pm_created_at := now reliable 1 |}]
      /\ ResolveProjectPermission (fst result) 1%N
                                  (new_project reliable orgID req)
         = Granted PermissionEdit.
Proof.
  intros req result.
  destruct (@CreateProject_creator_membership example_deps
              (auth.NewJWTService "") reliable (Some 1%N) "acme" (Some req)
              example_db)
    as [[_ Hfail]|(uid & r & orgID & Hu & Hr & _ & Hprivate & _)].
  - discriminate Hfail.
  - injection Hu as <-. injection Hr as <-.
    destruct (Hprivate eq_refl) as [Hrow Hkeeps].
    split; [reflexivity|].
    exists orgID. split; [exact Hrow|].
    apply (Hkeeps _ (steps_refl _ _)).
Defined.

(** ** C9: who writes the last-visited pointers *)

(** C9, as stated, fails: fetching an organization is not a
    context-update operation, and it stores the organization as the
    caller's last visited one. *)
Lemma GetOrganization_writes_last_organization :
  context_operation (OpGetOrganization (Some 1%N) "acme") = false
  /\ stored_context example_db 1%N = Some (None, None)
  /\ stored_context
       (@exec example_deps (auth.NewJWTService "") reliable
              (OpGetOrganization (Some 1%N) "acme") example_db) 1%N
     = Some (Some 10%N, None)
  /\ stored_context
       (@exec example_deps (auth.NewJWTService "") reliable
              (OpGetOrganization (Some 1%N) "acme") example_db) 1%N
     <> stored_context example_db 1%N.
Proof. repeat split. discriminate. Qed.

Section Frame.
Context {deps : Deps}.
Variable jwtService : auth.JWTService.

Lemma stored_context_appended uid c db u :
  stored_context db uid = Some c ->
  stored_context (set_users db (users db ++ [u])) uid = Some c.
Proof.
  unfold stored_context. simpl.
  destruct (find (user_IDEQ uid) (users db)) as [v|] eqn:Hf; [|discriminate].
  now rewrite (find_app_Some _ _ _ _ Hf).
Qed.

Lemma stored_context_updated uid id set db :
  keeps_identity set -> keeps_context set ->
  stored_context (set_users db (update_user id set (users db))) uid
  = stored_context db uid.
Proof.
  intros Hid Hctx. unfold stored_context, update_user, user_IDEQ. simpl.
  induction (users db) as [|u us IH]; simpl; [reflexivity|].
  destruct (N.eqb (user_id u) id).
  - destruct (Hid u) as [-> _].
    destruct (N.eqb (user_id u) uid); [|exact IH].
    now destruct (Hctx u) as [-> ->].
  - destruct (N.eqb (user_id u) uid); [reflexivity|exact IH].
Qed.

Lemma GetCurrentContext_clears e u db :
  fst (GetCurrentContext e u db) = db
  \/ exists id,
      fst (GetCurrentContext e u db)
      = set_users db
          (update_user id (fun u => ClearLastProjectID (ClearLastOrgID u))
                       (users db)).
Proof.
  unfold GetCurrentContext, clear_context, save_users_ignoring_error.
  repeat (case_on; simpl); try (now left);
    match goal with
    | H : UpdateOneID _ user_id ?id _ _ = Ok (_, _) |- _ =>
        apply UpdateOneID_Ok_inv in H as (_ & _ & ->);
        right; now exists id
    end.
Qed.

Lemma stored_context_cleared uid id db c :
  stored_context db uid = Some c ->
  let db' := set_users db
               (update_user id (fun u => ClearLastProjectID (ClearLastOrgID u))
                            (users db)) in
  stored_context db' uid = Some c \/ stored_context db' uid = Some (None, None).
Proof.
  unfold stored_context, update_user, user_IDEQ. simpl.
  induction (users db) as [|u us IH]; simpl; [discriminate|].
  destruct (N.eqb (user_id u) id) eqn:Hid; simpl.
  - destruct (N.eqb (user_id u) uid); [now right|exact IH].
  - destruct (N.eqb (user_id u) uid); [now left|exact IH].
Qed.

(** C9, amended.  An operation other than the context operations
    ([GetCurrentContext], [UpdateContext]) and the five handlers that
    record what they serve ([GetOrganization], [GetProject],
    [CreateOrganization], [CreateProject], [AcceptInvite]) leaves the
    last-visited pointers of every user as they were; and all
    [GetCurrentContext] ever does to them is to clear both. *)
Theorem last_visited_frame (e : Env) (op : Op) (db : DB) :
  (writes_context op = false ->
   forall uid c,
     stored_context db uid = Some c ->
     stored_context (exec jwtService e op db) uid = Some c)
  /\ (forall caller uid c,
         op = OpGetCurrentContext caller ->
         stored_context db uid = Some c ->
         stored_context (exec jwtService e op db) uid = Some c
         \/ stored_context (exec jwtService e op db) uid = Some (None, None)).
Proof.
  split.
  - intros Hop uid c Hc. destruct op; try discriminate Hop; simpl.
    + destruct (Register_writes jwtService e req db)
        as [->|(u & _ & _ & _ & ->)]; [exact Hc|].
      now apply stored_context_appended.
    + now rewrite Login_read_only.
    + now rewrite RefreshToken_read_only.
    + now rewrite GetMe_read_only.
    + destruct (UpdateMe_writes e userID req db)
        as [->|(id & set & Hid & Hctx & ->)]; [exact Hc|].
      now rewrite stored_context_updated.
    + now rewrite ListOrganizations_read_only.
    + destruct (InviteMember_writes e userID slug req db)
        as [->|(inv & _ & ->)]; exact Hc.
    + now rewrite GetInviteInfo_read_only.
    + now rewrite ListProjects_read_only.
    + destruct (AddProjectMember_writes e userID slug projectID req db)
        as [->|(pm & _ & ->)]; exact Hc.
  - intros caller uid c -> Hc. simpl.
    destruct (GetCurrentContext_clears e caller db) as [->|[id ->]];
      [now left|].
    now apply stored_context_cleared.
Qed.
End Frame.

Lemma last_visited_frame_witness :
  stored_context
    (@exec example_deps (auth.NewJWTService "") reliable
           (OpUpdateMe (Some 2%N) (Some (Some "Robert"))) example_db) 2%N
  = Some (Some 11%N, Some 21%N).
Proof.
  apply (proj1 (@last_visited_frame example_deps (auth.NewJWTService "")
                  reliable (OpUpdateMe (Some 2%N) (Some (Some "Robert")))
                  example_db)
               eq_refl 2%N).
  reflexivity.
Defined.

(** Each of the seven writers does write, on the example store. *)
Example context_writers_write :
  let run := @exec example_deps (auth.NewJWTService "") reliable in
  let secret := run (OpCreateProject (Some 1%N) "acme"
                       (Some {| CreateProjectRequest_Name := "Secret";
                                CreateProjectRequest_IsPrivate := true |}))
                    example_db in
  stored_context (run (OpGetCurrentContext (Some 2%N)) example_db) 2%N
  = Some (None, None)
  /\ stored_context
       (run (OpUpdateContext (Some 1%N)
               (Some {| OrgID := Some (UUID_String 10); ProjectID := None |}))
            example_db) 1%N
     = Some (Some 10%N, None)
  /\ stored_context
       (run (OpCreateOrganization (Some 1%N)
               (Some {| CreateOrganizationRequest_Name := "Globex";
                        CreateOrganizationRequest_Slug := "globex" |}))
            example_db) 1%N
     = Some (Some 100%N, None)
  /\ stored_context (run (OpAcceptInvite (Some 2%N) "c0ffee") example_db) 2%N
     = Some (Some 10%N, Some 21%N)
  /\ stored_context secret 1%N = Some (None, Some 100%N)
  /\ stored_context
       (run (OpGetProject (Some 1%N) "acme" (UUID_String 100)) secret) 1%N
     = Some (Some 10%N, Some 100%N).
Proof. repeat split. Qed.

(** ** C7: the access token round trip *)

Lemma NewNumericDate_le t : (jwt.NewNumericDate t <= t)%Z.
Proof.
  unfold jwt.NewNumericDate, jwt.TimePrecision, Second.
  pose proof (Z.mod_pos_bound t 1000000000). lia.
Qed.

(** C7, as stated, fails within the last second: the expiry claim is
    the issue time plus 15 minutes truncated to a whole second, so a
    token issued at 0.5 s is already expired at 900.2 s, 899.7 s after
    it was issued. *)
Lemma access_token_expires_within_15_minutes :
  let s := auth.NewJWTService "" in
  let clock := fun _ : nat => 500000000%Z in
  let t := 900200000000%Z in
  (t - clock 0%nat < 15 * Minute)%Z
  /\ @auth.ValidateAccessToken example_deps s
       (auth.AccessToken
          (@auth.GenerateTokenPair example_deps s clock 1%N
                                   "alice@example.com" "Alice")) t
     = inl auth.ErrExpiredToken.
Proof. split; reflexivity. Qed.

Section RoundTrip.
Context {deps : Deps}.
Import jwt auth.

(** C7, amended.  The access token of an issued pair validates to the
    user id, email and display name it was issued for at any time from
    its issuance up to, but not including, its expiry claim, which is
    the issue time plus the 15-minute access expiry truncated to a
    whole second; from that instant on validation fails with the
    expired-token error. *)
Theorem access_token_round_trip
        (secret : string) (clock : nat -> Time) (userID : UUID)
        (email displayName : string) (t : Time) :
  let s := NewJWTService secret in
  let pair := GenerateTokenPair s clock userID email displayName in
  let expiry := NewNumericDate (clock 0%nat + 15 * Minute) in
  (clock 2%nat <= t)%Z ->
  ExpiresIn pair = 900%Z
  /\ ((t < expiry)%Z ->
      exists claims,
        ValidateAccessToken s (AccessToken pair) t = inr claims
        /\ UserID claims = userID /\ Email claims = email
        /\ DisplayName claims = displayName)
  /\ ((expiry <= t)%Z ->
      ValidateAccessToken s (AccessToken pair) t = inl ErrExpiredToken).
Proof.
  intros s pair expiry Hissued.
  assert (Hnbf : (t <? NewNumericDate (clock 2%nat))%Z = false).
  { apply Z.ltb_ge. pose proof (NewNumericDate_le (clock 2%nat)). lia. }
  split; [reflexivity|].
  unfold ValidateAccessToken, pair, GenerateTokenPair, GenerateAccessToken,
    SignedString, ParseWithClaims, Verify, keyFunc, Validate.
  cbn [AccessToken is_HMAC p_registered ExpiresAt NotBefore accessExpiry
       secretKey s NewJWTService andb negb].
  rewrite String.eqb_refl, Hnbf. cbn [negb].
  fold expiry. split; intros Ht.
  - apply Z.ltb_lt in Ht. rewrite Ht. simpl.
    eexists. split; [reflexivity|]. now repeat split.
  - apply Z.ltb_ge in Ht. rewrite Ht. reflexivity.
Qed.
End RoundTrip.

Lemma access_token_round_trip_witness :
  let s := auth.NewJWTService "" in
  let clock := fun _ : nat => 500000000%Z in
  let pair := @auth.GenerateTokenPair example_deps s clock 1%N
                                      "alice@example.com" "Alice" in
  @auth.ValidateAccessToken example_deps s (auth.AccessToken pair)
                            900200000000%Z
  = inl auth.ErrExpiredToken
  /\ exists claims,
      @auth.ValidateAccessToken example_deps s (auth.AccessToken pair)
                                899900000000%Z
      = inr claims
      /\ auth.UserID claims = 1%N
      /\ auth.Email claims = "alice@example.com"
      /\ auth.DisplayName claims = "Alice".
Proof.
  intros s clock pair. split.
  - apply (@access_token_round_trip example_deps "" clock 1%N
             "alice@example.com" "Alice" 900200000000%Z).
    + unfold clock. lia.
    + vm_compute. discriminate.
  - apply (@access_token_round_trip example_deps "" clock 1%N
             "alice@example.com" "Alice" 899900000000%Z).
    + unfold clock. lia.
    + vm_compute. reflexivity.
Defined.

(** * Further properties of the code *)

(** ** The slug pattern *)

Lemma concat_hyphen_cons c r runs :
  String.concat "-" (String c r :: runs)
  = String c (String.concat "-" (r :: runs)).
Proof. destruct runs; reflexivity. Qed.

Lemma slug_runs_sound s :
  forall b, slug_runs b s = true ->
  exists r runs,
    Forall (fun c => is_lower_or_digit c = true) (list_ascii_of_string r)
    /\ (b = false -> r <> "")
    /\ Forall alnum_run runs
    /\ s = String.concat "-" (r :: runs).
Proof.
  induction s as [|c s IH]; simpl; intros b H.
  - exists "", []. subst b. repeat split; try constructor. discriminate.
  - destruct (is_lower_or_digit c) eqn:Hc.
    + destruct (IH true H) as (r & runs & Hr & _ & Hruns & ->).
      exists (String c r), runs. repeat split; auto.
      * simpl. now constructor.
      * discriminate.
      * symmetry. apply concat_hyphen_cons.
    + destruct (Ascii.eqb_spec c "-") as [->|]; [|discriminate].
      apply andb_true_iff in H as [-> H].
      destruct (IH false H) as (r & runs & Hr & Hne & Hruns & ->).
      exists "", (r :: runs). split; [constructor|].
      split; [discriminate|]. split; [|reflexivity].
      constructor; [|exact Hruns]. split; [now apply Hne|exact Hr].
Qed.

Lemma slug_runs_run r :
  Forall (fun c => is_lower_or_digit c = true) (list_ascii_of_string r) ->
  forall b t,
    slug_runs b (r ++ t)
    = slug_runs (b || match r with "" => false | _ => true end) t.
Proof.
  induction r as [|c r IH]; simpl; intros H b t.
  - now rewrite orb_false_r.
  - inversion H as [|? ? Hc Hr]; subst. rewrite Hc, (IH Hr).
    simpl. now rewrite orb_true_r.
Qed.

Lemma append_empty_r s : (s ++ "")%string = s.
Proof. induction s as [|c s IH]; simpl; [reflexivity|now rewrite IH]. Qed.

Lemma slug_runs_hyphen b u :
  slug_runs b (String "-" u) = b && slug_runs false u.
Proof. reflexivity. Qed.

Lemma slug_runs_complete runs :
  Forall alnum_run runs ->
  forall r b,
    Forall (fun c => is_lower_or_digit c = true) (list_ascii_of_string r) ->
    b = true \/ r <> "" ->
    slug_runs b (String.concat "-" (r :: runs)) = true.
Proof.
  induction 1 as [|r2 rs [Hne2 Hr2] Hrs IH]; intros r b Hr Hstart.
  - simpl. rewrite <- (append_empty_r r), (slug_runs_run r Hr). simpl.
    destruct Hstart as [->|Hne]; [reflexivity|].
    destruct r; [contradiction|apply orb_true_r].
  - change (String.concat "-" (r :: r2 :: rs))
      with (r ++ "-" ++ String.concat "-" (r2 :: rs))%string.
    rewrite (slug_runs_run r Hr).
    change ("-" ++ String.concat "-" (r2 :: rs))%string
      with (String "-" (String.concat "-" (r2 :: rs))).
    rewrite slug_runs_hyphen.
    rewrite (IH r2 false Hr2 (or_intror Hne2)), andb_true_r.
    destruct Hstart as [->|Hne]; [reflexivity|].
    destruct r; [contradiction|apply orb_true_r].
Qed.

(** X1.  The matcher of the slug pattern accepts exactly the strings
    made of one non-empty run of lowercase letters and digits followed
    by any number of such runs, each led by one hyphen. *)
Theorem slugRegex_Match_language (s : string) :
  slugRegex_Match s = true <-> slug_language s.
Proof.
  unfold slugRegex_Match, slug_language. split.
  - intros H.
    destruct (slug_runs_sound s false H) as (r & runs & Hr & Hne & Hruns & ->).
    exists r, runs. repeat split; auto.
  - intros (r & runs & [Hne Hr] & Hruns & ->).
    apply slug_runs_complete; auto.
Qed.

(** ** Refusals of [CreateOrganization] *)

(** X2.  [CreateOrganization] answers 409 when the slug is taken, and
    500 -- not a validation error -- when a free slug does not match the
    slug pattern, which only the insert checks; neither persists
    anything. *)
Theorem CreateOrganization_slug_refusals
        (e : Env) (userID : UUID) (req : CreateOrganizationRequest) (db : DB) :
  fault e 0 = false -> fault e 1 = false ->
  CreateOrganizationRequest_Name req <> "" ->
  CreateOrganizationRequest_Slug req <> "" ->
  ((exists o, In o (organizations db)
              /\ org_slug o = CreateOrganizationRequest_Slug req) ->
   CreateOrganization e (Some userID) (Some req) db
   = (db, HTTPError StatusConflict "slug is already taken"))
  /\ ((forall o, In o (organizations db) ->
                 org_slug o <> CreateOrganizationRequest_Slug req) ->
      slugRegex_Match (CreateOrganizationRequest_Slug req) = false ->
      CreateOrganization e (Some userID) (Some req) db
      = (db, HTTPError StatusInternalServerError
                       "failed to create organization")).
Proof.
  intros F0 F1 Hname Hslug.
  unfold CreateOrganization, validate_CreateOrganizationRequest.
  rewrite (eqb_empty_false _ Hname), (eqb_empty_false _ Hslug), F0, F1.
  rewrite Exist_finds. split.
  - intros (o & Ho & Hs).
    destruct (find_In_Some (organization_SlugEQ
                              (CreateOrganizationRequest_Slug req))
                           (organizations db) o Ho) as [o' ->];
      [now apply organization_SlugEQ_true|reflexivity].
  - intros Hfree Hbad.
    destruct (find _ (organizations db)) as [o|] eqn:Hf.
    + apply find_some in Hf as [Ho Hs].
      apply organization_SlugEQ_true in Hs. now apply Hfree in Ho.
    + unfold Create, Organization_valid. simpl.
      now rewrite Hbad, !andb_false_r.
Qed.

Lemma CreateOrganization_slug_refusals_witness :
  CreateOrganization reliable (Some 2%N)
    (Some {| CreateOrganizationRequest_Name := "Acme again";
             CreateOrganizationRequest_Slug := "acme" |}) example_db
  = (example_db, HTTPError StatusConflict "slug is already taken")
  /\ CreateOrganization reliable (Some 2%N)
       (Some {| CreateOrganizationRequest_Name := "Big Co";
                CreateOrganizationRequest_Slug := "Big Co" |}) example_db
     = (example_db,
        HTTPError StatusInternalServerError "failed to create organization").
Proof.
  split.
  - apply (proj1 (CreateOrganization_slug_refusals reliable 2%N
                    {| CreateOrganizationRequest_Name := "Acme again";
                       CreateOrganizationRequest_Slug := "acme" |}
                    example_db eq_refl eq_refl
                    ltac:(discriminate) ltac:(discriminate))).
    exists acme. simpl. auto.
  - apply (proj2 (CreateOrganization_slug_refusals reliable 2%N
                    {| CreateOrganizationRequest_Name := "Big Co";
                       CreateOrganizationRequest_Slug := "Big Co" |}
                    example_db eq_refl eq_refl
                    ltac:(discriminate) ltac:(discriminate))).
    + simpl. intros o [<-|[]]. discriminate.
    + reflexivity.
Defined.

(** ** Administration is for owners and admins *)

Lemma example_db_joined_wf : wf example_db_joined.
Proof.
  apply (evolves_wf example_db); [|exact example_db_wf].
  exact (@exec_evolves example_deps (auth.NewJWTService "") reliable
           (OpAcceptInvite (Some 2%N) "c0ffee") example_db).
Qed.

Section Administration.
Context {deps : Deps}.

(** X3.  A user whose role in the organization is member is refused
    with 403 by [CreateProject], [InviteMember] and [AddProjectMember],
    and the store stays as it was. *)
Theorem members_cannot_administer
        (e : Env) (userID : UUID) (db : DB) (org : Organization)
        (m : OrganizationMember) :
  wf db -> fault e 0 = false -> fault e 1 = false ->
  In org (organizations db) -> org_slug org <> "" ->
  In m (organization_members db) ->
  om_user_id m = userID -> om_organization_id m = org_id org ->
  om_role m = RoleMember ->
  (forall req,
      CreateProjectRequest_Name req <> "" ->
      CreateProject e (Some userID) (org_slug org) (Some req) db
      = (db, HTTPError StatusForbidden
                       "only owners and admins can create projects"))
  /\ (forall req,
         validate_InviteRequest req = None ->
         InviteMember e (Some userID) (org_slug org) (Some req) db
         = (db, HTTPError StatusForbidden
                          "only owners and admins can invite members"))
  /\ (forall projectIDStr req projectID targetUserID,
         projectIDStr <> "" ->
         uuid_Parse projectIDStr = Some projectID ->
         uuid_Parse (AddProjectMemberRequest_UserID req) = Some targetUserID ->
         AddProjectMember e (Some userID) (org_slug org) projectIDStr
                          (Some req) db
         = (db, HTTPError StatusForbidden
                          "only owners and admins can manage project members")).
Proof.
  intros Hwf F0 F1 Horg Hslug Hm Hu Ho Hrole. repeat split.
  - intros req Hname. unfold CreateProject.
    rewrite (eqb_empty_false _ Hslug), (eqb_empty_false _ Hname).
    rewrite (org_and_membership_ok e userID db org m); auto.
    now rewrite Hrole.
  - intros req Hvalid. unfold InviteMember.
    rewrite (eqb_empty_false _ Hslug), Hvalid.
    rewrite (org_and_membership_ok e userID db org m); auto.
    now rewrite Hrole.
  - intros projectIDStr req projectID targetUserID Hstr Hp Ht.
    unfold AddProjectMember.
    rewrite (eqb_empty_false _ Hslug), (eqb_empty_false _ Hstr). simpl.
    rewrite Hp, Ht.
    rewrite (org_and_membership_ok e userID db org m); auto.
    now rewrite Hrole.
Qed.
End Administration.

Lemma members_cannot_administer_witness :
  CreateProject reliable (Some 2%N) "acme"
    (Some {| CreateProjectRequest_Name := "Mine";
             CreateProjectRequest_IsPrivate := false |}) example_db_joined
  = (example_db_joined,
     HTTPError StatusForbidden "only owners and admins can create projects").
Proof.
  apply (proj1 (@members_cannot_administer example_deps reliable 2%N
                  example_db_joined acme
                  {| om_user_id := 2%N; om_organization_id := 10%N;
                     om_role := RoleMember; om_created_at := now reliable 1 |}
                  example_db_joined_wf eq_refl eq_refl
                  (or_introl eq_refl) ltac:(discriminate)
                  (or_intror (or_introl eq_refl)) eq_refl eq_refl eq_refl)).
  discriminate.
Defined.

(** ** Invariants of the store *)

Lemma grows_refl db : grows db db.
Proof. repeat split; exists []; now rewrite app_nil_r. Qed.

Lemma grows_trans a b c : grows a b -> grows b c -> grows a c.
Proof.
  intros (U1 & O1 & M1 & P1 & Q1 & I1) (U2 & O2 & M2 & P2 & Q2 & I2).
  repeat split.
  - destruct U1 as [x Hx], U2 as [y Hy]. exists (x ++ y).
    now rewrite Hy, Hx, app_assoc.
  - destruct O1 as [x Hx], O2 as [y Hy]. exists (x ++ y).
    now rewrite Hy, Hx, app_assoc.
  - destruct M1 as [x Hx], M2 as [y Hy]. exists (x ++ y).
    now rewrite Hy, Hx, app_assoc.
  - destruct P1 as [x Hx], P2 as [y Hy]. exists (x ++ y).
    now rewrite Hy, Hx, app_assoc.
  - destruct Q1 as [x Hx], Q2 as [y Hy]. exists (x ++ y).
    now rewrite Hy, Hx, app_assoc.
  - destruct I1 as [x Hx], I2 as [y Hy]. exists (x ++ y).
    now rewrite Hy, Hx, app_assoc.
Qed.

Lemma appended_map_prefix {A K} (key : A -> K) conflict (l l' : list A) :
  appended conflict l l' -> exists new, map key l' = map key l ++ new.
Proof.
  intros H. destruct (appended_prefix _ _ _ H) as [new ->].
  exists (map key new). apply map_app.
Qed.

Lemma evolves_grows db db' : evolves db db' -> grows db db'.
Proof.
  intros H. destruct H. unfold grows. split; [|split; [|split; [|split; [|split]]]].
  - destruct ev_users0 as [Happ|(id & set & Hset & Heq)].
    + now apply (appended_map_prefix user_id) in Happ.
    + exists []. rewrite Heq, update_user_id by exact Hset.
      now rewrite app_nil_r.
  - now apply appended_prefix in ev_organizations0.
  - now apply appended_prefix in ev_organization_members0.
  - now apply appended_prefix in ev_projects0.
  - now apply appended_prefix in ev_project_members0.
  - destruct ev_invites0 as [Happ|(id & t & Heq)].
    + now apply (appended_map_prefix inv_id) in Happ.
    + exists []. now rewrite Heq, stamp_invite_id, app_nil_r.
Qed.

Section Invariants.
Context {deps : Deps}.
Variable jwtService : auth.JWTService.

(** X4.  The unique indexes of the schema (user id and email,
    organization id and slug, one membership per user and organization,
    project id, one project membership per user and project, invite id
    and token) and the organization edge of every project hold after
    any sequence of requests on a store where they held. *)
Theorem requests_keep_unique_indexes (db db' : DB) :
  wf db -> steps jwtService db db' -> wf db'.
Proof. intros Hwf Hsteps. exact (steps_wf jwtService db db' Hsteps Hwf). Qed.

(** X5.  No request removes or reorders a row: after any sequence of
    requests every table extends what it was; organizations,
    memberships, projects and project memberships are kept unchanged (so
    no role or permission is ever changed or revoked), and users and
    invites keep their identifiers. *)
Theorem requests_never_remove_rows (db db' : DB) :
  steps jwtService db db' -> grows db db'.
Proof.
  induction 1 as [|db db' e op _ IH]; [apply grows_refl|].
  eapply grows_trans; [exact IH|].
  apply evolves_grows, exec_evolves.
Qed.

(** X6.  [Login], [RefreshToken], [GetMe], [ListOrganizations],
    [GetInviteInfo] and [ListProjects] never write: whatever the request
    and however the store answers, it is left as it was. *)
Theorem read_endpoints_never_write (e : Env) (db : DB) :
  (forall req, fst (Login jwtService e req db) = db)
  /\ (forall req, fst (RefreshToken jwtService e req db) = db)
  /\ (forall userID, fst (GetMe e userID db) = db)
  /\ (forall userID, fst (ListOrganizations e userID db) = db)
  /\ (forall token, fst (GetInviteInfo e token db) = db)
  /\ (forall userID slug, fst (ListProjects e userID slug db) = db).
Proof.
  repeat split; intros.
  - apply Login_read_only.
  - apply RefreshToken_read_only.
  - apply GetMe_read_only.
  - apply ListOrganizations_read_only.
  - apply GetInviteInfo_read_only.
  - apply ListProjects_read_only.
Qed.
End Invariants.

Lemma requests_keep_unique_indexes_witness :
  wf (@exec example_deps (auth.NewJWTService "") reliable
            (OpCreateOrganization (Some 1%N)
               (Some {| CreateOrganizationRequest_Name := "Globex";
                        CreateOrganizationRequest_Slug := "globex" |}))
            example_db_joined).
Proof.
  apply (@requests_keep_unique_indexes example_deps (auth.NewJWTService "")
           example_db).
  - exact example_db_wf.
  - apply steps_request.
    exact (steps_request _ _ _ reliable (OpAcceptInvite (Some 2%N) "c0ffee")
                         (steps_refl _ example_db)).
Defined.

Lemma requests_never_remove_rows_witness :
  grows example_db
        (@exec example_deps (auth.NewJWTService "") reliable
               (OpAcceptInvite (Some 2%N) "c0ffee") example_db).
Proof.
  apply (@requests_never_remove_rows example_deps (auth.NewJWTService "")).
  exact (steps_request _ _ _ reliable (OpAcceptInvite (Some 2%N) "c0ffee")
                       (steps_refl _ example_db)).
Defined.

(** ** Restoring a valid context *)

Lemma organization_Only db org :
  wf db -> In org (organizations db) ->
  Only false (filter (organization_IDEQ (org_id org)) (organizations db))
  = Ok org.
Proof.
  intros Hwf Hin.
  apply (Only_selects org_id _ (org_id org)); [apply Hwf| |exact Hin|].
  - intros b. apply organization_IDEQ_true.
  - now apply organization_IDEQ_true.
Qed.

Lemma membership_Only db m :
  wf db -> In m (organization_members db) ->
  Only false
       (filter (organizationmember_EQ (om_user_id m) (om_organization_id m))
               (organization_members db))
  = Ok m.
Proof.
  intros Hwf Hin.
  apply (Only_selects om_key _ (om_user_id m, om_organization_id m));
    [apply Hwf| |exact Hin|].
  - intros b. apply organizationmember_EQ_true.
  - now apply organizationmember_EQ_true.
Qed.

Lemma GetCurrentContext_restores
        (e : Env) (userID : UUID) (db : DB) (user : User)
        (org : Organization) (m : OrganizationMember) :
  wf db -> (forall k, fault e k = false) ->
  In user (users db) -> user_id user = userID ->
  user_last_org_id user = Some (org_id org) ->
  In org (organizations db) ->
  In m (organization_members db) ->
  om_user_id m = userID -> om_organization_id m = org_id org ->
  GetCurrentContext e (Some userID) db
  = (db,
     JSON StatusOK
       match user_last_project_id user with
       | None => organization_context org m
       | Some projectID =>
           match find (fun p => project_IDEQ projectID p
                                && project_OrganizationIDEQ (org_id org) p)
                      (projects db) with
           | None => organization_context org m
           | Some proj =>
               match ResolveProjectPermission db userID proj with
               | Forbidden => organization_context org m
               | Granted perm => project_context org m proj perm
               end
           end
       end).
Proof.
  intros Hwf F Hu Hid Hlast Horg Hm Hmu Hmo. unfold GetCurrentContext.
  rewrite !F, <- Hid, (user_Only db user Hwf Hu), Hlast.
  rewrite (organization_Only db org Hwf Horg). cbv iota beta.
  pose proof (membership_Only db m Hwf Hm) as HM. rewrite Hmu, Hmo in HM.
  rewrite Hid, HM. cbv iota beta.
  destruct (user_last_project_id user) as [projectID|]; [|reflexivity].
  rewrite (Only_finds proj_id _ projectID);
    [|apply Hwf|intros b Hb; now apply project_in_org_true in Hb].
  destruct (find _ (projects db)) as [proj|]; [|reflexivity].
  cbv iota beta.
  rewrite !(explicit_Only db userID (proj_id proj) Hwf).
  unfold ResolveProjectPermission.
  destruct (proj_is_private proj),
    (explicit_grant db userID (proj_id proj)) as [pm|];
    try reflexivity.
  now destruct (pm_permission pm).
Qed.

(** X7.  With a stored last organization that exists and of which the
    user is a member, [GetCurrentContext] writes nothing and answers the
    organization's home with the user's role; a stored last project
    narrows the answer to the project's page exactly when the project
    belongs to that organization and the user's permission on it
    resolves, and is otherwise ignored and left stored. *)
Theorem GetCurrentContext_valid_organization
        (e : Env) (userID : UUID) (db : DB) (user : User)
        (org : Organization) (m : OrganizationMember) :
  wf db -> (forall k, fault e k = false) ->
  In user (users db) -> user_id user = userID ->
  user_last_org_id user = Some (org_id org) ->
  In org (organizations db) ->
  In m (organization_members db) ->
  om_user_id m = userID -> om_organization_id m = org_id org ->
  GetCurrentContext e (Some userID) db
  = (db,
     JSON StatusOK
       match user_last_project_id user with
       | None => organization_context org m
       | Some projectID =>
           match find (fun p => project_IDEQ projectID p
                                && project_OrganizationIDEQ (org_id org) p)
                      (projects db) with
           | None => organization_context org m
           | Some proj =>
               match ResolveProjectPermission db userID proj with
               | Forbidden => organization_context org m
               | Granted perm => project_context org m proj perm
               end
           end
       end).
Proof. apply GetCurrentContext_restores. Qed.

Lemma GetCurrentContext_valid_organization_witness :
  GetCurrentContext reliable (Some 2%N) example_db_two
  = (example_db_two,
     JSON StatusOK
          (project_context globex bob_owns_globex launch PermissionView)).
Proof.
  apply (GetCurrentContext_valid_organization reliable 2%N example_db_two bob
           globex bob_owns_globex).
  - exact example_db_two_wf.
  - reflexivity.
  - simpl; auto.
  - reflexivity.
  - reflexivity.
  - simpl; auto.
  - simpl; auto.
  - reflexivity.
  - reflexivity.
Defined.

(** ** Storing a context and restoring it *)

Lemma Exist_true_inv {A} flt (p : A -> bool) (l : list A) :
  Exist flt (filter p l) = Ok true -> exists a, In a l /\ p a = true.
Proof.
  unfold Exist. destruct flt; [discriminate|].
  destruct (filter p l) as [|a r] eqn:Hf; [discriminate|].
  intros _. exists a. apply filter_In. rewrite Hf. now left.
Qed.

Lemma wf_update_user db id set :
  keeps_identity set -> wf db ->
  wf (set_users db (update_user id set (users db))).
Proof.
  intros Hk Hwf. apply (evolves_wf db); [|exact Hwf].
  apply users_written_evolves. right. now exists id, set.
Qed.

Lemma In_update_user id set us u :
  find (user_IDEQ id) us = Some u -> In (set u) (update_user id set us).
Proof.
  intros Hf. apply find_some in Hf as [Hin Hid]. unfold user_IDEQ in Hid.
  unfold update_user. apply in_map_iff. exists u. now rewrite Hid.
Qed.

Section Context_round_trip.
Context {deps : Deps}.

Lemma UpdateContext_project_access e uid s db update update' :
  UpdateContext_project e uid (Some s) db update = inr update' ->
  exists proj m,
    uuid_Parse s = Some (proj_id proj) /\ In proj (projects db)
    /\ In m (organization_members db)
    /\ om_key m = (uid, proj_organization_id proj)
    /\ (proj_is_private proj = true ->
        exists pm, explicit_grant db uid (proj_id proj) = Some pm)
    /\ update' = (fun u => SetLastOrgID (proj_organization_id proj)
                             (SetLastProjectID (proj_id proj) (update u))).
Proof.
  unfold UpdateContext_project.
  destruct (uuid_Parse s) as [p|]; [|discriminate].
  destruct (Only (fault e 1) _) as [proj|] eqn:Hproj; [|discriminate].
  apply Only_Ok_inv in Hproj as [_ Hproj].
  apply filter_singleton_In in Hproj as [Hin Hid].
  apply N.eqb_eq in Hid. subst p.
  destruct (Exist (fault e 2) _) as [[|]|] eqn:Hm; try discriminate.
  apply Exist_true_inv in Hm as (m & Hm & Hk).
  apply organizationmember_EQ_true in Hk.
  destruct (proj_is_private proj) eqn:Hpriv.
  - destruct (Exist (fault e 3) _) as [[|]|] eqn:Hpm; try discriminate.
    apply Exist_true_inv in Hpm as (pm & Hpm & Hpk).
    destruct (find_In_Some _ _ _ Hpm Hpk) as [pm' Hf].
    intros H. injection H as <-. exists proj, m.
    split; [reflexivity|]. split; [exact Hin|]. split; [exact Hm|].
    split; [exact Hk|]. split; [|reflexivity]. intros _. now exists pm'.
  - intros H. injection H as <-. exists proj, m.
    split; [reflexivity|]. split; [exact Hin|]. split; [exact Hm|].
    split; [exact Hk|]. split; [|reflexivity]. congruence.
Qed.

(** X8.  A successful [UpdateContext] that names a project is read back
    by the next [GetCurrentContext]: it answers that project and its
    organization, with the user's role in the organization and the
    permission the project resolves to, and writes nothing. *)
Theorem UpdateContext_then_GetCurrentContext
        (e e' : Env) (userID : UUID) (orgID : option string) (s : string)
        (db : DB) :
  wf db -> (forall k, fault e' k = false) ->
  succeeded (snd (UpdateContext e (Some userID)
                    (Some {| OrgID := orgID; ProjectID := Some s |}) db))
  = true ->
  exists org m proj perm,
    In org (organizations db) /\ In m (organization_members db)
    /\ In proj (projects db)
    /\ uuid_Parse s = Some (proj_id proj)
    /\ org_id org = proj_organization_id proj
    /\ om_key m = (userID, org_id org)
    /\ ResolveProjectPermission db userID proj = Granted perm
    /\ GetCurrentContext e' (Some userID)
         (fst (UpdateContext e (Some userID)
                 (Some {| OrgID := orgID; ProjectID := Some s |}) db))
       = (fst (UpdateContext e (Some userID)
                 (Some {| OrgID := orgID; ProjectID := Some s |}) db),
          JSON StatusOK (project_context org m proj perm)).
Proof.
  intros Hwf F. unfold UpdateContext. cbn [OrgID ProjectID].
  destruct (UpdateContext_org e userID orgID db (fun u => u))
    as [r|update] eqn:Ho.
  { apply UpdateContext_org_error in Ho. simpl. congruence. }
  destruct (UpdateContext_project e userID (Some s) db update)
    as [r|update'] eqn:Hp.
  { apply UpdateContext_project_error in Hp. simpl. congruence. }
  assert (Hk : keeps_identity update).
  { eapply UpdateContext_org_identity; [exact Ho|apply keeps_identity_id]. }
  assert (Hk' : keeps_identity update').
  { eapply UpdateContext_project_identity; [exact Hp|exact Hk]. }
  apply UpdateContext_project_access in Hp
    as (proj & m & Hs & Hin & Hm & Hmk & Hpriv & Hupd).
  destruct (UpdateOneID _ _ _ _ _) as [[u us]|] eqn:Hu; [|discriminate].
  intros _. cbn [fst snd].
  apply UpdateOneID_Ok_inv in Hu as (_ & (u0 & Hfind & _) & ->).
  fold (update_user userID update' (users db)).
  destruct (wf_proj_org db Hwf proj Hin) as (org & Horg & Hoid).
  assert (Hperm : exists perm,
             ResolveProjectPermission db userID proj = Granted perm).
  { unfold ResolveProjectPermission.
    destruct (proj_is_private proj).
    - destruct (Hpriv eq_refl) as [pm ->]. eauto.
    - destruct (explicit_grant db userID (proj_id proj)) as [pm|]; eauto.
      destruct (pm_permission pm); eauto. }
  destruct Hperm as [perm Hperm].
  exists org, m, proj, perm. rewrite Hoid.
  repeat split; auto.
  assert (Huid : user_id u0 = userID).
  { apply find_some in Hfind as [_ H]. now apply N.eqb_eq in H. }
  rewrite (GetCurrentContext_restores e' userID _ (update' u0) org m).
  - rewrite Hupd. cbn [user_last_project_id SetLastOrgID SetLastProjectID
                       projects set_users].
    rewrite (find_selects proj_id _ (proj_id proj) _ proj);
      [|apply Hwf|intros b Hb; now apply project_in_org_true in Hb|exact Hin
       |apply project_in_org_true; now split].
    change (ResolveProjectPermission (set_users db _) userID proj)
      with (ResolveProjectPermission db userID proj).
    now rewrite Hperm.
  - now apply wf_update_user.
  - exact F.
  - now apply In_update_user.
  - now destruct (Hk' u0) as [-> _].
  - rewrite Hupd, Hoid. reflexivity.
  - exact Horg.
  - exact Hm.
  - unfold om_key in Hmk. now injection Hmk.
  - rewrite Hoid. unfold om_key in Hmk. now injection Hmk.
Qed.
End Context_round_trip.

Lemma UpdateContext_then_GetCurrentContext_witness :
  exists org m proj perm,
    In org (organizations example_db_two)
    /\ In m (organization_members example_db_two)
    /\ In proj (projects example_db_two)
    /\ @uuid_Parse example_deps (UUID_String 21) = Some (proj_id proj)
    /\ org_id org = proj_organization_id proj
    /\ om_key m = (2%N, org_id org)
    /\ ResolveProjectPermission example_db_two 2%N proj = Granted perm
    /\ GetCurrentContext reliable (Some 2%N)
         (fst (@UpdateContext example_deps reliable (Some 2%N)
                 (Some {| OrgID := None;
                          ProjectID := Some (UUID_String 21) |})
                 example_db_two))
       = (fst (@UpdateContext example_deps reliable (Some 2%N)
                 (Some {| OrgID := None;
                          ProjectID := Some (UUID_String 21) |})
                 example_db_two),
          JSON StatusOK (project_context org m proj perm)).
Proof.
  apply (@UpdateContext_then_GetCurrentContext example_deps reliable reliable
           2%N None (UUID_String 21) example_db_two).
  - exact example_db_two_wf.
  - reflexivity.
  - vm_compute. reflexivity.
Defined.

(** ** Tenant isolation *)

Lemma org_and_membership_stranger {A} e userID db org :
  wf db -> fault e 0 = false -> fault e 1 = false ->
  In org (organizations db) ->
  (forall m, In m (organization_members db) ->
             om_key m <> (userID, org_id org)) ->
  @org_and_membership A e userID (org_slug org) db
  = inl (HTTPError StatusForbidden
                   "you are not a member of this organization").
Proof.
  intros Hwf F0 F1 Horg Hnone. unfold org_and_membership.
  rewrite F0, F1.
  rewrite (Only_selects org_slug _ (org_slug org) _ org);
    [|apply Hwf|intros b; apply organization_SlugEQ_true|exact Horg
     |now apply organization_SlugEQ_true].
  rewrite filter_none; [reflexivity|].
  intros m Hm. destruct (organizationmember_EQ userID (org_id org) m) eqn:Hk;
    [|reflexivity].
  apply organizationmember_EQ_true in Hk. now apply Hnone in Hm.
Qed.

Section Isolation.
Context {deps : Deps}.

(** X9.  A user without a membership row in an organization is refused
    with 403 by every endpoint addressed through the organization's
    slug, reading or writing, and the store, the user's last-visited
    pointers included, stays as it was. *)
Theorem strangers_are_refused
        (e : Env) (userID : UUID) (db : DB) (org : Organization) :
  wf db -> fault e 0 = false -> fault e 1 = false ->
  In org (organizations db) -> org_slug org <> "" ->
  (forall m, In m (organization_members db) ->
             om_key m <> (userID, org_id org)) ->
  let refused {A} : Response A :=
    HTTPError StatusForbidden "you are not a member of this organization" in
  GetOrganization e (Some userID) (org_slug org) db = (db, refused)
  /\ ListProjects e (Some userID) (org_slug org) db = (db, refused)
  /\ (forall projectIDStr projectID,
         projectIDStr <> "" -> uuid_Parse projectIDStr = Some projectID ->
         GetProject e (Some userID) (org_slug org) projectIDStr db
         = (db, refused))
  /\ (forall req,
         CreateProjectRequest_Name req <> "" ->
         CreateProject e (Some userID) (org_slug org) (Some req) db
         = (db, refused))
  /\ (forall req,
         validate_InviteRequest req = None ->
         InviteMember e (Some userID) (org_slug org) (Some req) db
         = (db, refused))
  /\ (forall projectIDStr req projectID targetUserID,
         projectIDStr <> "" ->
         uuid_Parse projectIDStr = Some projectID ->
         uuid_Parse (AddProjectMemberRequest_UserID req) = Some targetUserID ->
         AddProjectMember e (Some userID) (org_slug org) projectIDStr
                          (Some req) db
         = (db, refused)).
Proof.
  intros Hwf F0 F1 Horg Hslug Hnone refused. repeat split.
  - unfold GetOrganization. rewrite (eqb_empty_false _ Hslug).
    now rewrite (org_and_membership_stranger e userID db org).
  - unfold ListProjects. rewrite (eqb_empty_false _ Hslug).
    now rewrite (org_and_membership_stranger e userID db org).
  - intros projectIDStr projectID Hstr Hp. unfold GetProject.
    rewrite (eqb_empty_false _ Hslug), (eqb_empty_false _ Hstr). simpl.
    rewrite Hp.
    now rewrite (org_and_membership_stranger e userID db org).
  - intros req Hname. unfold CreateProject.
    rewrite (eqb_empty_false _ Hslug), (eqb_empty_false _ Hname).
    now rewrite (org_and_membership_stranger e userID db org).
  - intros req Hvalid. unfold InviteMember.
    rewrite (eqb_empty_false _ Hslug), Hvalid.
    now rewrite (org_and_membership_stranger e userID db org).
  - intros projectIDStr req projectID targetUserID Hstr Hp Ht.
    unfold AddProjectMember.
    rewrite (eqb_empty_false _ Hslug), (eqb_empty_false _ Hstr). simpl.
    rewrite Hp, Ht.
    now rewrite (org_and_membership_stranger e userID db org).
Qed.

Lemma foreign_project_not_found db org projectID :
  (forall p, In p (projects db) -> proj_id p = projectID ->
             proj_organization_id p <> org_id org) ->
  filter (fun p => project_IDEQ projectID p
                   && project_OrganizationIDEQ (org_id org) p) (projects db)
  = [].
Proof.
  intros H. apply filter_none. intros p Hp.
  destruct (project_IDEQ projectID p && project_OrganizationIDEQ (org_id org) p)
    eqn:Hk; [|reflexivity].
  apply project_in_org_true in Hk as [Hid Ho]. now apply H in Hp.
Qed.

(** X10.  A project is reachable only through the slug of its own
    organization: for a member of the addressed organization,
    [GetProject] answers 404 for the id of a project of another
    organization exactly as for an id that names no project, and so
    does [AddProjectMember] for an administrator; the store stays as it
    was. *)
Theorem projects_are_scoped_to_their_organization
        (e : Env) (userID : UUID) (db : DB) (org : Organization)
        (m : OrganizationMember) (projectIDStr : string) (projectID : UUID) :
  wf db -> (forall k, fault e k = false) ->
  In org (organizations db) -> org_slug org <> "" ->
  In m (organization_members db) ->
  om_user_id m = userID -> om_organization_id m = org_id org ->
  projectIDStr <> "" -> uuid_Parse projectIDStr = Some projectID ->
  (forall p, In p (projects db) -> proj_id p = projectID ->
             proj_organization_id p <> org_id org) ->
  GetProject e (Some userID) (org_slug org) projectIDStr db
  = (db, HTTPError StatusNotFound "project not found")
  /\ (forall req target tm,
         HasAdminPermission (om_role m) = true ->
         uuid_Parse (AddProjectMemberRequest_UserID req) = Some target ->
         In tm (organization_members db) ->
         om_key tm = (target, org_id org) ->
         AddProjectMember e (Some userID) (org_slug org) projectIDStr
                          (Some req) db
         = (db, HTTPError StatusNotFound "project not found")).
Proof.
  intros Hwf F Horg Hslug Hm Hu Ho Hstr Hp Hforeign. split.
  - unfold GetProject.
    rewrite (eqb_empty_false _ Hslug), (eqb_empty_false _ Hstr). simpl.
    rewrite Hp, (org_and_membership_ok e userID db org m); auto.
    now rewrite F, foreign_project_not_found.
  - intros req target tm Hadmin Ht Htm Hk. unfold AddProjectMember.
    rewrite (eqb_empty_false _ Hslug), (eqb_empty_false _ Hstr). simpl.
    rewrite Hp, Ht, (org_and_membership_ok e userID db org m); auto.
    rewrite Hadmin, !F. cbn [negb].
    rewrite (Only_selects om_key _ (target, org_id org) _ tm);
      [|apply Hwf|intros b; apply organizationmember_EQ_true|exact Htm
       |now apply organizationmember_EQ_true].
    now rewrite foreign_project_not_found.
Qed.
End Isolation.

Lemma strangers_are_refused_witness :
  GetOrganization reliable (Some 2%N) "acme" example_db
  = (example_db,
     HTTPError StatusForbidden "you are not a member of this organization").
Proof.
  apply (proj1 (@strangers_are_refused example_deps reliable 2%N example_db
                  acme example_db_wf eq_refl eq_refl (or_introl eq_refl)
                  ltac:(discriminate)
                  ltac:(intros m [<-|[]]; discriminate))).
Defined.

Lemma projects_are_scoped_to_their_organization_witness :
  @GetProject example_deps reliable (Some 2%N) "globex" (UUID_String 20)
              example_db_two
  = (example_db_two, HTTPError StatusNotFound "project not found").
Proof.
  apply (proj1 (@projects_are_scoped_to_their_organization
                  example_deps reliable 2%N example_db_two globex
                  bob_owns_globex (UUID_String 20) 20%N
                  example_db_two_wf (fun _ => eq_refl)
                  (or_intror (or_introl eq_refl)) ltac:(discriminate)
                  (or_intror (or_introl eq_refl)) eq_refl eq_refl
                  ltac:(discriminate) eq_refl
                  ltac:(intros p [<-|[<-|[]]]; simpl; discriminate))).
Defined.

(** ** Granting access to a project *)

Lemma no_grant_no_conflict db target projectID perm t :
  explicit_grant db target projectID = None ->
  existsb (ProjectMember_conflict
             {| pm_user_id := target; pm_project_id := projectID;
                pm_permission := perm; pm_created_at := t |})
          (project_members db) = false.
Proof.
  unfold explicit_grant. intros H. rewrite existsb_find.
  destruct (find (ProjectMember_conflict _) _) as [r|] eqn:Hf; [|reflexivity].
  apply find_some in Hf as [Hin Hc].
  apply (find_none _ _ H) in Hin.
  unfold ProjectMember_conflict, projectmember_EQ in *. simpl in Hc.
  rewrite (N.eqb_sym target), (N.eqb_sym projectID) in Hc. congruence.
Qed.

Lemma with_project_member_wf db pm :
  wf db ->
  existsb (ProjectMember_conflict pm) (project_members db) = false ->
  wf (with_project_member db pm).
Proof.
  intros Hwf Hex. destruct Hwf. constructor; simpl; auto.
  apply (appended_NoDup pm_key ProjectMember_conflict (project_members db));
    [|now apply (appended_row _ _ _ pm)|assumption].
  intros row r Hk. unfold pm_key in Hk. now apply eqb_pair_conflict.
Qed.

Lemma explicit_grant_added db pm :
  explicit_grant db (pm_user_id pm) (pm_project_id pm) = None ->
  explicit_grant (with_project_member db pm) (pm_user_id pm) (pm_project_id pm)
  = Some pm.
Proof.
  unfold explicit_grant. intros H. simpl.
  rewrite (find_app_None _ _ _ H). simpl.
  unfold projectmember_EQ. now rewrite !N.eqb_refl.
Qed.

Section Granting.
Context {deps : Deps}.

Lemma AddProjectMember_outcome
      e userID db org m target tm tu proj projectIDStr req :
  wf db -> (forall k, fault e k = false) ->
  In org (organizations db) -> org_slug org <> "" ->
  In m (organization_members db) ->
  om_user_id m = userID -> om_organization_id m = org_id org ->
  HasAdminPermission (om_role m) = true ->
  In tm (organization_members db) -> om_key tm = (target, org_id org) ->
  In tu (users db) -> user_id tu = target ->
  In proj (projects db) -> proj_organization_id proj = org_id org ->
  projectIDStr <> "" -> uuid_Parse projectIDStr = Some (proj_id proj) ->
  uuid_Parse (AddProjectMemberRequest_UserID req) = Some target ->
  AddProjectMember e (Some userID) (org_slug org) projectIDStr (Some req) db
  = match explicit_grant db target (proj_id proj) with
    | Some _ =>
        (db,
         HTTPError StatusConflict "user is already a member of this project")
    | None =>
        (with_project_member db
           {| pm_user_id := target; pm_project_id := proj_id proj;
              pm_permission := requested_permission req;
              pm_created_at := now e 0 |},
         JSON StatusCreated
              {| ProjectMemberResponse_UserID := target;
                 ProjectMemberResponse_Email := user_email tu;
                 ProjectMemberResponse_DisplayName := user_display_name tu;
                 ProjectMemberResponse_Permission :=
                   Permission_string (requested_permission req);
                 ProjectMemberResponse_JoinedAt := now e 0 |})
    end.
Proof.
  intros Hwf F Horg Hslug Hm Hu Ho Hadmin Htm Htk Htu Htid Hproj Hpo Hstr Hp Ht.
  unfold AddProjectMember.
  rewrite (eqb_empty_false _ Hslug), (eqb_empty_false _ Hstr). simpl orb.
  cbv iota. rewrite Hp, Ht, (org_and_membership_ok e userID db org m); auto.
  rewrite Hadmin, !F. cbn [negb].
  rewrite (Only_selects om_key _ (target, org_id org) _ tm);
    [|apply Hwf|intros b; apply organizationmember_EQ_true|exact Htm
     |now apply organizationmember_EQ_true].
  rewrite <- Hpo, (project_Only db proj Hwf Hproj).
  rewrite Exist_finds. fold (explicit_grant db target (proj_id proj)).
  destruct (explicit_grant db target (proj_id proj)) as [pm|] eqn:Hg;
    [reflexivity|].
  fold (requested_permission req). unfold Create. cbn [negb].
  rewrite (no_grant_no_conflict db target (proj_id proj) _ _ Hg).
  cbv iota beta zeta. cbn [users set_project_members].
  rewrite <- Htid, (user_Only db tu Hwf Htu). reflexivity.
Qed.

(** X11.  When an administrator of the organization adds a member of
    the organization to one of its projects, the request is refused
    with 409 if the user already holds a row on the project; otherwise
    one row is appended and the user's permission on the project then
    resolves to edit when the requested string is "edit" and to view
    for every other string, and the same request sent again is refused
    with 409 and adds nothing. *)
Theorem AddProjectMember_grants
        (e e' : Env) (userID : UUID) (db : DB) (org : Organization)
        (m : OrganizationMember) (target : UUID) (tm : OrganizationMember)
        (tu : User) (proj : Project) (projectIDStr : string)
        (req : AddProjectMemberRequest) :
  wf db -> (forall k, fault e k = false) -> (forall k, fault e' k = false) ->
  In org (organizations db) -> org_slug org <> "" ->
  In m (organization_members db) ->
  om_user_id m = userID -> om_organization_id m = org_id org ->
  HasAdminPermission (om_role m) = true ->
  In tm (organization_members db) -> om_key tm = (target, org_id org) ->
  In tu (users db) -> user_id tu = target ->
  In proj (projects db) -> proj_organization_id proj = org_id org ->
  projectIDStr <> "" -> uuid_Parse projectIDStr = Some (proj_id proj) ->
  uuid_Parse (AddProjectMemberRequest_UserID req) = Some target ->
  let add e db :=
    AddProjectMember e (Some userID) (org_slug org) projectIDStr (Some req) db
  in
  let conflict :=
    HTTPError StatusConflict "user is already a member of this project" in
  match explicit_grant db target (proj_id proj) with
  | Some _ => add e db = (db, conflict)
  | None =>
      status (snd (add e db)) = StatusCreated
      /\ project_members (fst (add e db))
         = project_members db
             ++ [{| pm_user_id := target; pm_project_id := proj_id proj;
                    pm_permission := requested_permission req;
                    pm_created_at := now e 0 |}]
      /\ ResolveProjectPermission (fst (add e db)) target proj
         = Granted (requested_permission req)
      /\ add e' (fst (add e db)) = (fst (add e db), conflict)
  end.
Proof.
  intros Hwf F F' Horg Hslug Hm Hu Ho Hadmin Htm Htk Htu Htid Hproj Hpo Hstr
         Hp Ht add conflict. unfold add.
  rewrite (AddProjectMember_outcome e userID db org m target tm tu proj);
    auto.
  destruct (explicit_grant db target (proj_id proj)) as [pm|] eqn:Hg;
    [reflexivity|].
  cbn [fst snd]. set (row := {| pm_user_id := target |}).
  pose proof (explicit_grant_added db row Hg) as Hrow.
  split; [reflexivity|]. split; [reflexivity|]. split.
  - unfold ResolveProjectPermission.
    change (explicit_grant (with_project_member db row) target (proj_id proj))
      with (explicit_grant (with_project_member db row) (pm_user_id row)
                           (pm_project_id row)).
    rewrite Hrow. simpl.
    destruct (proj_is_private proj); [reflexivity|].
    now destruct (requested_permission req).
  - rewrite (AddProjectMember_outcome e' userID (with_project_member db row)
               org m target tm tu proj); auto.
    + change (explicit_grant (with_project_member db row) target (proj_id proj))
        with (explicit_grant (with_project_member db row) (pm_user_id row)
                             (pm_project_id row)).
      now rewrite Hrow.
    + apply with_project_member_wf; [exact Hwf|].
      now apply no_grant_no_conflict.
Qed.
End Granting.

Lemma AddProjectMember_grants_witness :
  status (snd (@AddProjectMember example_deps reliable (Some 1%N) "acme"
                 (UUID_String 20)
                 (Some {| AddProjectMemberRequest_UserID := UUID_String 2;
                          AddProjectMemberRequest_Permission := "admin" |})
                 example_db_joined))
  = StatusCreated
  /\ ResolveProjectPermission
       (fst (@AddProjectMember example_deps reliable (Some 1%N) "acme"
               (UUID_String 20)
               (Some {| AddProjectMemberRequest_UserID := UUID_String 2;
                        AddProjectMemberRequest_Permission := "admin" |})
               example_db_joined))
       2%N roadmap
     = Granted PermissionView.
Proof.
  pose proof (@AddProjectMember_grants example_deps reliable reliable 1%N
                example_db_joined acme alice_owns_acme 2%N
                {| om_user_id := 2%N; om_organization_id := 10%N;
                   om_role := RoleMember; om_created_at := now reliable 1 |}
                (SetLastOrgID 10%N bob) roadmap (UUID_String 20)
                {| AddProjectMemberRequest_UserID := UUID_String 2;
                   AddProjectMemberRequest_Permission := "admin" |}
                example_db_joined_wf (fun _ => eq_refl) (fun _ => eq_refl)
                (or_introl eq_refl) ltac:(discriminate)
                (or_introl eq_refl) eq_refl eq_refl eq_refl
                (or_intror (or_introl eq_refl)) eq_refl
                (or_intror (or_introl eq_refl)) eq_refl
                (or_introl eq_refl) eq_refl
                ltac:(discriminate) eq_refl eq_refl) as H.
  split; [exact (proj1 H)|exact (proj1 (proj2 (proj2 H)))].
Defined.

(** ** Tokens *)

Section Tokens.
Context {deps : Deps}.
Import jwt auth.

Lemma not_before_passed (clock : nat -> Time) (t : Time) :
  (clock 2%nat <= t)%Z -> (t <? NewNumericDate (clock 2%nat))%Z = false.
Proof.
  intros H. apply Z.ltb_ge. pose proof (NewNumericDate_le (clock 2%nat)). lia.
Qed.

(** X12.  A refresh token validates to the user id it was issued for
    from its issuance up to, but not including, its expiry claim, the
    issue time plus seven days truncated to a whole second; from that
    instant on validation fails with the expired-token error. *)
Theorem refresh_token_round_trip
        (secret : string) (clock : nat -> Time) (userID : UUID) (t : Time) :
  let s := NewJWTService secret in
  let expiry := NewNumericDate (clock 0%nat + 7 * 24 * Hour) in
  uuid_Parse (UUID_String userID) = Some userID ->
  (clock 2%nat <= t)%Z ->
  ((t < expiry)%Z ->
   ValidateRefreshToken s (GenerateRefreshToken s clock userID) t
   = inr userID)
  /\ ((expiry <= t)%Z ->
      ValidateRefreshToken s (GenerateRefreshToken s clock userID) t
      = inl ErrExpiredToken).
Proof.
  intros s expiry Hparse Hissued.
  unfold ValidateRefreshToken, GenerateRefreshToken, SignedString,
    ParseWithClaims, Verify, keyFunc, Validate.
  cbn [is_HMAC p_registered ExpiresAt NotBefore Subject refreshExpiry
       secretKey s NewJWTService andb negb].
  rewrite String.eqb_refl, (not_before_passed clock t Hissued). cbn [negb].
  fold expiry. split; intros Ht.
  - apply Z.ltb_lt in Ht. rewrite Ht. simpl. now rewrite Hparse.
  - apply Z.ltb_ge in Ht. rewrite Ht. reflexivity.
Qed.

(** X13.  The two validators do not tell the two kinds of token apart.
    While it is valid, an access token is accepted by
    [ValidateRefreshToken], which answers its user; and a refresh token
    is accepted by [ValidateAccessToken], which answers claims whose
    user id is the nil UUID and whose email and display name are
    empty. *)
Theorem token_kinds_are_interchangeable
        (s : JWTService) (clock : nat -> Time) (userID : UUID)
        (email displayName : string) (t : Time) :
  uuid_Parse (UUID_String userID) = Some userID ->
  (clock 2%nat <= t)%Z ->
  ((t < NewNumericDate (clock 0%nat + accessExpiry s))%Z ->
   ValidateRefreshToken
     s (GenerateAccessToken s clock userID email displayName) t
   = inr userID)
  /\ ((t < NewNumericDate (clock 0%nat + refreshExpiry s))%Z ->
      exists claims,
        ValidateAccessToken s (GenerateRefreshToken s clock userID) t
        = inr claims
        /\ UserID claims = 0%N /\ Email claims = ""
        /\ DisplayName claims = ""
        /\ Subject (Registered claims) = UUID_String userID).
Proof.
  intros Hparse Hissued.
  unfold ValidateRefreshToken, ValidateAccessToken, GenerateRefreshToken,
    GenerateAccessToken, SignedString, ParseWithClaims, Verify, keyFunc,
    Validate.
  cbn [is_HMAC p_registered ExpiresAt NotBefore Subject andb negb].
  rewrite !String.eqb_refl, (not_before_passed clock t Hissued). cbn [negb].
  split; intros Ht; apply Z.ltb_lt in Ht; rewrite Ht; simpl.
  - now rewrite Hparse.
  - eexists. split; [reflexivity|]. now repeat split.
Qed.

(** X14.  [ValidateAccessToken] answers claims only for a token whose
    header names an HMAC method and whose signature is the MAC of its
    claims under the service's key, at a time before its expiry and not
    before its not-before claim; the claims answered are those the
    token carries.  It answers the expired-token error only for such a
    correctly signed token that has reached its expiry. *)
Theorem ValidateAccessToken_sound
        (s : JWTService) (tok : Token) (t : Time) :
  match ValidateAccessToken s tok t with
  | inr claims =>
      exists m p,
        tok = Compact m p (hmac m (secretKey s) p)
        /\ is_HMAC m = true
        /\ claims = decode_Claims p
        /\ (forall exp, ExpiresAt (p_registered p) = Some exp -> (t < exp)%Z)
        /\ (forall nbf, NotBefore (p_registered p) = Some nbf -> (nbf <= t)%Z)
  | inl ErrExpiredToken =>
      exists m p exp,
        tok = Compact m p (hmac m (secretKey s) p)
        /\ is_HMAC m = true
        /\ ExpiresAt (p_registered p) = Some exp /\ (exp <= t)%Z
  | inl ErrInvalidToken => True
  end.
Proof.
  unfold ValidateAccessToken, ParseWithClaims, keyFunc, Verify.
  destruct tok as [raw|m p sig]; [exact I|].
  destruct (is_HMAC m) eqn:Hm; [|exact I]. cbn [andb].
  destruct (String.eqb_spec sig (hmac m (secretKey s) p)) as [->|_];
    [|exact I].
  cbn [negb]. unfold Validate.
  destruct (ExpiresAt (p_registered p)) as [exp|] eqn:Hexp;
    destruct (NotBefore (p_registered p)) as [nbf|] eqn:Hnbf;
    try destruct (Z.ltb_spec t exp) as [He|He];
    try destruct (Z.ltb_spec t nbf) as [Hn|Hn];
    simpl; try exact I;
    try (exists m, p, exp; now repeat split);
    exists m, p; (split; [reflexivity|]); (split; [exact Hm|]);
    (split; [reflexivity|]); rewrite Hexp, Hnbf;
    split; intros x Hx; try discriminate Hx; injection Hx as <-; assumption.
Qed.
End Tokens.

Lemma refresh_token_round_trip_witness :
  let s := auth.NewJWTService "" in
  let clock := fun _ : nat => 500000000%Z in
  @auth.ValidateRefreshToken example_deps s
     (@auth.GenerateRefreshToken example_deps s clock 1%N) 900200000000%Z
  = inr 1%N.
Proof.
  intros s clock.
  apply (@refresh_token_round_trip example_deps "" clock 1%N 900200000000%Z).
  - reflexivity.
  - unfold clock. lia.
  - vm_compute. reflexivity.
Defined.

Lemma token_kinds_are_interchangeable_witness :
  let s := auth.NewJWTService "" in
  let clock := fun _ : nat => 500000000%Z in
  @auth.ValidateRefreshToken example_deps s
     (@auth.GenerateAccessToken example_deps s clock 1%N
                                "alice@example.com" "Alice") 600000000%Z
  = inr 1%N.
Proof.
  intros s clock.
  apply (@token_kinds_are_interchangeable example_deps s clock 1%N
           "alice@example.com" "Alice" 600000000%Z).
  - reflexivity.
  - unfold clock. lia.
  - vm_compute. reflexivity.
Defined.

(** ** The authentication middleware *)

Lemma concat_space_cons c part parts :
  String.concat " " (String c part :: parts)
  = String c (String.concat " " (part :: parts)).
Proof. destruct parts; reflexivity. Qed.

Lemma strings_Split_space_joins s :
  strings_Split_space s <> []
  /\ String.concat " " (strings_Split_space s) = s
  /\ Forall (fun part => count_spaces part = 0%nat) (strings_Split_space s).
Proof.
  induction s as [|c s (Hne & Hcat & Hparts)]; simpl.
  - repeat split; [discriminate|]. repeat constructor.
  - destruct (Ascii.eqb_spec c " ") as [->|Hc].
    + split; [discriminate|]. split; [|now constructor].
      destruct (strings_Split_space s) as [|part parts]; [congruence|].
      change (String.concat " " ("" :: part :: parts))
        with (String " " (String.concat " " (part :: parts))).
      now rewrite Hcat.
    + destruct (strings_Split_space s) as [|part parts]; [congruence|].
      split; [discriminate|]. split.
      * now rewrite concat_space_cons, Hcat.
      * inversion Hparts as [|? ? Hpart Hrest]; subst.
        constructor; [|exact Hrest]. simpl.
        destruct (Ascii.eqb_spec c " "); [contradiction|exact Hpart].
Qed.

Lemma strings_Split_space_two s scheme tokenString :
  strings_Split_space s = [scheme; tokenString] ->
  s = (scheme ++ " " ++ tokenString)%string
  /\ count_spaces scheme = 0%nat /\ count_spaces tokenString = 0%nat.
Proof.
  intros H. destruct (strings_Split_space_joins s) as (_ & Hcat & Hparts).
  rewrite H in Hcat, Hparts. split; [now rewrite <- Hcat|].
  inversion Hparts as [|? ? Ha Hrest]; subst.
  inversion Hrest; subst. now split.
Qed.

Section Authentication.
Context {deps : Deps}.
Import jwt auth.
Variable token_of_string : string -> jwt.Token.
Variable strings_ToLower : string -> string.
Variable jwtService : auth.JWTService.

Lemma ValidateAccessToken_accepts tok t claims :
  ValidateAccessToken jwtService tok t = inr claims ->
  exists m p,
    tok = Compact m p (hmac m (secretKey jwtService) p)
    /\ is_HMAC m = true
    /\ Validate (p_registered p) t = []
    /\ claims = decode_Claims p.
Proof.
  unfold ValidateAccessToken, ParseWithClaims, keyFunc, Verify.
  destruct tok as [raw|m p sig]; [discriminate|].
  destruct (is_HMAC m) eqn:Hm; [|discriminate]. cbn [andb].
  destruct (String.eqb_spec sig (hmac m (secretKey jwtService) p)) as [->|_];
    cbn [negb]; [|discriminate].
  destruct (Validate (p_registered p) t) eqn:Hv.
  - intros H. injection H as <-. now exists m, p.
  - destruct (Is _ _); discriminate.
Qed.

(** X15.  [AuthMiddleware] either answers 401 without running the
    handler and without touching the store, or runs the handler with
    the identity carried by the token: then the header is a scheme and
    a token separated by exactly one space, the scheme is "bearer" in
    any letter case, and the token is signed with the service's key
    under an HMAC method and passes the time checks at the time of the
    request. *)
Theorem AuthMiddleware_sound
        {A} (t : Time) (authHeader : string)
        (next : AuthContext -> DB -> DB * Response A) (db : DB) :
  (exists message,
      AuthMiddleware token_of_string strings_ToLower jwtService
                     t authHeader next db
      = (db, HTTPError StatusUnauthorized message))
  \/ (exists scheme tokenString m p,
         authHeader = (scheme ++ " " ++ tokenString)%string
         /\ count_spaces scheme = 0%nat /\ count_spaces tokenString = 0%nat
         /\ strings_ToLower scheme = "bearer"
         /\ token_of_string tokenString
            = Compact m p (hmac m (secretKey jwtService) p)
         /\ is_HMAC m = true
         /\ Validate (p_registered p) t = []
         /\ GetUserID (authenticated (decode_Claims p))
            = Some (UserID (decode_Claims p))
         /\ AuthMiddleware token_of_string strings_ToLower jwtService
                           t authHeader next db
            = next (authenticated (decode_Claims p)) db).
Proof.
  unfold AuthMiddleware.
  destruct (String.eqb authHeader ""); [left; eauto|].
  destruct (strings_Split_space authHeader)
    as [|scheme [|tokenString [|x parts]]] eqn:Hsplit;
    try (left; eauto; fail).
  destruct (String.eqb_spec (strings_ToLower scheme) "bearer") as [Hs|_];
    cbn [negb]; [|left; eauto].
  destruct (ValidateAccessToken jwtService (token_of_string tokenString) t)
    as [[|]|claims] eqn:Hv; try (left; eauto; fail).
  apply ValidateAccessToken_accepts in Hv as (m & p & Htok & Hm & Hval & ->).
  apply strings_Split_space_two in Hsplit as (Hh & Ha & Hb).
  right. exists scheme, tokenString, m, p. repeat split; auto.
Qed.

(** X16.  [OptionalAuthMiddleware] always runs the handler: with the
    identity of the token exactly when [AuthMiddleware] would have let
    the request through, and without identity exactly when
    [AuthMiddleware] would have answered 401. *)
Theorem OptionalAuthMiddleware_never_refuses
        {A} (t : Time) (authHeader : string)
        (next : AuthContext -> DB -> DB * Response A) (db : DB) :
  (OptionalAuthMiddleware token_of_string strings_ToLower jwtService
                          t authHeader next db
   = next anonymous db
   /\ exists message,
       AuthMiddleware token_of_string strings_ToLower jwtService
                      t authHeader next db
       = (db, HTTPError StatusUnauthorized message))
  \/ (exists claims,
         OptionalAuthMiddleware token_of_string strings_ToLower jwtService
                                t authHeader next db
         = next (authenticated claims) db
         /\ AuthMiddleware token_of_string strings_ToLower jwtService
                           t authHeader next db
            = next (authenticated claims) db).
Proof.
  unfold OptionalAuthMiddleware, AuthMiddleware.
  destruct (String.eqb authHeader ""); [left; eauto|].
  destruct (strings_Split_space authHeader)
    as [|scheme [|tokenString [|x parts]]];
    try (left; eauto; fail).
  destruct (negb (String.eqb (strings_ToLower scheme) "bearer"));
    [left; eauto|].
  destruct (ValidateAccessToken jwtService (token_of_string tokenString) t)
    as [[|]|claims]; try (left; eauto; fail).
  right. now exists claims.
Qed.
End Authentication.

(** ** From an invitation to a membership *)

Lemma redeemable_after_invite db inv t :
  existsb (Invite_conflict inv) (invites db) = false ->
  inv_used_at inv = None ->
  filter (invite_redeemable (inv_token inv) t) (invites db ++ [inv])
  = if (t <? inv_expires_at inv)%Z then [inv] else [].
Proof.
  intros Hnew Hunused. rewrite filter_app.
  rewrite (no_conflict_no_match Invite_conflict _ inv _ Hnew).
  - simpl. unfold invite_redeemable.
    rewrite String.eqb_refl, Hunused. simpl.
    now destruct (t <? inv_expires_at inv)%Z.
  - intros r Hr. unfold invite_redeemable in Hr.
    apply andb_true_iff in Hr as [Hr _]. apply andb_true_iff in Hr as [Hr _].
    unfold Invite_conflict. rewrite String.eqb_sym, Hr. apply orb_true_r.
Qed.

Lemma new_invite_redeemable e userID org req tokenBytes db t :
  existsb (Invite_conflict (new_invite e userID org req tokenBytes))
          (invites db) = false ->
  filter (invite_redeemable (hex_EncodeToString tokenBytes) t)
         (invites db ++ [new_invite e userID org req tokenBytes])
  = if (t <? now e 0 + 7 * 24 * Hour)%Z
    then [new_invite e userID org req tokenBytes] else [].
Proof.
  intros H.
  exact (redeemable_after_invite
           db (new_invite e userID org req tokenBytes) t H eq_refl).
Qed.

Section Invitation.
Context {deps : Deps}.

Lemma validate_InviteRequest_role req :
  validate_InviteRequest req = None ->
  InviteRole_string (if String.eqb (InviteRequest_Role req) "admin"
                     then InviteRoleAdmin else InviteRoleMember)
  = InviteRequest_Role req.
Proof.
  unfold validate_InviteRequest.
  destruct (String.eqb (InviteRequest_Email req) ""); [discriminate|].
  destruct (negb (validate_email (InviteRequest_Email req))); [discriminate|].
  destruct (String.eqb (InviteRequest_Role req) ""); [discriminate|].
  destruct (String.eqb_spec (InviteRequest_Role req) "admin") as [->|_];
    [reflexivity|].
  destruct (String.eqb_spec (InviteRequest_Role req) "member") as [->|_];
    [reflexivity|discriminate].
Qed.

Lemma InviteMember_created e userID slug req db body :
  snd (InviteMember e (Some userID) slug (Some req) db)
  = JSON StatusCreated body ->
  exists tokenBytes org m,
    rand_Read e 32 = Some tokenBytes
    /\ validate_InviteRequest req = None
    /\ @org_and_membership InviteResponse e userID slug db = inr (org, m)
    /\ HasAdminPermission (om_role m) = true
    /\ hex_EncodeToString tokenBytes <> ""
    /\ existsb (Invite_conflict (new_invite e userID org req tokenBytes))
               (invites db) = false
    /\ fst (InviteMember e (Some userID) slug (Some req) db)
       = set_invites db (invites db
                         ++ [new_invite e userID org req tokenBytes])
    /\ body = {| InviteResponse_ID := uuid_New e 0;
                 InviteResponse_Email := InviteRequest_Email req;
                 InviteResponse_Role := InviteRequest_Role req;
                 InviteResponse_ExpiresAt := (now e 0 + 7 * 24 * Hour)%Z;
                 InviteResponse_CreatedAt := now e 1 |}.
Proof.
  unfold InviteMember.
  destruct (String.eqb slug ""); [discriminate|].
  destruct (validate_InviteRequest req) eqn:Hvalid; [discriminate|].
  destruct (org_and_membership e userID slug db) as [r|[org m]] eqn:Hom.
  { apply org_and_membership_error in Hom. simpl. intros H.
    rewrite H in Hom. discriminate. }
  destruct (HasAdminPermission (om_role m)) eqn:Hadmin; [|discriminate].
  cbn [negb].
  destruct (rand_Read e 32) as [tokenBytes|]; [|discriminate].
  cbv zeta. fold (new_invite e userID org req tokenBytes).
  destruct (Create _ _ _ _ _) as [invs|] eqn:Hc; [|discriminate].
  apply Create_Ok_inv in Hc as (Hv & _ & Hnew & ->).
  cbn [fst snd]. intros H. injection H as <-.
  exists tokenBytes, org, m. repeat split; auto.
  - unfold Invite_valid in Hv. apply andb_true_iff in Hv as [Hv _].
    cbn [inv_token new_invite] in Hv. intros Heq. now rewrite Heq in Hv.
  - cbn [inv_id inv_email inv_role inv_expires_at inv_created_at new_invite].
    now rewrite (validate_InviteRequest_role req Hvalid).
Qed.

(** X17.  The invite that [InviteMember] created is shown by
    [GetInviteInfo] under its token, with the organization's name and
    slug, the invited address and an expiry seven days after the
    creation, at every time strictly before that expiry; from the
    expiry on the token is answered 404 like an unknown one. *)
Theorem InviteMember_then_GetInviteInfo
        (e e' : Env) (userID : UUID) (slug : string) (req : InviteRequest)
        (db : DB) (body : InviteResponse) :
  wf db -> fault e' 0 = false ->
  snd (InviteMember e (Some userID) slug (Some req) db)
  = JSON StatusCreated body ->
  exists tokenBytes org,
    rand_Read e 32 = Some tokenBytes
    /\ In org (organizations db) /\ org_slug org = slug
    /\ InviteResponse_ExpiresAt body = (now e 0 + 7 * 24 * Hour)%Z
    /\ GetInviteInfo e' (hex_EncodeToString tokenBytes)
                     (fst (InviteMember e (Some userID) slug (Some req) db))
       = (fst (InviteMember e (Some userID) slug (Some req) db),
          if (now e' 0 <? now e 0 + 7 * 24 * Hour)%Z
          then JSON StatusOK
                    {| organization_name := org_name org;
                       organization_slug := org_slug org;
                       email := InviteRequest_Email req;
                       expires_at := (now e 0 + 7 * 24 * Hour)%Z |}
          else HTTPError StatusNotFound "invite not found or expired").
Proof.
  intros Hwf F Hcreated.
  apply InviteMember_created in Hcreated
    as (tokenBytes & org & m & Hrand & _ & Hom & _ & Htoken & Hnew & -> & ->).
  apply org_and_membership_inv in Hom as (Horg & Hslug & _ & _).
  exists tokenBytes, org. repeat split; auto.
  unfold GetInviteInfo. rewrite (eqb_empty_false _ Htoken), F.
  cbn [invites set_invites].
  rewrite (new_invite_redeemable e userID org req tokenBytes db (now e' 0)
             Hnew).
  destruct (now e' 0 <? now e 0 + 7 * 24 * Hour)%Z; [|reflexivity].
  unfold Only. cbv iota beta. unfold Edges_Organization.
  cbn [inv_organization_id new_invite organizations set_invites].
  rewrite (find_selects org_id _ (org_id org) _ org);
    [reflexivity|apply Hwf|intros b; apply organization_IDEQ_true|exact Horg
    |now apply organization_IDEQ_true].
Qed.

(** X18.  Any existing user who is not yet a member can redeem the
    invite that [InviteMember] created, whatever address it was sent
    to, at any time strictly before its expiry: [AcceptInvite] answers
    the organization with the role the invitation asked for, appends
    the membership with that role, stamps the invite and points the
    user's last organization at the organization joined. *)
Theorem InviteMember_then_AcceptInvite
        (e e' : Env) (inviter userID : UUID) (slug : string)
        (req : InviteRequest) (db : DB) (body : InviteResponse) (u : User) :
  wf db -> (forall k, fault e' k = false) ->
  snd (InviteMember e (Some inviter) slug (Some req) db)
  = JSON StatusCreated body ->
  In u (users db) -> user_id u = userID ->
  (now e' 0 < now e 0 + 7 * 24 * Hour)%Z ->
  exists tokenBytes org,
    rand_Read e 32 = Some tokenBytes
    /\ In org (organizations db) /\ org_slug org = slug
    /\ let db1 := fst (InviteMember e (Some inviter) slug (Some req) db) in
       let accept :=
         AcceptInvite e' (Some userID) (hex_EncodeToString tokenBytes) db1 in
       match find (organizationmember_EQ userID (org_id org))
                  (organization_members db) with
       | Some _ =>
           accept
           = (db1, HTTPError StatusConflict
                             "you are already a member of this organization")
       | None =>
           snd accept
           = JSON StatusOK
                  {| OrganizationResponse_ID := org_id org;
                     OrganizationResponse_Name := org_name org;
                     OrganizationResponse_Slug := org_slug org;
                     OrganizationResponse_Role := InviteRequest_Role req;
                     OrganizationResponse_CreatedAt := org_created_at org |}
           /\ organization_members (fst accept)
              = organization_members db
                  ++ [{| om_user_id := userID;
                         om_organization_id := org_id org;
                         om_role := if String.eqb (InviteRequest_Role req)
                                                  "admin"
                                    then RoleAdmin else RoleMember;
                         om_created_at := now e' 1 |}]
           /\ stored_context (fst accept) userID
              = Some (Some (org_id org), user_last_project_id u)
       end.
Proof.
  intros Hwf F Hcreated Hu Hid Htime.
  apply InviteMember_created in Hcreated
    as (tokenBytes & org & m & Hrand & Hvalid & Hom & _ & Htoken & Hnew
        & -> & ->).
  apply org_and_membership_inv in Hom as (Horg & Hslug & _ & _).
  exists tokenBytes, org. repeat split; auto. cbv zeta.
  set (inv := new_invite e inviter org req tokenBytes).
  set (db1 := set_invites db (invites db ++ [inv])).
  assert (Hred : filter (invite_redeemable (hex_EncodeToString tokenBytes)
                                           (now e' 0)) (invites db1) = [inv]).
  { unfold db1. cbn [invites set_invites].
    unfold inv.
    rewrite (new_invite_redeemable e inviter org req tokenBytes db (now e' 0)
               Hnew).
    apply Z.ltb_lt in Htime. now rewrite Htime. }
  destruct (find (organizationmember_EQ userID (org_id org))
                 (organization_members db)) as [m'|] eqn:Hm.
  - unfold AcceptInvite.
    rewrite (eqb_empty_false _ Htoken), !F, Hred.
    unfold Only. cbv iota beta.
    cbn [inv_organization_id inv new_invite organization_members set_invites
         db1].
    now rewrite Exist_finds, Hm.
  - assert (Hedge : Edges_Organization db1 (inv_organization_id inv)
                    = Some org).
    { unfold Edges_Organization.
      apply (find_selects org_id _ (org_id org));
        [apply Hwf|intros b; apply organization_IDEQ_true|exact Horg
        |now apply organization_IDEQ_true]. }
    assert (Hnone : filter (organizationmember_EQ userID
                                                  (inv_organization_id inv))
                           (organization_members db1) = []).
    { apply filter_nil_iff. intros a Ha. apply (find_none _ _ Hm a Ha). }
    rewrite (AcceptInvite_accepts e' _ db1 userID inv u org F Htoken Hred
               Hnone Hu Hid Hedge).
    cbn [fst snd]. split; [|split].
    + cbn [inv_role inv new_invite]. f_equal. f_equal.
      rewrite <- (validate_InviteRequest_role req Hvalid).
      now destruct (String.eqb (InviteRequest_Role req) "admin").
    + cbn [organization_members accepted db1 set_invites inv_organization_id
           inv_role inv new_invite].
      now destruct (String.eqb (InviteRequest_Role req) "admin").
    + unfold stored_context. cbn [users accepted db1 set_invites].
      rewrite find_update_user; [|intros v; reflexivity].
      rewrite (find_selects user_id _ userID _ u);
        [reflexivity|apply Hwf|intros b; apply user_IDEQ_true|exact Hu
        |now apply user_IDEQ_true].
Qed.
End Invitation.

Lemma InviteMember_then_GetInviteInfo_witness :
  exists tokenBytes org,
    rand_Read reliable 32 = Some tokenBytes
    /\ In org (organizations example_db) /\ org_slug org = "acme"
    /\ (now reliable 0 + 7 * 24 * Hour
        = now reliable 0 + 7 * 24 * Hour)%Z
    /\ GetInviteInfo reliable (hex_EncodeToString tokenBytes)
                     example_db_invited
       = (example_db_invited,
          if (now reliable 0 <? now reliable 0 + 7 * 24 * Hour)%Z
          then JSON StatusOK
                    {| organization_name := org_name org;
                       organization_slug := org_slug org;
                       email := "bob@example.com";
                       expires_at := (now reliable 0 + 7 * 24 * Hour)%Z |}
          else HTTPError StatusNotFound "invite not found or expired").
Proof.
  apply (@InviteMember_then_GetInviteInfo example_deps reliable reliable 1%N
           "acme" invite_bob example_db
           {| InviteResponse_ID := uuid_New reliable 0;
              InviteResponse_Email := "bob@example.com";
              InviteResponse_Role := "admin";
              InviteResponse_ExpiresAt := (now reliable 0 + 7 * 24 * Hour)%Z;
              InviteResponse_CreatedAt := now reliable 1 |}).
  - exact example_db_wf.
  - reflexivity.
  - vm_compute. reflexivity.
Defined.

Lemma InviteMember_then_AcceptInvite_witness :
  exists tokenBytes org,
    rand_Read reliable 32 = Some tokenBytes
    /\ In org (organizations example_db) /\ org_slug org = "acme"
    /\ let accept :=
         AcceptInvite reliable (Some 2%N) (hex_EncodeToString tokenBytes)
                      example_db_invited in
       match find (organizationmember_EQ 2%N (org_id org))
                  (organization_members example_db) with
       | Some _ =>
           accept
           = (example_db_invited,
              HTTPError StatusConflict
                        "you are already a member of this organization")
       | None =>
           snd accept
           = JSON StatusOK
                  {| OrganizationResponse_ID := org_id org;
                     OrganizationResponse_Name := org_name org;
                     OrganizationResponse_Slug := org_slug org;
                     OrganizationResponse_Role := "admin";
                     OrganizationResponse_CreatedAt := org_created_at org |}
           /\ organization_members (fst accept)
              = organization_members example_db
                  ++ [{| om_user_id := 2%N;
                         om_organization_id := org_id org;
                         om_role := RoleAdmin;
                         om_created_at := now reliable 1 |}]
           /\ stored_context (fst accept) 2%N
              = Some (Some (org_id org), user_last_project_id bob)
       end.
Proof.
  apply (@InviteMember_then_AcceptInvite example_deps reliable reliable
           1%N 2%N "acme" invite_bob example_db
           {| InviteResponse_ID := uuid_New reliable 0;
              InviteResponse_Email := "bob@example.com";
              InviteResponse_Role := "admin";
              InviteResponse_ExpiresAt := (now reliable 0 + 7 * 24 * Hour)%Z;
              InviteResponse_CreatedAt := now reliable 1 |} bob).
  - exact example_db_wf.
  - reflexivity.
  - vm_compute. reflexivity.
  - simpl. auto.
  - reflexivity.
  - vm_compute. reflexivity.
Defined.

(** ** Accounts and sessions *)

Lemma with_user_wf db u :
  wf db -> existsb (User_conflict u) (users db) = false ->
  wf (set_users db (users db ++ [u])).
Proof.
  intros Hwf Hnew. apply (evolves_wf db); [|exact Hwf].
  constructor; simpl; try (now constructor); try (left; now constructor).
  left. now apply (appended_row _ _ _ u).
Qed.

Lemma user_EmailEQ_true a u : user_EmailEQ a u = true <-> user_email u = a.
Proof. apply String.eqb_eq. Qed.

Section Accounts.
Context {deps : Deps}.
Variable jwtService : auth.JWTService.

Lemma validate_credentials req :
  validate_RegisterRequest req = None ->
  validate_LoginRequest (credentials req) = None.
Proof.
  unfold validate_RegisterRequest, validate_LoginRequest, credentials. simpl.
  destruct (String.eqb (RegisterRequest_Email req) ""); [discriminate|].
  destruct (negb (validate_email (RegisterRequest_Email req)));
    [discriminate|].
  now destruct (String.eqb (RegisterRequest_Password req) "").
Qed.

Lemma Register_created e req db :
  succeeded (snd (Register jwtService e (Some req) db)) = true ->
  exists passwordHash,
    validate_RegisterRequest req = None
    /\ auth.HashPassword (bcrypt_salt e) (RegisterRequest_Password req)
       = Some passwordHash
    /\ existsb (User_conflict (new_user e req passwordHash)) (users db) = false
    /\ Register jwtService e (Some req) db
       = (set_users db (users db ++ [new_user e req passwordHash]),
          JSON StatusCreated
               (auth_response
                  (user_response (new_user e req passwordHash))
                  (auth.GenerateTokenPair
                     jwtService (later 1 (now e)) (uuid_New e 0)
                     (RegisterRequest_Email req)
                     (RegisterRequest_DisplayName req)))).
Proof.
  unfold Register.
  destruct (validate_RegisterRequest req); [discriminate|].
  destruct (Exist _ _) as [[|]|]; try discriminate.
  destruct (auth.HashPassword _ _) as [passwordHash|]; [|discriminate].
  cbv zeta. fold (new_user e req passwordHash).
  destruct (Create _ _ _ _ _) as [us|] eqn:Hc; [|discriminate].
  apply Create_Ok_inv in Hc as (_ & _ & Hnew & ->).
  intros _. now exists passwordHash.
Qed.

(** X19.  After a successful [Register], a [Login] with the same email
    and password succeeds and answers the user just created, with
    empty last-visited pointers, provided bcrypt accepts the password
    against the hash it made of it; a [Login] with a password bcrypt
    rejects against that hash is answered 401; a second [Register]
    with the same email is answered 409.  These three requests leave
    the store as the registration left it. *)
Theorem Register_then_Login
        (e e' : Env) (req : RegisterRequest) (db : DB) :
  wf db -> fault e' 0 = false ->
  (forall hash,
      auth.HashPassword (bcrypt_salt e) (RegisterRequest_Password req)
      = Some hash ->
      auth.CheckPassword (RegisterRequest_Password req) hash = true) ->
  succeeded (snd (Register jwtService e (Some req) db)) = true ->
  let db' := fst (Register jwtService e (Some req) db) in
  exists u,
    users db' = users db ++ [u]
    /\ user_email u = RegisterRequest_Email req
    /\ stored_context db' (user_id u) = Some (None, None)
    /\ Login jwtService e' (Some (credentials req)) db'
       = (db',
          JSON StatusOK
               (auth_response
                  (user_response u)
                  (auth.GenerateTokenPair jwtService (now e') (user_id u)
                     (user_email u) (user_display_name u))))
    /\ (forall wrong,
           wrong <> "" ->
           auth.CheckPassword wrong (user_password_hash u) = false ->
           Login jwtService e'
                 (Some {| LoginRequest_Email := RegisterRequest_Email req;
                          LoginRequest_Password := wrong |}) db'
           = (db', HTTPError StatusUnauthorized "invalid email or password"))
    /\ Register jwtService e' (Some req) db'
       = (db', HTTPError StatusConflict "user with this email already exists").
Proof.
  intros Hwf F Hbcrypt Hok db'. unfold db'. clear db'.
  destruct (Register_created e req db Hok)
    as (passwordHash & Hvalid & Hhash & Hnew & ->).
  cbn [fst]. set (u := new_user e req passwordHash).
  set (db' := set_users db (users db ++ [u])).
  assert (Hwf' : wf db') by now apply with_user_wf.
  assert (Hin : In u (users db')).
  { unfold db'. simpl. apply in_or_app. right. now left. }
  assert (Hone : Only false (filter (user_EmailEQ (RegisterRequest_Email req))
                                    (users db')) = Ok u).
  { apply (Only_selects user_email _ (RegisterRequest_Email req));
      [apply Hwf'|intros b; apply user_EmailEQ_true|exact Hin
      |now apply user_EmailEQ_true]. }
  exists u. split; [reflexivity|]. split; [reflexivity|]. split; [|split].
  - unfold stored_context.
    rewrite (find_selects user_id _ (user_id u) _ u);
      [reflexivity|apply Hwf'|intros b; apply user_IDEQ_true|exact Hin
      |now apply user_IDEQ_true].
  - unfold Login. rewrite (validate_credentials req Hvalid).
    cbn [LoginRequest_Email LoginRequest_Password credentials].
    rewrite F, Hone.
    cbn [user_password_hash u new_user].
    now rewrite (Hbcrypt passwordHash Hhash).
  - split.
    + intros wrong Hwrong Hreject. unfold Login, validate_LoginRequest.
      cbn [LoginRequest_Email LoginRequest_Password].
      assert (Hv := Hvalid). unfold validate_RegisterRequest in Hv.
      destruct (String.eqb (RegisterRequest_Email req) ""); [discriminate|].
      destruct (negb (validate_email (RegisterRequest_Email req)));
        [discriminate|].
      rewrite (eqb_empty_false _ Hwrong), F, Hone.
      now rewrite Hreject.
    + unfold Register. rewrite Hvalid, F.
      apply Only_Ok_inv in Hone as [_ Hone]. unfold Exist.
      now rewrite Hone.
Qed.
End Accounts.

Lemma Register_then_Login_witness :
  let s := auth.NewJWTService "" in
  let req := {| RegisterRequest_Email := "dave@example.com";
                RegisterRequest_Password := "dave-password";
                RegisterRequest_DisplayName := "Dave" |} in
  let db' := fst (@Register example_deps s reliable (Some req) example_db) in
  exists u,
    users db' = users example_db ++ [u]
    /\ user_email u = "dave@example.com"
    /\ stored_context db' (user_id u) = Some (None, None)
    /\ @Login example_deps s reliable (Some (credentials req)) db'
       = (db',
          JSON StatusOK
               (auth_response
                  (user_response u)
                  (@auth.GenerateTokenPair example_deps s (now reliable)
                     (user_id u) (user_email u) (user_display_name u))))
    /\ (forall wrong,
           wrong <> "" ->
           @auth.CheckPassword example_deps wrong (user_password_hash u)
           = false ->
           @Login example_deps s reliable
                  (Some {| LoginRequest_Email := "dave@example.com";
                           LoginRequest_Password := wrong |}) db'
           = (db', HTTPError StatusUnauthorized "invalid email or password"))
    /\ @Register example_deps s reliable (Some req) db'
       = (db', HTTPError StatusConflict "user with this email already exists").
Proof.
  intros s req.
  apply (@Register_then_Login example_deps s reliable reliable req example_db).
  - exact example_db_wf.
  - reflexivity.
  - intros hash H. injection H as <-. vm_compute. reflexivity.
  - vm_compute. reflexivity.
Defined.

Section Sessions.
Context {deps : Deps}.
Variable jwtService : auth.JWTService.

Lemma Login_succeeded e req db body :
  snd (Login jwtService e (Some req) db) = JSON StatusOK body ->
  exists u,
    In u (users db)
    /\ body = auth_response
                (user_response u)
                (auth.GenerateTokenPair jwtService (now e) (user_id u)
                                   (user_email u) (user_display_name u)).
Proof.
  unfold Login.
  destruct (validate_LoginRequest req); [discriminate|].
  destruct (Only (fault e 0) _) as [u|err] eqn:Hu;
    [|destruct (IsNotFound err); discriminate].
  apply Only_Ok_inv in Hu as [_ Hu].
  apply filter_singleton_In in Hu as [Hu _].
  destruct (negb _); [discriminate|].
  cbn [snd]. intros H. injection H as <-. now exists u.
Qed.

(** X20.  The refresh token of a successful [Login] is accepted by
    [RefreshToken] from its issuance up to, but not including, its
    expiry claim: the answer is the same user with a token pair issued
    at the time of the refresh, and the store is not written.  From the
    expiry on the answer is 401. *)
Theorem Login_then_RefreshToken
        (e e' : Env) (req : LoginRequest) (db : DB) (body : AuthResponse) :
  wf db -> fault e' 0 = false ->
  snd (Login jwtService e (Some req) db) = JSON StatusOK body ->
  uuid_Parse (UUID_String (UserResponse_ID (AuthResponse_User body)))
  = Some (UserResponse_ID (AuthResponse_User body)) ->
  (now e 5 <= now e' 0)%Z ->
  RefreshToken jwtService e' (Some (AuthResponse_RefreshToken body)) db
  = (db,
     if (now e' 0 <? jwt.NewNumericDate (now e 3 + auth.refreshExpiry jwtService))%Z
     then JSON StatusOK
               (auth_response
                  (AuthResponse_User body)
                  (auth.GenerateTokenPair
                     jwtService (later 1 (now e'))
                     (UserResponse_ID (AuthResponse_User body))
                     (UserResponse_Email (AuthResponse_User body))
                     (UserResponse_DisplayName (AuthResponse_User body))))
     else HTTPError StatusUnauthorized "invalid or expired refresh token").
Proof.
  intros Hwf F Hlogin Hparse Hissued.
  apply Login_succeeded in Hlogin as (u & Hu & ->).
  cbn [AuthResponse_User AuthResponse_RefreshToken auth_response
       UserResponse_ID UserResponse_Email UserResponse_DisplayName
       user_response] in *.
  change (auth.RefreshToken
            (auth.GenerateTokenPair jwtService (now e) (user_id u)
                                    (user_email u) (user_display_name u)))
    with (auth.GenerateRefreshToken jwtService (later 3 (now e)) (user_id u)).
  unfold RefreshToken, auth.GenerateRefreshToken, jwt.SignedString.
  unfold auth.ValidateRefreshToken, jwt.ParseWithClaims, jwt.Verify,
    auth.keyFunc, jwt.Validate.
  cbn [jwt.is_HMAC jwt.p_registered jwt.ExpiresAt jwt.NotBefore jwt.Subject
       andb negb].
  unfold later. change (3 + 0)%nat with 3%nat. change (3 + 2)%nat with 5%nat.
  rewrite String.eqb_refl. cbn [negb].
  assert (Hnbf : (now e' 0 <? jwt.NewNumericDate (now e 5))%Z = false).
  { apply Z.ltb_ge. pose proof (NewNumericDate_le (now e 5)). lia. }
  rewrite Hnbf.
  destruct (now e' 0 <? jwt.NewNumericDate (now e 3 + auth.refreshExpiry jwtService))%Z;
    [|reflexivity].
  cbn [app jwt.Subject jwt.p_registered].
  rewrite Hparse, F, (user_Only db u Hwf Hu).
  reflexivity.
Qed.
End Sessions.

Lemma Login_then_RefreshToken_witness :
  let s := auth.NewJWTService "" in
  let login := {| LoginRequest_Email := "alice@example.com";
                  LoginRequest_Password := "alice-password" |} in
  let pair := @auth.GenerateTokenPair example_deps s (now reliable) 1%N
                                      "alice@example.com" "Alice" in
  @RefreshToken example_deps s a_while_later (Some (auth.RefreshToken pair))
                example_db
  = (example_db,
     JSON StatusOK
          (auth_response
             (user_response alice)
             (@auth.GenerateTokenPair example_deps s
                                      (later 1 (now a_while_later))
                                      1%N "alice@example.com" "Alice"))).
Proof.
  intros s login pair.
  apply (@Login_then_RefreshToken example_deps s reliable a_while_later
           login example_db (auth_response (user_response alice) pair)).
  - exact example_db_wf.
  - reflexivity.
  - vm_compute. reflexivity.
  - reflexivity.
  - vm_compute. discriminate.
Defined.

(** ** What the creator of a public project is told *)

Lemma CreateProject_keeps_wf e userID slug req db :
  wf db -> wf (fst (CreateProject e userID slug req db)).
Proof.
  intros Hwf. apply (evolves_wf db); [|exact Hwf].
  destruct (CreateProject_cases e userID slug req db)
    as [[-> _]|(uid & r & org & m & _ & _ & Hom & _ & Hp & Hpm & ->)];
    [apply evolves_refl|].
  apply org_and_membership_inv in Hom as (Horg & _).
  constructor; simpl; try (now constructor).
  - right. exists uid, (SetLastProjectID (uuid_New e 0)).
    split; [|reflexivity]. intros u. now split.
  - now apply (appended_row _ _ _ (new_project e (org_id org) r)).
  - intros p Hin. apply in_app_or in Hin as [Hin|[<-|[]]]; [now left|].
    right. exists org. now split.
  - destruct (CreateProjectRequest_IsPrivate r); [|now constructor].
    eapply appended_row; [|reflexivity]. now apply Hpm.
  - left. now constructor.
Qed.

Section Public_projects.
Context {deps : Deps}.

(** X21.  The creator of a public project is answered permission
    "edit" by [CreateProject], but no ProjectMember row is stored for
    it, so the creator's next [GetProject] on the same project answers
    the same project with permission "view". *)
Theorem public_project_creator_reads_view
        (e e' : Env) (userID : UUID) (slug : string)
        (req : CreateProjectRequest) (db : DB) (body : ProjectResponse)
        (projectIDStr : string) :
  wf db -> (forall k, fault e' k = false) ->
  CreateProjectRequest_IsPrivate req = false ->
  snd (CreateProject e (Some userID) slug (Some req) db)
  = JSON StatusCreated body ->
  (forall pm, In pm (project_members db) ->
              pm_project_id pm <> ProjectResponse_ID body) ->
  projectIDStr <> "" ->
  uuid_Parse projectIDStr = Some (ProjectResponse_ID body) ->
  ProjectResponse_Permission body = "edit"
  /\ snd (GetProject e' (Some userID) slug projectIDStr
                     (fst (CreateProject e (Some userID) slug (Some req) db)))
     = JSON StatusOK
            {| ProjectResponse_ID := ProjectResponse_ID body;
               ProjectResponse_Name := ProjectResponse_Name body;
               ProjectResponse_IsPrivate := false;
               ProjectResponse_OrganizationID :=
                 ProjectResponse_OrganizationID body;
               ProjectResponse_Permission := "view";
               ProjectResponse_CreatedAt := ProjectResponse_CreatedAt body |}.
Proof.
  intros Hwf F Hpublic Hcreated Hfresh Hstr Hparse.
  pose proof (CreateProject_keeps_wf e (Some userID) slug (Some req) db Hwf)
    as Hwf'.
  assert (Hslug : slug <> "").
  { intros ->. discriminate Hcreated. }
  destruct (CreateProject_cases e (Some userID) slug (Some req) db)
    as [[_ Hfail]|(uid & r & org & m & Hu & Hr & Hom & _ & _ & _ & Heq)].
  { rewrite Hcreated in Hfail. discriminate. }
  injection Hu as <-. injection Hr as <-.
  rewrite Heq in Hcreated, Hwf' |- *. cbn [fst snd] in *.
  injection Hcreated as <-.
  split; [reflexivity|].
  apply org_and_membership_inv in Hom as (Horg & <- & Hm & Hk).
  unfold om_key in Hk. injection Hk as Hmu Hmo.
  set (proj := new_project e (org_id org) req) in *.
  set (db' := project_created db userID proj (now e 1)) in *.
  cbn [ProjectResponse_ID project_response] in Hparse, Hfresh.
  unfold GetProject.
  rewrite (eqb_empty_false _ Hslug), (eqb_empty_false _ Hstr). cbn [orb].
  rewrite Hparse.
  rewrite (org_and_membership_ok e' userID db' org m); auto.
  assert (Hin : In proj (projects db')).
  { unfold db'. simpl. apply in_or_app. right. now left. }
  rewrite !F.
  change (org_id org) with (proj_organization_id proj).
  rewrite (project_Only db' proj Hwf' Hin).
  rewrite !(explicit_Only db' userID (proj_id proj) Hwf').
  assert (Hnone : explicit_grant db' userID (proj_id proj) = None).
  { unfold explicit_grant, db'. cbn [project_members project_created].
    change (proj_is_private proj) with (CreateProjectRequest_IsPrivate req).
    rewrite Hpublic.
    destruct (find _ (project_members db)) as [pm|] eqn:Hf; [|reflexivity].
    apply find_some in Hf as [Hpm Hk].
    apply projectmember_EQ_true in Hk. unfold pm_key in Hk.
    injection Hk as _ Hk. now apply Hfresh in Hpm. }
  rewrite Hnone. unfold project_response.
  change (proj_is_private proj) with (CreateProjectRequest_IsPrivate req).
  rewrite Hpublic. reflexivity.
Qed.
End Public_projects.

Lemma public_project_creator_reads_view_witness :
  let req := {| CreateProjectRequest_Name := "Open";
                CreateProjectRequest_IsPrivate := false |} in
  let created := CreateProject reliable (Some 1%N) "acme" (Some req)
                               example_db in
  snd (@GetProject example_deps reliable (Some 1%N) "acme" (UUID_String 100)
                   (fst created))
  = JSON StatusOK
         {| ProjectResponse_ID := 100%N;
            ProjectResponse_Name := "Open";
            ProjectResponse_IsPrivate := false;
            ProjectResponse_OrganizationID := 10%N;
            ProjectResponse_Permission := "view";
            ProjectResponse_CreatedAt := now reliable 0 |}.
Proof.
  intros req created.
  apply (proj2 (@public_project_creator_reads_view
                  example_deps reliable reliable 1%N "acme" req example_db
                  (project_response (new_project reliable 10%N req) "edit")
                  (UUID_String 100)
                  example_db_wf (fun _ => eq_refl) eq_refl eq_refl
                  ltac:(intros pm [])
                  ltac:(discriminate) eq_refl)).
Defined.

(** ** Listings *)

Lemma organization_responses_spec db ms :
  (forall m, In m ms ->
             exists o, Edges_Organization db (om_organization_id m) = Some o) ->
  exists rs,
    organization_responses db ms = Some rs
    /\ List.length rs = List.length ms
    /\ forall r,
        In r rs
        <-> exists m o,
            In m ms
            /\ Edges_Organization db (om_organization_id m) = Some o
            /\ r = organization_response o m.
Proof.
  induction ms as [|m ms IH]; intros H; simpl.
  - exists []. split; [reflexivity|]. split; [reflexivity|].
    intros r. split; [intros []|intros (m & _ & [] & _)].
  - destruct (H m (or_introl eq_refl)) as [o Ho]. rewrite Ho.
    destruct IH as (rs & -> & Hlen & Hrs).
    { intros m' Hm'. apply H. now right. }
    eexists. split; [reflexivity|]. split; [simpl; now rewrite Hlen|].
    intros r. simpl. rewrite Hrs. split.
    + intros [<-|(m' & o' & Hm' & Ho' & ->)].
      * exists m, o. auto.
      * exists m', o'. auto.
    + intros (m' & o' & [<-|Hm'] & Ho' & ->).
      * left. rewrite Ho in Ho'. now injection Ho' as <-.
      * right. now exists m', o'.
Qed.

(** X22.  When every membership of the user names an organization of
    the store, [ListOrganizations] answers one entry per membership of
    the user and nothing else: an entry is listed exactly when it is an
    organization the user belongs to, shown with the user's role in
    it.  The store is not written. *)
Theorem ListOrganizations_lists_memberships
        (e : Env) (userID : UUID) (db : DB) :
  wf db -> fault e 0 = false -> memberships_resolve db userID ->
  exists listed,
    ListOrganizations e (Some userID) db = (db, JSON StatusOK listed)
    /\ List.length listed
       = List.length (filter (organizationmember_UserIDEQ userID)
                        (organization_members db))
    /\ forall r,
        In r listed
        <-> exists m o,
            In m (organization_members db) /\ om_user_id m = userID
            /\ In o (organizations db) /\ org_id o = om_organization_id m
            /\ r = organization_response o m.
Proof.
  intros Hwf F Hres. unfold ListOrganizations, All. rewrite F.
  assert (Hedge : forall m o,
             In o (organizations db) -> org_id o = om_organization_id m ->
             Edges_Organization db (om_organization_id m) = Some o).
  { intros m o Ho Hid. unfold Edges_Organization.
    apply (find_selects org_id _ (om_organization_id m));
      [apply Hwf|intros b; apply organization_IDEQ_true|exact Ho
      |now apply organization_IDEQ_true]. }
  destruct (organization_responses_spec
              db (filter (organizationmember_UserIDEQ userID)
                         (organization_members db)))
    as (rs & -> & Hlen & Hrs).
  { intros m Hm. apply filter_In in Hm as [Hm Hu]. apply N.eqb_eq in Hu.
    destruct (Hres m Hm Hu) as (o & Ho & Hid). exists o. now apply Hedge. }
  exists rs. split; [reflexivity|]. split; [exact Hlen|].
  intros r. rewrite Hrs. split.
  - intros (m & o & Hm & Ho & ->).
    apply filter_In in Hm as [Hm Hu]. apply N.eqb_eq in Hu.
    unfold Edges_Organization in Ho. apply find_some in Ho as [Ho Hid].
    apply organization_IDEQ_true in Hid. exists m, o. auto.
  - intros (m & o & Hm & Hu & Ho & Hid & ->). exists m, o.
    split; [|split; [now apply Hedge|reflexivity]].
    apply filter_In. split; [exact Hm|]. now apply N.eqb_eq.
Qed.

Lemma ListOrganizations_lists_memberships_witness :
  exists listed,
    ListOrganizations reliable (Some 2%N) example_db_two
    = (example_db_two, JSON StatusOK listed)
    /\ List.length listed
       = List.length (filter (organizationmember_UserIDEQ 2%N)
                        (organization_members example_db_two))
    /\ forall r,
        In r listed
        <-> exists m o,
            In m (organization_members example_db_two) /\ om_user_id m = 2%N
            /\ In o (organizations example_db_two)
            /\ org_id o = om_organization_id m
            /\ r = organization_response o m.
Proof.
  apply (ListOrganizations_lists_memberships reliable 2%N example_db_two).
  - exact example_db_two_wf.
  - reflexivity.
  - intros m [<-|[<-|[]]] Hu; [discriminate Hu|].
    exists globex. split; [simpl; auto|reflexivity].
Defined.

Lemma insert_by_created_at_Forall (P : Project -> Prop) p l :
  P p -> Forall P l -> Forall P (insert_by_created_at p l).
Proof.
  intros Hp Hl. induction Hl as [|q l Hq Hl IH]; simpl.
  - now constructor.
  - destruct (proj_created_at p <? proj_created_at q)%Z.
    + constructor; [exact Hp|]. now constructor.
    + now constructor.
Qed.

Lemma insert_by_created_at_sorted p l :
  StronglySorted created_before l ->
  StronglySorted created_before (insert_by_created_at p l).
Proof.
  intros Hs. induction Hs as [|q l Hs IH Hq]; simpl.
  - constructor; constructor.
  - destruct (Z.ltb_spec (proj_created_at p) (proj_created_at q)) as [Hlt|Hge].
    + constructor; [now constructor|].
      constructor; [unfold created_before; lia|].
      eapply Forall_impl; [|exact Hq].
      unfold created_before. intros a Ha. lia.
    + constructor; [exact IH|].
      now apply insert_by_created_at_Forall.
Qed.

Lemma Order_Asc_created_at_sorted l :
  StronglySorted created_before (Order_Asc_created_at l).
Proof.
  unfold Order_Asc_created_at.
  enough (H : forall acc,
             StronglySorted created_before acc ->
             StronglySorted created_before
               (fold_left (fun acc p => insert_by_created_at p acc) l acc)).
  { apply H. constructor. }
  induction l as [|p l IH]; intros acc Hacc; simpl; [exact Hacc|].
  apply IH. now apply insert_by_created_at_sorted.
Qed.

Lemma list_entry_inv m p r :
  In r (list_entry m p) ->
  exists perm, r = project_response p perm
               /\ (proj_is_private p = true -> m (proj_id p) = Some perm).
Proof.
  unfold list_entry.
  destruct (proj_is_private p); [destruct (m (proj_id p)) as [perm|]|];
    simpl; intros Hr; try contradiction; destruct Hr as [<-|[]];
    eexists; split; try reflexivity;
    intros H; try discriminate H; reflexivity.
Qed.

Lemma listed_sorted m l :
  StronglySorted created_before l ->
  StronglySorted listed_before (flat_map (list_entry m) l).
Proof.
  intros Hs. induction Hs as [|p l Hs IH Hp]; simpl; [constructor|].
  assert (Hall : Forall (fun r => (proj_created_at p
                                   <= ProjectResponse_CreatedAt r)%Z)
                        (flat_map (list_entry m) l)).
  { apply Forall_forall. intros r Hr.
    apply in_flat_map in Hr as (q & Hq & Hr).
    apply list_entry_inv in Hr as (perm & -> & _). simpl.
    rewrite Forall_forall in Hp. exact (Hp q Hq). }
  unfold list_entry at 1.
  destruct (proj_is_private p); [destruct (m (proj_id p))|]; simpl;
    try exact IH; (constructor; [exact IH|exact Hall]).
Qed.

Lemma listed_ids_unique m l :
  NoDup (map proj_id l) ->
  NoDup (map ProjectResponse_ID (flat_map (list_entry m) l)).
Proof.
  induction l as [|p l IH]; simpl; intros H; [constructor|].
  inversion H as [|? ? Hnotin Hnd]; subst.
  assert (Hfresh : ~ In (proj_id p)
                        (map ProjectResponse_ID (flat_map (list_entry m) l))).
  { intros Hin. apply Hnotin.
    apply in_map_iff in Hin as (r & Hid & Hr).
    apply in_flat_map in Hr as (q & Hq & Hr).
    apply list_entry_inv in Hr as (perm & -> & _). simpl in Hid.
    apply in_map_iff. now exists q. }
  rewrite map_app. unfold list_entry at 1.
  destruct (proj_is_private p); [destruct (m (proj_id p))|]; simpl;
    try (now apply IH); (constructor; [exact Hfresh|now apply IH]).
Qed.

Section Listing.
Context {deps : Deps}.

(** X23.  For a member of the organization, [ListProjects] answers
    projects of that organization only, each at most once, in
    non-decreasing order of creation time, and never one on which the
    user's permission resolves to forbidden; each entry carries the
    permission the project resolves to. *)
Theorem ListProjects_scope_and_order
        (e : Env) (userID : UUID) (db : DB) (org : Organization)
        (m : OrganizationMember) :
  wf db -> (forall k, fault e k = false) ->
  In org (organizations db) -> org_slug org <> "" ->
  In m (organization_members db) ->
  om_user_id m = userID -> om_organization_id m = org_id org ->
  exists listed,
    ListProjects e (Some userID) (org_slug org) db = (db, JSON StatusOK listed)
    /\ StronglySorted listed_before listed
    /\ NoDup (map ProjectResponse_ID listed)
    /\ forall r,
        In r listed ->
        ProjectResponse_OrganizationID r = org_id org
        /\ exists p perm,
            In p (projects db)
            /\ ResolveProjectPermission db userID p = Granted perm
            /\ r = project_response p (Permission_string perm).
Proof.
  intros Hwf F Horg Hslug Hm Hu Ho. unfold ListProjects.
  rewrite (eqb_empty_false _ Hslug).
  rewrite (org_and_membership_ok e userID db org m); auto.
  rewrite !F. unfold All. eexists. split; [reflexivity|].
  split; [apply listed_sorted, Order_Asc_created_at_sorted|].
  split.
  - apply listed_ids_unique.
    eapply Permutation_NoDup.
    + apply Permutation_map. symmetry. apply Order_Asc_created_at_perm.
    + apply NoDup_map_filter, Hwf.
  - intros r Hr. apply in_flat_map in Hr as (p & Hp & Hr).
    apply (Permutation_in _ (Order_Asc_created_at_perm _)) in Hp.
    apply filter_In in Hp as [Hp Hpo]. apply N.eqb_eq in Hpo.
    unfold list_entry in Hr.
    rewrite (membershipMap_explicit db userID (proj_id p) Hwf) in Hr.
    unfold ResolveProjectPermission.
    destruct (proj_is_private p) eqn:Hpriv;
      destruct (explicit_grant db userID (proj_id p)) as [pm|] eqn:Hg;
      simpl in Hr; try contradiction; destruct Hr as [<-|[]];
      (split; [exact Hpo|]); exists p.
    + exists (pm_permission pm). rewrite Hpriv, Hg. auto.
    + exists (pm_permission pm). rewrite Hpriv, Hg.
      destruct (pm_permission pm); auto.
    + exists PermissionView. rewrite Hpriv, Hg. auto.
Qed.
End Listing.

Lemma ListProjects_scope_and_order_witness :
  exists listed,
    ListProjects reliable (Some 2%N) "globex" example_db_two
    = (example_db_two, JSON StatusOK listed)
    /\ StronglySorted listed_before listed
    /\ NoDup (map ProjectResponse_ID listed)
    /\ forall r,
        In r listed ->
        ProjectResponse_OrganizationID r = 11%N
        /\ exists p perm,
            In p (projects example_db_two)
            /\ ResolveProjectPermission example_db_two 2%N p = Granted perm
            /\ r = project_response p (Permission_string perm).
Proof.
  apply (ListProjects_scope_and_order reliable 2%N example_db_two globex
           bob_owns_globex).
  - exact example_db_two_wf.
  - reflexivity.
  - simpl. auto.
  - discriminate.
  - simpl. auto.
  - reflexivity.
  - reflexivity.
Defined.

(** ** From a new organization to the restored context *)

Lemma CreateOrganization_keeps_wf e userID req db :
  wf db -> wf (fst (CreateOrganization e userID req db)).
Proof.
  intros Hwf. apply (evolves_wf db); [|exact Hwf].
  destruct (CreateOrganization_cases e userID req db)
    as [[-> _]|(uid & r & _ & _ & _ & Ho & Hm & Hp & _ & ->)];
    [apply evolves_refl|].
  constructor; simpl; try (now constructor).
  - right. exists uid, (SetLastOrgID (org_id (new_organization e r))).
    split; [apply keeps_identity_SetLastOrgID|reflexivity].
  - now apply (appended_row _ _ _ (new_organization e r)).
  - now apply (appended_row _ _ _ (owner_membership e uid)).
  - now apply (appended_row _ _ _ (general_project e)).
  - intros p Hin. apply in_app_or in Hin as [Hin|[<-|[]]]; [now left|].
    right. exists (new_organization e r). split; [|reflexivity].
    apply in_or_app. right. now left.
  - left. now constructor.
Qed.

(** X24.  After a successful [CreateOrganization] the creator's next
    [GetCurrentContext] has a context: it answers the organization just
    created, as the creation answered it, role owner included, and
    writes nothing; for a creator without a stored last project it
    redirects to the organization's home. *)
Theorem CreateOrganization_then_GetCurrentContext
        (e e' : Env) (userID : UUID) (req : CreateOrganizationRequest)
        (db : DB) (body : OrganizationResponse) :
  wf db -> (forall k, fault e' k = false) ->
  snd (CreateOrganization e (Some userID) (Some req) db)
  = JSON StatusCreated body ->
  exists answered,
    GetCurrentContext e' (Some userID)
                      (fst (CreateOrganization e (Some userID) (Some req) db))
    = (fst (CreateOrganization e (Some userID) (Some req) db),
       JSON StatusOK answered)
    /\ HasContext answered = true
    /\ ContextResponse_Organization answered = Some body
    /\ (forall lastOrg,
           stored_context db userID = Some (lastOrg, None) ->
           ContextResponse_Project answered = None
           /\ RedirectURL answered
              = ("/org/" ++ OrganizationResponse_Slug body)%string).
Proof.
  intros Hwf F Hcreated.
  pose proof (CreateOrganization_keeps_wf e (Some userID) (Some req) db Hwf)
    as Hwf'.
  destruct (CreateOrganization_cases e (Some userID) (Some req) db)
    as [[_ Hfail]|(uid & r & Hu & Hr & _ & _ & _ & _ & (u & Hin & Hid) & Heq)].
  { rewrite Hcreated in Hfail. discriminate. }
  injection Hu as <-. injection Hr as <-.
  rewrite Heq in Hcreated, Hwf' |- *. cbn [fst snd] in *.
  injection Hcreated as <-.
  set (org := new_organization e req) in *.
  set (db' := organization_created db userID org (general_project e)
                                   (now e 1)) in *.
  assert (Hfind : find (user_IDEQ userID) (users db) = Some u).
  { apply (find_selects user_id _ userID);
      [apply Hwf|intros b; apply user_IDEQ_true|exact Hin
      |now apply user_IDEQ_true]. }
  rewrite (GetCurrentContext_restores
             e' userID db' (SetLastOrgID (org_id org) u) org
             (owner_membership e userID)); auto.
  - cbn [user_last_project_id SetLastOrgID].
    assert (Hproject : forall lastOrg,
               stored_context db userID = Some (lastOrg, None) ->
               user_last_project_id u = None).
    { unfold stored_context. rewrite Hfind. intros lastOrg H.
      now injection H. }
    destruct (user_last_project_id u) as [projectID|].
    + destruct (find _ (projects db')) as [proj|].
      * destruct (ResolveProjectPermission db' userID proj);
          eexists; do 3 (split; [reflexivity|]);
          intros lastOrg H; discriminate (Hproject lastOrg H).
      * eexists. do 3 (split; [reflexivity|]).
        intros lastOrg H. discriminate (Hproject lastOrg H).
    + eexists. do 3 (split; [reflexivity|]). intros lastOrg _. now split.
  - unfold db'. cbn [users organization_created].
    now apply In_update_user.
  - unfold db'. cbn [organizations organization_created].
    apply in_or_app. right. now left.
  - unfold db'. cbn [organization_members organization_created].
    apply in_or_app. right. now left.
Qed.

Lemma CreateOrganization_then_GetCurrentContext_witness :
  let req := {| CreateOrganizationRequest_Name := "Initech";
                CreateOrganizationRequest_Slug := "initech" |} in
  let created := CreateOrganization reliable (Some 1%N) (Some req)
                                    example_db in
  exists answered,
    GetCurrentContext reliable (Some 1%N) (fst created)
    = (fst created, JSON StatusOK answered)
    /\ HasContext answered = true
    /\ ContextResponse_Organization answered
       = Some {| OrganizationResponse_ID := 100%N;
                 OrganizationResponse_Name := "Initech";
                 OrganizationResponse_Slug := "initech";
                 OrganizationResponse_Role := "owner";
                 OrganizationResponse_CreatedAt := now reliable 0 |}
    /\ (forall lastOrg,
           stored_context example_db 1%N = Some (lastOrg, None) ->
           ContextResponse_Project answered = None
           /\ RedirectURL answered = "/org/initech").
Proof.
  intros req created.
  apply (CreateOrganization_then_GetCurrentContext reliable reliable 1%N req
           example_db).
  - exact example_db_wf.
  - reflexivity.
  - vm_compute. reflexivity.
Defined.

(** ** The profile and the context of a user *)

Lemma SetDisplayName_same u : SetDisplayName (user_display_name u) u = u.
Proof. now destruct u. Qed.

Lemma find_update_user_other id other set us :
  (forall u, user_id (set u) = user_id u) -> other <> id ->
  find (user_IDEQ other) (update_user id set us)
  = find (user_IDEQ other) us.
Proof.
  intros Hid Hne. unfold update_user, user_IDEQ.
  induction us as [|u us IH]; simpl; [reflexivity|].
  destruct (N.eqb_spec (user_id u) id) as [Hu|Hu].
  - rewrite Hid. destruct (N.eqb_spec (user_id u) other) as [Ho|_];
      [congruence|exact IH].
  - destruct (N.eqb (user_id u) other); [reflexivity|exact IH].
Qed.

Lemma update_user_ext db id set set' u :
  wf db -> In u (users db) -> user_id u = id -> set u = set' u ->
  update_user id set (users db) = update_user id set' (users db).
Proof.
  intros Hwf Hu Hid Heq. unfold update_user. apply map_ext_in.
  intros v Hv. destruct (N.eqb_spec (user_id v) id) as [Hvid|_];
    [|reflexivity].
  assert (v = u) as ->; [|exact Heq].
  apply (NoDup_map_injective user_id (users db)); [apply Hwf|auto..].
  congruence.
Qed.

Lemma UpdateOneID_update_user flt id set us :
  UpdateOneID flt user_id id set us
  = if flt then Err DriverError
    else match find (user_IDEQ id) us with
         | None => Err NotFoundError
         | Some r => Ok (set r, update_user id set us)
         end.
Proof. reflexivity. Qed.

(** X25.  [UpdateMe] rewrites the display name of the caller's row and
    nothing else: a non-empty requested name replaces it, an empty or
    absent one leaves the row as it is; the last-visited pointers are
    kept, and the next [GetMe] answers the same user as the update
    did. *)
Theorem UpdateMe_changes_display_name_only
        (e e' : Env) (userID : UUID) (req : option string) (db : DB)
        (u : User) :
  wf db -> fault e 0 = false -> fault e' 0 = false ->
  In u (users db) -> user_id u = userID ->
  let u' := SetDisplayName (updated_display_name req u) u in
  let db' := set_users db (update_user userID
                             (SetDisplayName (updated_display_name req u))
                             (users db)) in
  UpdateMe e (Some userID) (Some req) db = (db', JSON StatusOK (user_response u'))
  /\ GetMe e' (Some userID) db' = (db', JSON StatusOK (user_response u'))
  /\ stored_context db' userID = stored_context db userID.
Proof.
  intros Hwf F F' Hu Hid u' db'.
  assert (Hfind : find (user_IDEQ userID) (users db) = Some u).
  { apply (find_selects user_id _ userID);
      [apply Hwf|intros b; apply user_IDEQ_true|exact Hu
      |now apply user_IDEQ_true]. }
  assert (Hfind' : find (user_IDEQ userID) (users db') = Some u').
  { unfold db'. cbn [users set_users].
    rewrite find_update_user; [|reflexivity]. now rewrite Hfind. }
  split; [|split].
  - unfold UpdateMe. rewrite UpdateOneID_update_user, F, Hfind.
    unfold db', u', updated_display_name.
    destruct req as [name|]; [destruct (String.eqb name "")|];
      try reflexivity;
      rewrite SetDisplayName_same;
      (rewrite (update_user_ext db userID (fun v => v)
                  (SetDisplayName (user_display_name u)) u);
       [reflexivity|auto..]); now rewrite SetDisplayName_same.
  - unfold GetMe. rewrite F'.
    assert (Hwf' : wf db').
    { apply wf_update_user; [|exact Hwf]. apply keeps_identity_SetDisplayName. }
    apply find_some in Hfind' as [Hin' Hid'].
    apply user_IDEQ_true in Hid'.
    now rewrite <- Hid', (user_Only db' u' Hwf' Hin').
  - unfold stored_context. now rewrite Hfind', Hfind.
Qed.

Lemma UpdateMe_changes_display_name_only_witness :
  UpdateMe reliable (Some 1%N) (Some (Some "Alice L.")) example_db
  = (set_users example_db
       (update_user 1%N (SetDisplayName "Alice L.") (users example_db)),
     JSON StatusOK (user_response (SetDisplayName "Alice L." alice))).
Proof.
  apply (proj1 (UpdateMe_changes_display_name_only
                  reliable reliable 1%N (Some "Alice L.") example_db alice
                  example_db_wf eq_refl eq_refl (or_introl eq_refl) eq_refl)).
Defined.

Section Context_organization.
Context {deps : Deps}.

(** X26.  [UpdateContext] with an organization id and no project id
    checks only the caller's membership row: a non-member is answered
    403 and nothing is written; for a member the last organization is
    set to the one named, the stored last project is kept as it was,
    and no other user's pointers change. *)
Theorem UpdateContext_organization_only
        (e : Env) (userID : UUID) (db : DB) (s : string) (orgID : UUID)
        (u : User) :
  wf db -> fault e 0 = false -> fault e 4 = false ->
  uuid_Parse s = Some orgID ->
  In u (users db) -> user_id u = userID ->
  let result :=
    UpdateContext e (Some userID)
                  (Some {| OrgID := Some s; ProjectID := None |}) db in
  match find (organizationmember_EQ userID orgID) (organization_members db)
  with
  | None =>
      result = (db, HTTPError StatusForbidden
                              "you are not a member of this organization")
  | Some _ =>
      snd result = NoContent StatusNoContent
      /\ stored_context (fst result) userID
         = Some (Some orgID, user_last_project_id u)
      /\ forall other,
          other <> userID ->
          stored_context (fst result) other = stored_context db other
  end.
Proof.
  intros Hwf F0 F4 Hparse Hu Hid result. unfold result. clear result.
  unfold UpdateContext, UpdateContext_org, UpdateContext_project.
  cbn [OrgID ProjectID]. rewrite Hparse, F0, Exist_finds.
  destruct (find (organizationmember_EQ userID orgID) _); [|reflexivity].
  assert (Hfind : find (user_IDEQ userID) (users db) = Some u).
  { apply (find_selects user_id _ userID);
      [apply Hwf|intros b; apply user_IDEQ_true|exact Hu
      |now apply user_IDEQ_true]. }
  rewrite UpdateOneID_update_user, F4, Hfind. cbn [fst snd].
  split; [reflexivity|]. unfold stored_context. cbn [users set_users].
  split.
  - rewrite find_update_user; [|reflexivity]. now rewrite Hfind.
  - intros other Hother.
    rewrite find_update_user_other; [reflexivity|reflexivity|exact Hother].
Qed.
End Context_organization.

Lemma UpdateContext_organization_only_witness :
  let result :=
    @UpdateContext example_deps reliable (Some 2%N)
       (Some {| OrgID := Some (UUID_String 10); ProjectID := None |})
       example_db_joined in
  snd result = NoContent StatusNoContent
  /\ stored_context (fst result) 2%N
     = Some (Some 10%N, user_last_project_id (SetLastOrgID 10%N bob))
  /\ forall other,
      other <> 2%N ->
      stored_context (fst result) other
      = stored_context example_db_joined other.
Proof.
  apply (@UpdateContext_organization_only example_deps reliable 2%N
           example_db_joined (UUID_String 10) 10%N (SetLastOrgID 10%N bob)
           example_db_joined_wf eq_refl eq_refl eq_refl
           (or_intror (or_introl eq_refl)) eq_refl).
Defined.

(** ** The middleware on a few headers *)

Example AuthMiddleware_on_headers :
  let guarded header :=
    snd (@AuthMiddleware example_deps example_token_of_string example_ToLower
           (auth.NewJWTService "") _ 1%Z header
           (fun c db => GetMe reliable (GetUserID c) db) example_db) in
  guarded "BEARER good" = HTTPError StatusNotFound "user not found"
  /\ guarded "Bearer  good"
     = HTTPError StatusUnauthorized "invalid authorization header format"
  /\ guarded "Token good"
     = HTTPError StatusUnauthorized "invalid authorization header format"
  /\ guarded "Bearer bad" = HTTPError StatusUnauthorized "invalid token"
  /\ guarded "" = HTTPError StatusUnauthorized "missing authorization header".
Proof. repeat split. Qed.

(** ** Restoring the context settles after one call *)

Lemma GetCurrentContext_faults e e' userID db :
  (forall k, fault e k = false) -> (forall k, fault e' k = false) ->
  GetCurrentContext e userID db = GetCurrentContext e' userID db.
Proof.
  intros F F'. unfold GetCurrentContext. now rewrite !F, !F'.
Qed.

Lemma GetCurrentContext_store e userID db :
  fst (GetCurrentContext e (Some userID) db) = db
  \/ exists u,
      find (user_IDEQ userID) (users db) = Some u
      /\ fst (GetCurrentContext e (Some userID) db)
         = set_users db
             (update_user userID
                          (fun u => ClearLastProjectID (ClearLastOrgID u))
                          (users db)).
Proof.
  unfold GetCurrentContext, clear_context, save_users_ignoring_error.
  repeat (case_on; simpl); try (now left);
    match goal with
    | H : UpdateOneID _ user_id _ _ _ = Ok (_, _) |- _ =>
        apply UpdateOneID_Ok_inv in H as (_ & (r & Hr & _) & ->);
        right; now exists r
    end.
Qed.

Lemma GetCurrentContext_without_pointer e userID db u :
  wf db -> (forall k, fault e k = false) ->
  find (user_IDEQ userID) (users db) = Some u ->
  user_last_org_id u = None ->
  fst (GetCurrentContext e (Some userID) db) = db.
Proof.
  intros Hwf F Hfind Hlast. apply find_some in Hfind as [Hin Hid].
  apply user_IDEQ_true in Hid. unfold GetCurrentContext.
  rewrite !F, <- Hid, (user_Only db u Hwf Hin), Hlast.
  unfold All. repeat (case_on; simpl); reflexivity.
Qed.

(** X27.  Restoring the context settles after one call: whatever the
    first [GetCurrentContext] of a user did to the store, a second one
    right after it writes nothing. *)
Theorem GetCurrentContext_settles
        (e e' : Env) (userID : UUID) (db : DB) :
  wf db -> (forall k, fault e k = false) -> (forall k, fault e' k = false) ->
  fst (GetCurrentContext e' (Some userID)
                         (fst (GetCurrentContext e (Some userID) db)))
  = fst (GetCurrentContext e (Some userID) db).
Proof.
  intros Hwf F F'.
  destruct (GetCurrentContext_store e userID db) as [H|(u & Hfind & H)];
    rewrite H.
  - now rewrite (GetCurrentContext_faults e' e (Some userID) db F' F).
  - apply (GetCurrentContext_without_pointer
             e' userID _ (ClearLastProjectID (ClearLastOrgID u))).
    + apply wf_update_user; [apply keeps_identity_clear|exact Hwf].
    + exact F'.
    + cbn [users set_users].
      rewrite find_update_user; [|reflexivity]. now rewrite Hfind.
    + reflexivity.
Qed.

Lemma GetCurrentContext_settles_witness :
  fst (GetCurrentContext reliable (Some 2%N)
                         (fst (GetCurrentContext reliable (Some 2%N)
                                                 example_db)))
  = fst (GetCurrentContext reliable (Some 2%N) example_db)
  /\ fst (GetCurrentContext reliable (Some 2%N) example_db) <> example_db.
Proof.
  split.
  - apply (GetCurrentContext_settles reliable reliable 2%N example_db
             example_db_wf (fun _ => eq_refl) (fun _ => eq_refl)).
  - vm_compute. discriminate.
Defined.
